(** * ComfyUI client for Flux 2 Dev generation: model and properties

    A shallow embedding of [backend/comfyui_client.py] (class
    [ComfyUIClient]).  The three workflow builders are association lists in
    the order of the Python dict literals; the asynchronous methods are
    computations in a small monad that threads the client's cache and the
    request counters, returns either a Python exception or a value, and
    emits the requests it performs. *)

From Stdlib Require Import ZArith NArith Ascii String List Lia Sorted.
From Stdlib Require QArith_base.
From stdpp Require Import gmap strings list fin_maps sorting.

Local Open Scope string_scope.
Local Open Scope Z_scope.

(** ** Workflow graphs *)

(** A Python [float].  The builders and [generate_image] only carry such a
    number from a parameter or a literal into the graph; none is computed
    with, so the decimal value is enough. *)
Definition float : Type := QArith_base.Q.

Definition float_1_15 : float := QArith_base.Qmake 115 100.
Definition float_0_5 : float := QArith_base.Qmake 1 2.
Definition float_1_0 : float := QArith_base.Qmake 1 1.

(** The value of one entry of a node's ["inputs"] dict: a literal, or the
    two-element list [[source_node, output_index]]. *)
Inductive input_value : Type :=
| VStr (s : string)
| VInt (z : Z)
| VFloat (x : float)
| VRef (source : string) (output_index : Z).

Record NodeSpec : Type := {
  class_type : string;
  inputs : list (string * input_value)
}.

(** A workflow dict, in insertion order. *)
Definition workflow : Type := list (string * NodeSpec).

Definition node_names (g : workflow) : list string := map fst g.

(** The node names that the inputs of [n] refer to. *)
Definition refs_of (n : NodeSpec) : list string :=
  flat_map (fun kv => match snd kv with
                      | VRef source _ => [source]
                      | _ => []
                      end) (inputs n).

Definition mem_string (x : string) (l : list string) : bool :=
  existsb (String.eqb x) l.

(** Every reference of every node names a key of the graph. *)
Definition references_resolve (g : workflow) : bool :=
  forallb (fun kv => forallb (fun src => mem_string src (node_names g))
                             (refs_of (snd kv))) g.

(** Some node of [g] takes an output of [name] as input. *)
Definition consumed (g : workflow) (name : string) : bool :=
  existsb (fun kv => mem_string name (refs_of (snd kv))) g.

(** Names of the nodes whose output nobody consumes. *)
Definition sink_nodes (g : workflow) : list string :=
  node_names (List.filter (fun kv => negb (consumed g (fst kv))) g).

(** Names of the nodes of class [SaveImage]. *)
Definition save_image_nodes (g : workflow) : list string :=
  node_names (List.filter (fun kv => String.eqb (class_type (snd kv)) "SaveImage") g).

(** The terminal artifact nodes: [SaveImage] nodes nobody consumes. *)
Definition terminal_nodes (g : workflow) : list string :=
  node_names (List.filter (fun kv => String.eqb (class_type (snd kv)) "SaveImage"
                                && negb (consumed g (fst kv)))%bool g).

(** The ["seed"] inputs found in the graph, node by node. *)
Definition seeds_of (g : workflow) : list input_value :=
  flat_map (fun kv => flat_map (fun i => if String.eqb (fst i) "seed"
                                         then [snd i] else [])
                               (inputs (snd kv))) g.

(** ** The engine and the client state *)

(** Python exceptions that reach the caller. *)
Inductive error : Type :=
| Exception (msg : string)       (* raise Exception(msg) *)
| ClientError (msg : string)     (* raised by aiohttp while a request is made *)
| IndexError                     (* list index out of range *)
| KeyError (key : string)        (* the dict has no such key *)
| TypeError                      (* a value that is no dict is subscripted *)
| JSONDecodeError.               (* the text is not JSON *)

(** The JSON answer to [POST /prompt]: a job id, or an ["error"] entry;
    [PromptUnreachable] stands for a request, or a reading of its answer,
    that raises the exception [e]. *)
Inductive prompt_response : Type :=
| PromptAccepted (prompt_id : string)
| PromptError (err : string)
| PromptUnreachable (e : error).

(** What keeps the loop from reading a field of a decoded message: the
    dict has no such key, or the value that is subscripted is no dict. *)
Inductive field_defect : Type :=
| MissingKey (key : string)
| NotSubscriptable.

Definition defect_error (d : field_defect) : error :=
  match d with
  | MissingKey key => KeyError key
  | NotSubscriptable => TypeError
  end.

(** A message of the websocket, after [json.loads] for text messages.  The
    last three are the text messages that the loop cannot read: a text that
    is not JSON; a JSON value that is no object or has no ["type"], or an
    ["executing"] message without its ["data"]["node"]; a ["progress"]
    message without its ["data"]["value"] or ["data"]["max"], which the
    loop reads only when there is a callback. *)
Inductive ws_msg : Type :=
| NonText
| MsgProgress (value max : Z)
| MsgExecuting (node : option string)
| MsgExecutionError (data : option string)
| MsgOther (type : string)
| MsgUndecodable
| MsgMalformed (d : field_defect)
| MsgProgressMalformed (d : field_defect).

(** One entry of an ["images"] list: each key when it is there. *)
Record image_info : Type := {
  filename : option string;
  subfolder : option string;
  folder_type : option string
}.

(** One node's recorded output: the ["images"] list when the key is there. *)
Record node_output : Type := { images : option (list image_info) }.

(** [history[prompt_id]]: its ["outputs"] dict, when the key is there, in
    the order of the answer. *)
Record history_entry : Type := {
  outputs : option (list (string * node_output))
}.

Definition bytes : Type := list Byte.byte.

(** How a request whose answer is read as JSON fails: aiohttp raises, or
    the body is not JSON. *)
Inductive request_failure : Type :=
| RequestError (msg : string)
| NotJson.

Definition failure_error (f : request_failure) : error :=
  match f with
  | RequestError msg => ClientError msg
  | NotJson => JSONDecodeError
  end.

(** What [session.ws_connect] comes to: it raises, or it gives a socket
    that delivers [msgs] and is then closed by the engine.  A socket that
    stays open and silent, on which the loop of the call would wait without
    end, has no session here. *)
Inductive ws_session : Type :=
| WsRefused (msg : string)
| WsOpen (msgs : list ws_msg).

(** What the engine and the random source answer.  [object_info] and
    [prompt_resp] are indexed by the number of earlier requests of the same
    kind, [None] and [PromptUnreachable] standing for a request that raises.
    The history of a job is a JSON object or the failure of its request;
    the content of an image is its bytes or the text of the exception of
    the download. *)
Record Engine : Type := {
  object_info : nat -> option (gmap string string);
  prompt_resp : nat -> prompt_response;
  websocket : ws_session;
  history_resp : string -> request_failure + gmap string history_entry;
  view_resp : string -> string -> string -> string + bytes;
  random_source : nat -> Z
}.

(** The messages that the websocket delivers: none when the connection is
    refused. *)
Definition ws_messages (eng : Engine) : list ws_msg :=
  match websocket eng with
  | WsOpen msgs => msgs
  | WsRefused _ => []
  end.

(** [self._available_nodes] and the number of requests made so far. *)
Record State : Type := {
  available_nodes : option (gmap string string);
  fetches : nat;
  posts : nat;
  draws : nat
}.

(** A client as [__init__] leaves it, in front of an untouched engine. *)
Definition fresh : State :=
  {| available_nodes := None; fetches := 0; posts := 0; draws := 0 |}.

(** The effects a computation performs, in order. *)
Inductive action : Type :=
| RandInt
| GetObjectInfo
| PostPrompt (w : workflow)
| WsConnect
| ProgressCallback (value max : Z)
| WsClose
| GetHistory (prompt_id : string)
| GetView (name sub kind : string).

Record outcome (A : Type) : Type := Outcome {
  out_value : error + A;
  out_state : State;
  out_trace : list action
}.
Arguments Outcome {A} _ _ _.
Arguments out_value {A} _.
Arguments out_state {A} _.
Arguments out_trace {A} _.

Definition M (A : Type) : Type := State -> outcome A.

#[global] Instance M_ret : MRet M := fun A a s => Outcome (inr a) s [].

#[global] Instance M_bind : MBind M := fun A B f m s =>
  let r := m s in
  match out_value r with
  | inl e => Outcome (inl e) (out_state r) (out_trace r)
  | inr a => let r' := f a (out_state r) in
             Outcome (out_value r') (out_state r') (out_trace r ++ out_trace r')
  end.

Definition raise {A : Type} (e : error) : M A := fun s => Outcome (inl e) s [].

(** [try: body  except Exception as e: handler e]. *)
Definition try_except {A : Type} (body : M A) (handler : error -> M A) : M A :=
  fun s =>
    let r := body s in
    match out_value r with
    | inl e => let r' := handler e (out_state r) in
               Outcome (out_value r') (out_state r') (out_trace r ++ out_trace r')
    | inr a => r
    end.

Definition emit (a : action) : M unit := fun s => Outcome (inr tt) s [a].

(** The workflows posted by a run. *)
Definition posted (t : list action) : list workflow :=
  flat_map (fun a => match a with PostPrompt w => [w] | _ => [] end) t.

Definition count_fetches (t : list action) : nat :=
  length (List.filter (fun a => match a with GetObjectInfo => true | _ => false end) t).

Definition count_draws (t : list action) : nat :=
  length (List.filter (fun a => match a with RandInt => true | _ => false end) t).

Definition read_available_nodes : M (option (gmap string string)) := fun s =>
  Outcome (inr (available_nodes s)) s [].

Definition set_available_nodes (nodes : gmap string string) : M unit := fun s =>
  Outcome (inr tt)
          {| available_nodes := Some nodes; fetches := fetches s;
             posts := posts s; draws := draws s |} [].

Definition tick_fetches (s : State) : State :=
  {| available_nodes := available_nodes s; fetches := S (fetches s);
     posts := posts s; draws := draws s |}.

Definition tick_posts (s : State) : State :=
  {| available_nodes := available_nodes s; fetches := fetches s;
     posts := S (posts s); draws := draws s |}.

Definition tick_draws (s : State) : State :=
  {| available_nodes := available_nodes s; fetches := fetches s;
     posts := posts s; draws := S (draws s) |}.

(** The exception [queue_prompt] raises on an answer, if any. *)
Definition prompt_failure (r : prompt_response) : option error :=
  match r with
  | PromptAccepted _ => None
  | PromptError err => Some (Exception ("ComfyUI error: " ++ err))
  | PromptUnreachable e => Some e
  end.

Inductive workflow_type : Type := gguf | standard | simple.

#[global] Instance workflow_type_eq_dec : EqDecision workflow_type.
Proof. solve_decision. Defined.

Record metadata : Type := {
  md_prompt : string;
  md_width : Z;
  md_height : Z;
  md_steps : Z;
  md_guidance : float;
  md_seed : Z;
  md_filename : string
}.

Section Client.
Context (eng : Engine).

(** [random.randint(0, 2**31 - 1)]. *)
Definition randint : M Z := fun s =>
  Outcome (inr (random_source eng (draws s) mod 2 ^ 31)) (tick_draws s) [RandInt].

(** [session.get(f"{self.base_url}/object_info")] and [resp.json()]. *)
Definition fetch_object_info : M (gmap string string) := fun s =>
  match object_info eng (fetches s) with
  | Some nodes => Outcome (inr nodes) (tick_fetches s) [GetObjectInfo]
  | None => Outcome (inl (ClientError "object_info")) (tick_fetches s) [GetObjectInfo]
  end.

Definition get_available_nodes : M (gmap string string) :=
  cached ← read_available_nodes;
  match cached with
  | Some nodes => mret nodes
  | None =>
      try_except
        (nodes ← fetch_object_info;
         set_available_nodes nodes;;
         mret nodes)
        (fun _ => mret ∅)
  end.

Definition has_node (node_type : string) : M bool :=
  nodes ← get_available_nodes;
  mret (bool_decide (is_Some (nodes !! node_type))).

(** [if seed is None: seed = random.randint(0, 2**31 - 1)]. *)
Definition seed_or_random (seed : option Z) : M Z :=
  match seed with
  | None => randint
  | Some s => mret s
  end.

Definition create_flux2_workflow (prompt : string) (width height steps : Z)
    (guidance : float) (seed : option Z) : M workflow :=
  seed ← seed_or_random seed;
  mret
    [ ("load_unet",
       {| class_type := "UNETLoader";
          inputs := [ ("unet_name", VStr "flux2_dev_fp8mixed.safetensors");
                      ("weight_dtype", VStr "fp8_e4m3fn") ] |});
      ("load_clip",
       {| class_type := "CLIPLoader";
          inputs := [ ("clip_name", VStr "mistral_3_small_flux2_fp8.safetensors");
                      ("type", VStr "flux2") ] |});
      ("load_vae",
       {| class_type := "VAELoader";
          inputs := [ ("vae_name", VStr "flux2-vae.safetensors") ] |});
      ("clip_encode",
       {| class_type := "CLIPTextEncode";
          inputs := [ ("text", VStr prompt);
                      ("clip", VRef "load_clip" 0) ] |});
      ("clip_encode_negative",
       {| class_type := "CLIPTextEncode";
          inputs := [ ("text", VStr "");
                      ("clip", VRef "load_clip" 0) ] |});
      ("empty_latent",
       {| class_type := "EmptySD3LatentImage";
          inputs := [ ("width", VInt width);
                      ("height", VInt height);
                      ("batch_size", VInt 1) ] |});
      ("model_sampling",
       {| class_type := "ModelSamplingFlux";
          inputs := [ ("model", VRef "load_unet" 0);
                      ("max_shift", VFloat float_1_15);
                      ("base_shift", VFloat float_0_5);
                      ("width", VInt width);
                      ("height", VInt height) ] |});
      ("sampler",
       {| class_type := "KSampler";
          inputs := [ ("model", VRef "model_sampling" 0);
                      ("positive", VRef "clip_encode" 0);
                      ("negative", VRef "clip_encode_negative" 0);
                      ("latent_image", VRef "empty_latent" 0);
                      ("seed", VInt seed);
                      ("steps", VInt steps);
                      ("cfg", VFloat guidance);
                      ("sampler_name", VStr "euler");
                      ("scheduler", VStr "simple");
                      ("denoise", VFloat float_1_0) ] |});
      ("vae_decode",
       {| class_type := "VAEDecode";
          inputs := [ ("samples", VRef "sampler" 0);
                      ("vae", VRef "load_vae" 0) ] |});
      ("save_image",
       {| class_type := "SaveImage";
          inputs := [ ("images", VRef "vae_decode" 0);
                      ("filename_prefix", VStr "flux_gen") ] |}) ].

Definition create_flux2_workflow_gguf (prompt : string) (width height steps : Z)
    (guidance : float) (seed : option Z) : M workflow :=
  seed ← seed_or_random seed;
  mret
    [ ("load_unet_gguf",
       {| class_type := "UnetLoaderGGUF";
          inputs := [ ("unet_name", VStr "flux2-dev-Q5_K_M.gguf") ] |});
      ("load_clip",
       {| class_type := "CLIPLoader";
          inputs := [ ("clip_name", VStr "mistral_3_small_flux2_bf16.safetensors");
                      ("type", VStr "flux2") ] |});
      ("load_vae",
       {| class_type := "VAELoader";
          inputs := [ ("vae_name", VStr "flux2-vae.safetensors") ] |});
      ("clip_encode",
       {| class_type := "CLIPTextEncode";
          inputs := [ ("text", VStr prompt);
                      ("clip", VRef "load_clip" 0) ] |});
      ("clip_encode_negative",
       {| class_type := "CLIPTextEncode";
          inputs := [ ("text", VStr "");
                      ("clip", VRef "load_clip" 0) ] |});
      ("empty_latent",
       {| class_type := "EmptySD3LatentImage";
          inputs := [ ("width", VInt width);
                      ("height", VInt height);
                      ("batch_size", VInt 1) ] |});
      ("model_sampling",
       {| class_type := "ModelSamplingFlux";
          inputs := [ ("model", VRef "load_unet_gguf" 0);
                      ("max_shift", VFloat float_1_15);
                      ("base_shift", VFloat float_0_5);
                      ("width", VInt width);
                      ("height", VInt height) ] |});
      ("sampler",
       {| class_type := "KSampler";
          inputs := [ ("model", VRef "model_sampling" 0);
                      ("positive", VRef "clip_encode" 0);
                      ("negative", VRef "clip_encode_negative" 0);
                      ("latent_image", VRef "empty_latent" 0);
                      ("seed", VInt seed);
                      ("steps", VInt steps);
                      ("cfg", VFloat guidance);
                      ("sampler_name", VStr "euler");
                      ("scheduler", VStr "simple");
                      ("denoise", VFloat float_1_0) ] |});
      ("vae_decode",
       {| class_type := "VAEDecode";
          inputs := [ ("samples", VRef "sampler" 0);
                      ("vae", VRef "load_vae" 0) ] |});
      ("save_image",
       {| class_type := "SaveImage";
          inputs := [ ("images", VRef "vae_decode" 0);
                      ("filename_prefix", VStr "flux_gen") ] |}) ].

Definition create_flux2_workflow_simple (prompt : string) (width height steps : Z)
    (guidance : float) (seed : option Z) : M workflow :=
  seed ← seed_or_random seed;
  mret
    [ ("load_unet",
       {| class_type := "UNETLoader";
          inputs := [ ("unet_name", VStr "flux2_dev_fp8mixed.safetensors");
                      ("weight_dtype", VStr "fp8_e4m3fn") ] |});
      ("load_clip",
       {| class_type := "CLIPLoader";
          inputs := [ ("clip_name", VStr "mistral_3_small_flux2_fp8.safetensors");
                      ("type", VStr "flux2") ] |});
      ("load_vae",
       {| class_type := "VAELoader";
          inputs := [ ("vae_name", VStr "flux2-vae.safetensors") ] |});
      ("clip_encode",
       {| class_type := "CLIPTextEncode";
          inputs := [ ("text", VStr prompt);
                      ("clip", VRef "load_clip" 0) ] |});
      ("clip_encode_negative",
       {| class_type := "CLIPTextEncode";
          inputs := [ ("text", VStr "");
                      ("clip", VRef "load_clip" 0) ] |});
      ("empty_latent",
       {| class_type := "EmptySD3LatentImage";
          inputs := [ ("width", VInt width);
                      ("height", VInt height);
                      ("batch_size", VInt 1) ] |});
      ("sampler",
       {| class_type := "KSampler";
          inputs := [ ("model", VRef "load_unet" 0);
                      ("positive", VRef "clip_encode" 0);
                      ("negative", VRef "clip_encode_negative" 0);
                      ("latent_image", VRef "empty_latent" 0);
                      ("seed", VInt seed);
                      ("steps", VInt steps);
                      ("cfg", VFloat guidance);
                      ("sampler_name", VStr "euler");
                      ("scheduler", VStr "simple");
                      ("denoise", VFloat float_1_0) ] |});
      ("vae_decode",
       {| class_type := "VAEDecode";
          inputs := [ ("samples", VRef "sampler" 0);
                      ("vae", VRef "load_vae" 0) ] |});
      ("save_image",
       {| class_type := "SaveImage";
          inputs := [ ("images", VRef "vae_decode" 0);
                      ("filename_prefix", VStr "flux_gen") ] |}) ].

(** The builder of a variant. *)
Definition create_workflow (v : workflow_type) :
    string -> Z -> Z -> Z -> float -> option Z -> M workflow :=
  match v with
  | gguf => create_flux2_workflow_gguf
  | standard => create_flux2_workflow
  | simple => create_flux2_workflow_simple
  end.

Definition queue_prompt (w : workflow) : M string := fun s =>
  let result := prompt_resp eng (posts s) in
  match result with
  | PromptAccepted prompt_id => Outcome (inr prompt_id) (tick_posts s) [PostPrompt w]
  | PromptError err =>
      Outcome (inl (Exception ("ComfyUI error: " ++ err))) (tick_posts s) [PostPrompt w]
  | PromptUnreachable e => Outcome (inl e) (tick_posts s) [PostPrompt w]
  end.

(** [session.get(f"{self.base_url}/history/{prompt_id}")] and
    [resp.json()]. *)
Definition get_history (prompt_id : string) : M (gmap string history_entry) :=
  emit (GetHistory prompt_id);;
  match history_resp eng prompt_id with
  | inr history => mret history
  | inl failure => raise (failure_error failure)
  end.

(** [session.get(f"{self.base_url}/view", params=params)] and
    [resp.read()]. *)
Definition get_image (name sub kind : string) : M bytes :=
  emit (GetView name sub kind);;
  match view_resp eng name sub kind with
  | inr content => mret content
  | inl msg => raise (ClientError msg)
  end.

(** [generate_image], lines 408-438: the best variant the two capability
    flags permit is built, and tagged with its type. *)
Definition build_selected (has_gguf_loader has_flux_sampling : bool)
    (prompt : string) (width height steps : Z) (guidance : float) (seed : Z)
    : M (workflow * workflow_type) :=
  if has_gguf_loader then
    w ← create_flux2_workflow_gguf prompt width height steps guidance (Some seed);
    mret (w, gguf)
  else if has_flux_sampling then
    w ← create_flux2_workflow prompt width height steps guidance (Some seed);
    mret (w, standard)
  else
    w ← create_flux2_workflow_simple prompt width height steps guidance (Some seed);
    mret (w, simple).

(** [generate_image], lines 440-476: the submission and its fallbacks. *)
Definition submit_with_fallback (w : workflow) (wtype : workflow_type)
    (has_flux_sampling : bool)
    (prompt : string) (width height steps : Z) (guidance : float) (seed : Z)
    : M string :=
  try_except (queue_prompt w)
    (fun e =>
       if (bool_decide (wtype = gguf) && has_flux_sampling)%bool then
         w ← create_flux2_workflow prompt width height steps guidance (Some seed);
         try_except (queue_prompt w)
           (fun _ =>
              w ← create_flux2_workflow_simple prompt width height steps guidance (Some seed);
              queue_prompt w)
       else if bool_decide (wtype = gguf \/ wtype = standard) then
         w ← create_flux2_workflow_simple prompt width height steps guidance (Some seed);
         queue_prompt w
       else raise e).

(** The body of [async for msg in ws], lines 481-499. *)
Fixpoint ws_loop (progress_callback : bool) (msgs : list ws_msg) : M unit :=
  match msgs with
  | [] => mret tt
  | msg :: rest =>
      match msg with
      | NonText => ws_loop progress_callback rest
      | MsgProgress value max =>
          (if progress_callback then emit (ProgressCallback value max) else mret tt);;
          ws_loop progress_callback rest
      | MsgExecuting node =>
          match node with
          | None => mret tt
          | Some _ => ws_loop progress_callback rest
          end
      | MsgExecutionError data =>
          let error_msg := default "{}" data in
          raise (Exception ("Execution error: " ++ error_msg))
      | MsgOther _ => ws_loop progress_callback rest
      | MsgUndecodable => raise JSONDecodeError
      | MsgMalformed d => raise (defect_error d)
      | MsgProgressMalformed d =>
          if progress_callback then raise (defect_error d)
          else ws_loop progress_callback rest
      end
  end.

(** [async with session.ws_connect(...) as ws: body]: when the connection
    is refused the exception goes to the caller and the body is not run;
    a socket that was opened is closed however the body is left. *)
Definition with_ws {A : Type} (body : list ws_msg -> M A) : M A :=
  emit WsConnect;;
  match websocket eng with
  | WsRefused msg => raise (ClientError msg)
  | WsOpen msgs => fun s =>
      let r := body msgs s in
      Outcome (out_value r) (out_state r) (out_trace r ++ [WsClose])
  end.

Definition track_progress (progress_callback : bool) : M unit :=
  with_ws (ws_loop progress_callback).

(** The loop over [outputs.items()], lines 510-531. *)
Fixpoint scan_outputs (outs : list (string * node_output))
    (prompt : string) (width height steps : Z) (guidance : float) (seed : Z)
    : M (bytes * metadata) :=
  match outs with
  | [] => raise (Exception "No image found in output")
  | (node_id, output) :: rest =>
      match images output with
      | Some imgs =>
          match imgs with
          | [] => raise IndexError
          | info :: _ =>
              match filename info with
              | None => raise (KeyError "filename")
              | Some name =>
                  match folder_type info with
                  | None => raise (KeyError "type")
                  | Some kind =>
                      image_bytes ← get_image name (default "" (subfolder info)) kind;
                      mret (image_bytes,
                            {| md_prompt := prompt; md_width := width;
                               md_height := height; md_steps := steps;
                               md_guidance := guidance; md_seed := seed;
                               md_filename := name |})
                  end
              end
          end
      | None => scan_outputs rest prompt width height steps guidance seed
      end
  end.

(** [generate_image], lines 501-531. *)
Definition fetch_result (prompt_id : string)
    (prompt : string) (width height steps : Z) (guidance : float) (seed : Z)
    : M (bytes * metadata) :=
  history ← get_history prompt_id;
  match history !! prompt_id with
  | None => raise (Exception "Generation failed - no history found")
  | Some entry =>
      match outputs entry with
      | None => raise (KeyError "outputs")
      | Some outs => scan_outputs outs prompt width height steps guidance seed
      end
  end.

(** [generate_image], lines 397-476: from the seed to the accepted job. *)
Definition submit_job (prompt : string) (width height steps : Z)
    (guidance : float) (seed : option Z) : M (string * Z) :=
  seed ← seed_or_random seed;
  has_gguf_loader ← has_node "UnetLoaderGGUF";
  has_flux_sampling ← has_node "ModelSamplingFlux";
  '(w, wtype) ← build_selected has_gguf_loader has_flux_sampling
                  prompt width height steps guidance seed;
  prompt_id ← submit_with_fallback w wtype has_flux_sampling
                prompt width height steps guidance seed;
  mret (prompt_id, seed).

Definition generate_image (prompt : string) (width height steps : Z)
    (guidance : float) (seed : option Z) (progress_callback : bool)
    : M (bytes * metadata) :=
  '(prompt_id, seed) ← submit_job prompt width height steps guidance seed;
  track_progress progress_callback;;
  fetch_result prompt_id prompt width height steps guidance seed.

(** [n] calls of [get_available_nodes] in a row: the catalogs returned. *)
Fixpoint repeat_get_available_nodes (n : nat) : M (list (gmap string string)) :=
  match n with
  | O => mret []
  | S k =>
      nodes ← get_available_nodes;
      more ← repeat_get_available_nodes k;
      mret (nodes :: more)
  end.

End Client.

(** The two capability flags as [generate_image] computes them in state [s]. *)
Definition capabilities (eng : Engine) (s : State) : bool * bool * State :=
  let r1 := has_node eng "UnetLoaderGGUF" s in
  let r2 := has_node eng "ModelSamplingFlux" (out_state r1) in
  (match out_value r1 with inr b => b | inl _ => false end,
   match out_value r2 with inr b => b | inl _ => false end,
   out_state r2).

(** The requests the two capability tests make in state [s]. *)
Definition probe_trace (eng : Engine) (s : State) : list action :=
  let r1 := has_node eng "UnetLoaderGGUF" s in
  out_trace r1 ++ out_trace (has_node eng "ModelSamplingFlux" (out_state r1)).

(** The seed [generate_image] works with: the caller's, or the next draw. *)
Definition resolved_seed (eng : Engine) (seed : option Z) (s : State) : Z :=
  match seed with
  | Some x => x
  | None => random_source eng (draws s) mod 2 ^ 31
  end.

(** The tag lines 408-438 give the workflow they build. *)
Definition select_variant (has_gguf_loader has_flux_sampling : bool) : workflow_type :=
  if has_gguf_loader then gguf
  else if has_flux_sampling then standard
  else simple.

(** The graph a builder returns for an explicit seed. *)
Definition graph_of (v : workflow_type) (prompt : string) (width height steps : Z)
    (guidance : float) (seed : Z) : workflow :=
  let eng := {| object_info := fun _ => None;
                prompt_resp := fun _ => PromptUnreachable (ClientError "");
                websocket := WsOpen [];
                history_resp := fun _ => inr ∅;
                view_resp := fun _ _ _ => inr [];
                random_source := fun _ => 0 |} in
  match out_value (create_workflow eng v prompt width height steps guidance
                                   (Some seed) fresh) with
  | inr g => g
  | inl _ => []
  end.

(** A variant may be attempted under the flags [generate_image] computed. *)
Definition permitted (has_gguf_loader has_flux_sampling : bool) (v : workflow_type) : bool :=
  match v with
  | gguf => has_gguf_loader
  | standard => has_flux_sampling
  | simple => true
  end.

(** The priority order of the variants. *)
Definition cascade : list workflow_type := [gguf; standard; simple].

(** The answers to the submissions number [n], [n+1], ... that fail, up to
    the first one that is accepted. *)
Fixpoint failures_from (eng : Engine) (n k : nat) : list error :=
  match k with
  | O => []
  | S k' =>
      match prompt_failure (prompt_resp eng n) with
      | Some e => e :: failures_from eng (S n) k'
      | None => []
      end
  end.

(** What [queue_prompt] makes of an answer. *)
Definition prompt_result (r : prompt_response) : error + string :=
  match r with
  | PromptAccepted prompt_id => inr prompt_id
  | PromptError err => inl (Exception ("ComfyUI error: " ++ err))
  | PromptUnreachable e => inl e
  end.

(** The variants the flags permit, in priority order. *)
Definition plan (has_gguf_loader has_flux_sampling : bool) : list workflow_type :=
  List.filter (permitted has_gguf_loader has_flux_sampling) cascade.

(** The variants submitted when the submissions start at request number
    [n]: those of the plan up to the first accepted one. *)
Definition attempts (eng : Engine) (n : nat)
    (has_gguf_loader has_flux_sampling : bool) : list workflow_type :=
  let pl := plan has_gguf_loader has_flux_sampling in
  take (S (length (failures_from eng n (length pl)))) pl.

(** The number of requests for the catalog, among the first [k], that the
    engine answers. *)
Fixpoint successful_fetches (eng : Engine) (k : nat) : nat :=
  match k with
  | O => O
  | S k' => (successful_fetches eng k' +
             match object_info eng k' with Some _ => 1 | None => 0 end)%nat
  end.

(** An engine that answers no request for the catalog. *)
Definition engine_down : Engine :=
  {| object_info := fun _ => None;
     prompt_resp := fun _ => PromptUnreachable (ClientError "down");
     websocket := WsRefused "down";
     history_resp := fun _ => inl (RequestError "down");
     view_resp := fun _ _ _ => inl "down";
     random_source := fun _ => 0 |}.

(** An engine whose catalog request fails once and is answered afterwards. *)
Definition engine_late : Engine :=
  {| object_info := fun n => match n with
                             | O => None
                             | S _ => Some {[ "ModelSamplingFlux" := "{}" ]}
                             end;
     prompt_resp := fun _ => PromptAccepted "job";
     websocket := WsOpen [MsgExecuting None];
     history_resp := fun _ => inr ∅;
     view_resp := fun _ _ _ => inr [];
     random_source := fun _ => 0 |}.

(** ** The progress monitor and the result *)

(** A message after which [async for] goes on to the next one.  A
    progress message whose value or max cannot be read stops the loop only
    when there is a callback to pass them to. *)
Definition non_terminal (progress_callback : bool) (m : ws_msg) : bool :=
  match m with
  | MsgExecuting None => false
  | MsgExecutionError _ => false
  | MsgUndecodable => false
  | MsgMalformed _ => false
  | MsgProgressMalformed _ => negb progress_callback
  | _ => true
  end.

(** The calls of the progress callback that a run of messages causes. *)
Definition progress_calls (progress_callback : bool) (msgs : list ws_msg)
    : list action :=
  flat_map (fun m => match m with
                     | MsgProgress value max =>
                         if progress_callback then [ProgressCallback value max] else []
                     | _ => []
                     end) msgs.

(** How the monitoring block is left: past its end, or by an exception. *)
Inductive monitor_state : Type :=
| Succeeded
| Failed (e : error).

Definition final_state (r : outcome unit) : monitor_state :=
  match out_value r with
  | inr _ => Succeeded
  | inl e => Failed e
  end.

(** The image list of the first recorded output that has one. *)
Fixpoint first_image_list (outs : list (string * node_output))
    : option (list image_info) :=
  match outs with
  | [] => None
  | (_, output) :: rest =>
      match images output with
      | Some imgs => Some imgs
      | None => first_image_list rest
      end
  end.

(** The two exceptions of lines 505 and 531. *)
Definition result_missing (e : error) : Prop :=
  e = Exception "Generation failed - no history found" \/
  e = Exception "No image found in output".

(** The value [generate_image] returns for the image file [name] with the
    content [image_bytes]. *)
Definition result_for (image_bytes : bytes) (name : string)
    (prompt : string) (width height steps : Z) (guidance : float) (seed : Z)
    : bytes * metadata :=
  (image_bytes,
   {| md_prompt := prompt; md_width := width; md_height := height;
      md_steps := steps; md_guidance := guidance; md_seed := seed;
      md_filename := name |}).

(** What lines 504-517 settle on in the history of a job, before any
    download: the name, subfolder and type of the first entry of the first
    image list, or the exception that they raise. *)
Definition located_image (history : gmap string history_entry) (prompt_id : string)
    : error + string * string * string :=
  match history !! prompt_id with
  | None => inl (Exception "Generation failed - no history found")
  | Some entry =>
      match outputs entry with
      | None => inl (KeyError "outputs")
      | Some outs =>
          match first_image_list outs with
          | None => inl (Exception "No image found in output")
          | Some [] => inl IndexError
          | Some (info :: _) =>
              match filename info, folder_type info with
              | None, _ => inl (KeyError "filename")
              | Some _, None => inl (KeyError "type")
              | Some name, Some kind => inr (name, default "" (subfolder info), kind)
              end
          end
      end
  end.

(** What the lookup of the result of job [prompt_id] comes to: the
    exception of the request for the history, the one raised on the
    history, the one of the download, or the image with its metadata. *)
Definition lookup_result (eng : Engine) (prompt_id : string)
    (prompt : string) (width height steps : Z) (guidance : float) (seed : Z)
    : error + bytes * metadata :=
  match history_resp eng prompt_id with
  | inl failure => inl (failure_error failure)
  | inr history =>
      match located_image history prompt_id with
      | inl e => inl e
      | inr (name, sub, kind) =>
          match view_resp eng name sub kind with
          | inl msg => inl (ClientError msg)
          | inr image_bytes =>
              inr (result_for image_bytes name prompt width height steps guidance seed)
          end
      end
  end.

(** An engine whose history records an output with an empty image list. *)
Definition engine_no_image : Engine :=
  {| object_info := fun _ => Some ∅;
     prompt_resp := fun _ => PromptAccepted "job";
     websocket := WsOpen [MsgExecuting None];
     history_resp := fun _ =>
       inr {[ "job" := {| outputs :=
                            Some [("save_image", {| images := Some [] |})] |} ]};
     view_resp := fun _ _ _ => inr [];
     random_source := fun _ => 0 |}.

(** The same engine, with a recorded output that has no image list at
    all. *)
Definition engine_no_image_list : Engine :=
  {| object_info := fun _ => Some ∅;
     prompt_resp := fun _ => PromptAccepted "job";
     websocket := WsOpen [MsgExecuting None];
     history_resp := fun _ =>
       inr {[ "job" := {| outputs :=
                            Some [("save_image", {| images := None |})] |} ]};
     view_resp := fun _ _ _ => inr [];
     random_source := fun _ => 0 |}.

(** An engine that runs a job to its end and records one image. *)
Definition engine_ok : Engine :=
  {| object_info := fun _ => Some {[ "UnetLoaderGGUF" := "{}" ]};
     prompt_resp := fun _ => PromptAccepted "job";
     websocket := WsOpen [MsgProgress 1 20; MsgExecuting (Some "sampler");
                          MsgProgress 20 20; MsgExecuting None; MsgProgress 1 20];
     history_resp := fun _ =>
       inr {[ "job" := {| outputs := Some
            [("sampler", {| images := None |});
             ("save_image",
              {| images := Some [ {| filename := Some "flux_gen_00001_.png";
                                     subfolder := None;
                                     folder_type := Some "output" |} ] |})] |} ]};
     view_resp := fun _ _ _ => inr [Byte.x89; Byte.x50; Byte.x4e; Byte.x47];
     random_source := fun _ => 42 |}.

(** An engine that accepts a job and reports an execution error. *)
Definition engine_exec_error : Engine :=
  {| object_info := fun _ => Some {[ "UnetLoaderGGUF" := "{}" ]};
     prompt_resp := fun _ => PromptAccepted "job";
     websocket := WsOpen [MsgProgress 1 20; MsgExecutionError (Some "X");
                          MsgExecuting None];
     history_resp := fun _ => inr ∅;
     view_resp := fun _ _ _ => inr [];
     random_source := fun _ => 42 |}.

(** An engine that knows the quantized loader only and rejects every
    graph, each time with another message. *)
Definition engine_rejecting : Engine :=
  {| object_info := fun _ => Some {[ "UnetLoaderGGUF" := "{}" ]};
     prompt_resp := fun n => match n with
                             | O => PromptError "first"
                             | S _ => PromptError "second"
                             end;
     websocket := WsOpen [];
     history_resp := fun _ => inr ∅;
     view_resp := fun _ _ _ => inr [];
     random_source := fun _ => 42 |}.

(** An engine that knows both advanced node types and rejects the first
    graph it is sent. *)
Definition engine_first_rejected : Engine :=
  {| object_info := fun _ => Some {[ "UnetLoaderGGUF" := "{}";
                                     "ModelSamplingFlux" := "{}" ]};
     prompt_resp := fun n => match n with
                             | O => PromptError "unknown node"
                             | S _ => PromptAccepted "job"
                             end;
     websocket := WsOpen [MsgExecuting None];
     history_resp := fun _ => inr ∅;
     view_resp := fun _ _ _ => inr [];
     random_source := fun _ => 42 |}.

(** The reading of the cascade as the specification words it: when every
    attempt fails, the error of the first attempt reaches the caller. *)
Definition surfaces_original_error (eng : Engine)
    (prompt : string) (width height steps : Z) (guidance : float)
    (seed : option Z) (progress_callback : bool) (s : State) : Prop :=
  let r := generate_image eng prompt width height steps guidance seed
                          progress_callback s in
  (forall i, (i < length (posted (out_trace r)))%nat ->
             prompt_failure (prompt_resp eng (i + posts s)) <> None) ->
  exists e, prompt_failure (prompt_resp eng (posts s)) = Some e /\
            out_value r = inl e.

Definition float_3_5 : float := QArith_base.Qmake 35 10.

(** ** More on the graphs and on the run of a call *)

(** Every reference of a node names a node that stands earlier in the
    graph; [seen] holds the names met so far. *)
Fixpoint references_backward (seen : list string) (g : workflow) : bool :=
  match g with
  | [] => true
  | (name, spec) :: rest =>
      forallb (fun src => mem_string src seen) (refs_of spec)
      && references_backward (name :: seen) rest
  end.

(** Some node of the graph has class [c]. *)
Definition uses_class (g : workflow) (c : string) : bool :=
  existsb (fun kv => String.eqb (class_type (snd kv)) c) g.

(** The value of input [slot] of node [name]. *)
Definition input_of (g : workflow) (name slot : string) : option input_value :=
  match List.find (fun kv => String.eqb (fst kv) name) g with
  | Some (_, spec) =>
      match List.find (fun i => String.eqb (fst i) slot) (inputs spec) with
      | Some (_, v) => Some v
      | None => None
      end
  | None => None
  end.

(** [v], with a reference to node [name] replaced by [to]. *)
Definition redirect (name : string) (to : input_value) (v : input_value)
    : input_value :=
  match v with
  | VRef source _ => if String.eqb source name then to else v
  | _ => v
  end.

(** The graph without node [name], whose consumers take what [name] took
    on its input [via]. *)
Definition bypass (name via : string) (g : workflow) : workflow :=
  match input_of g name via with
  | None => g
  | Some to =>
      map (fun kv =>
             (fst kv,
              {| class_type := class_type (snd kv);
                 inputs := map (fun i => (fst i, redirect name to (snd i)))
                               (inputs (snd kv)) |}))
          (List.filter (fun kv => negb (String.eqb (fst kv) name)) g)
  end.

(** The messages the loop goes through before it is left. *)
Fixpoint read_prefix (progress_callback : bool) (msgs : list ws_msg) : list ws_msg :=
  match msgs with
  | [] => []
  | m :: rest =>
      if non_terminal progress_callback m
      then m :: read_prefix progress_callback rest
      else []
  end.

(** The message on which the loop is left, if the stream has one. *)
Fixpoint first_terminal (progress_callback : bool) (msgs : list ws_msg)
    : option ws_msg :=
  match msgs with
  | [] => None
  | m :: rest =>
      if non_terminal progress_callback m
      then first_terminal progress_callback rest
      else Some m
  end.

(** The exception of the loop for the stream [msgs], if it raises one. *)
Definition monitor_failure (progress_callback : bool) (msgs : list ws_msg)
    : option error :=
  match first_terminal progress_callback msgs with
  | Some (MsgExecutionError data) =>
      Some (Exception ("Execution error: " ++ default "{}" data))
  | Some MsgUndecodable => Some JSONDecodeError
  | Some (MsgMalformed d) => Some (defect_error d)
  | Some (MsgProgressMalformed d) => Some (defect_error d)
  | _ => None
  end.

(** The exception by which the monitoring block of lines 478-499 is left,
    if any: that of a refused connection, or that of the loop. *)
Definition monitoring_error (eng : Engine) (progress_callback : bool) : option error :=
  match websocket eng with
  | WsRefused msg => Some (ClientError msg)
  | WsOpen msgs => monitor_failure progress_callback msgs
  end.

Definition count_actions (p : action -> bool) (t : list action) : nat :=
  length (List.filter p t).

Definition is_connect (a : action) : bool :=
  match a with WsConnect => true | _ => false end.

Definition is_close (a : action) : bool :=
  match a with WsClose => true | _ => false end.

Definition is_fetch (a : action) : bool :=
  match a with GetObjectInfo => true | _ => false end.

(** The requests for the history and for an image. *)
Definition is_result_request (a : action) : bool :=
  match a with GetHistory _ | GetView _ _ _ => true | _ => false end.

(** The requests that the lookup of the result of job [prompt_id] makes:
    for the history, and for the image when the history locates one. *)
Definition result_requests (eng : Engine) (prompt_id : string) : list action :=
  GetHistory prompt_id ::
  match history_resp eng prompt_id with
  | inr history =>
      match located_image history prompt_id with
      | inr (name, sub, kind) => [GetView name sub kind]
      | inl _ => []
      end
  | inl _ => []
  end.

(** What the monitoring block adds to the trace. *)
Definition monitor_trace (eng : Engine) (progress_callback : bool) : list action :=
  WsConnect ::
  match websocket eng with
  | WsRefused _ => []
  | WsOpen msgs =>
      progress_calls progress_callback (read_prefix progress_callback msgs) ++ [WsClose]
  end.

Definition mem_catalog (nodes : gmap string string) (node_type : string) : bool :=
  bool_decide (is_Some (nodes !! node_type)).

(** An engine whose stream ends after a progress report, without a
    message that ends the job, and whose history holds the image. *)
Definition engine_stream_ends : Engine :=
  {| object_info := fun _ => Some {[ "ModelSamplingFlux" := "{}" ]};
     prompt_resp := fun _ => PromptAccepted "job";
     websocket := WsOpen [MsgProgress 3 20];
     history_resp := fun _ =>
       inr {[ "job" := {| outputs := Some
            [("save_image",
              {| images := Some [ {| filename := Some "flux_gen_00002_.png";
                                     subfolder := Some "";
                                     folder_type := Some "output" |} ] |})] |} ]};
     view_resp := fun _ _ _ => inr [Byte.x89; Byte.x50];
     random_source := fun _ => 5 |}.

(** An engine that accepts the job and refuses the websocket. *)
Definition engine_ws_refused : Engine :=
  {| object_info := fun _ => Some ∅;
     prompt_resp := fun _ => PromptAccepted "job";
     websocket := WsRefused "handshake";
     history_resp := fun _ => inr ∅;
     view_resp := fun _ _ _ => inr [];
     random_source := fun _ => 5 |}.


(** * Prompt enhancement and the model list ([backend/openrouter.py]) *)

(** A Python [str] as the list of its code points: the functions below
    look at single characters. *)
Definition pystr : Type := list N.

(** The [str] of an ASCII literal. *)
Definition py (s : string) : pystr := map N_of_ascii (list_ascii_of_string s).

(** The characters that [str.strip()] removes: those for which
    [str.isspace] holds. *)
Definition is_space (c : N) : bool :=
  ((9 <=? c) && (c <=? 13) || (28 <=? c) && (c <=? 32)
   || (c =? 133) || (c =? 160) || (c =? 5760)
   || (8192 <=? c) && (c <=? 8202)
   || (c =? 8232) || (c =? 8233) || (c =? 8239) || (c =? 8287)
   || (c =? 12288))%N%bool.

(** The characters of the argument of [strip] at line 95: the double and
    the single quote. *)
Definition is_quote (c : N) : bool := ((c =? 34) || (c =? 39))%N%bool.

Fixpoint lstrip (p : N -> bool) (s : pystr) : pystr :=
  match s with
  | [] => []
  | c :: rest => if p c then lstrip p rest else s
  end.

Definition rstrip (p : N -> bool) (s : pystr) : pystr :=
  rev (lstrip p (rev s)).

(** [s.strip(chars)], and [s.strip()] for [p := is_space]. *)
Definition strip (p : N -> bool) (s : pystr) : pystr := rstrip p (lstrip p s).

(** Lines 92-95: [content.strip()] and then [.strip] of the quotes. *)
Definition clean_enhanced (content : pystr) : pystr :=
  strip is_quote (strip is_space content).

(** The request of [enhance_prompt], as far as it depends on the call. *)
Record chat_request : Type := {
  chat_url : pystr;
  chat_authorization : pystr;
  chat_model : pystr;
  chat_system : pystr;
  chat_user : pystr;
  chat_max_tokens : Z
}.

(** The answer: status, body text, and the [content] of the message of
    each entry of ["choices"] ([None] for a null content); [chat_choices]
    is [None] when the body is not JSON of that shape. *)
Record chat_response : Type := {
  chat_status : Z;
  chat_text : pystr;
  chat_choices : option (list (option pystr))
}.

Inductive openrouter_error : Type :=
| OpenRouterApiError (status : Z) (text : pystr)  (* line 89 *)
| RequestFailed                                   (* the request raised *)
| MalformedAnswer                                 (* no ["choices"] list *)
| NoChoices                                       (* ["choices"][0] on [] *)
| NoContent.                                      (* [.strip()] on a null *)

(** One entry of ["data"] in the answer of [/models]; a key that is absent
    is [None]. *)
Record raw_model : Type := {
  raw_id : option pystr;
  raw_name : option pystr;
  raw_description : option pystr;
  raw_context_length : option Z;
  raw_pricing : option (list (pystr * pystr))
}.

(** One entry of the list that [fetch_available_models] returns. *)
Record model_info : Type := {
  model_id : pystr;
  model_name : pystr;
  model_description : pystr;
  model_context_length : Z;
  model_pricing : list (pystr * pystr)
}.

(** The answer of [/models]: [models_body] is [None] when [response.json()]
    raises, and [Some None] when the JSON has no ["data"] key. *)
Record models_response : Type := {
  models_status : Z;
  models_body : option (option (list raw_model))
}.

(** The cache file when it exists: what [json.load] reads from it, or a
    file that cannot be read as JSON. *)
Inductive cache_file : Type :=
| CacheData (models : list model_info)
| CacheUnreadable.

(** The writing of the cache: done, or failed, leaving the file as
    [remains]. *)
Inductive write_outcome : Type :=
| Written
| WriteFailed (remains : option cache_file).

(** [a < b] on [str]: the order of the code points, a proper prefix first. *)
Fixpoint pystr_ltb (a b : pystr) : bool :=
  match a, b with
  | _, [] => false
  | [], _ :: _ => true
  | x :: a', y :: b' =>
      if (x <? y)%N then true
      else if (y <? x)%N then false
      else pystr_ltb a' b'
  end.

Fixpoint starts_with (x s : pystr) : bool :=
  match x, s with
  | [], _ => true
  | _ :: _, [] => false
  | a :: x', b :: s' => (a =? b)%N && starts_with x' s'
  end.

(** [x in s] for two [str]. *)
Fixpoint contains (s x : pystr) : bool :=
  starts_with x s ||
  match s with
  | [] => false
  | _ :: s' => contains s' x
  end.

(** Line 168: the words that exclude a model. *)
Definition excluded_words : list pystr :=
  [py "image"; py "vision"; py "audio"; py "embed"; py "tts"; py "whisper"].

(** [models.sort(key=lambda x: x["name"])]: the stable sort by name.
    [insert_by_name x l] puts [x], which stood before the members of [l],
    in front of the first member whose name is not less than the one of
    [x]. *)
Fixpoint insert_by_name (x : model_info) (l : list model_info) : list model_info :=
  match l with
  | [] => [x]
  | y :: l' =>
      if pystr_ltb (model_name y) (model_name x) then y :: insert_by_name x l'
      else x :: y :: l'
  end.

Fixpoint sort_by_name (l : list model_info) : list model_info :=
  match l with
  | [] => []
  | x :: l' => insert_by_name x (sort_by_name l')
  end.

(** What [json.load] gives for the cache file, when the file exists and
    can be read. *)
Definition read_cache (cache : option cache_file) : option (list model_info) :=
  match cache with
  | Some (CacheData models) => Some models
  | _ => None
  end.

(** Lines 152-158 and 194-200: the cache when it can be read, else []. *)
Definition cache_or_empty (cache : option cache_file) : list model_info :=
  default [] (read_cache cache).

Section OpenRouter.
(** [str.lower], and the text of [SYSTEM_PROMPT]. *)
Context (lower : pystr -> pystr) (SYSTEM_PROMPT : pystr).

Definition enhance_prompt (post : chat_request -> option chat_response)
    (user_prompt api_key model base_url : pystr) : openrouter_error + pystr :=
  let request :=
    {| chat_url := (base_url ++ py "/chat/completions")%list;
       chat_authorization := (py "Bearer " ++ api_key)%list;
       chat_model := model;
       chat_system := SYSTEM_PROMPT;
       chat_user :=
         (py "Transform this into a Flux 2 optimized prompt: " ++ user_prompt)%list;
       chat_max_tokens := 500 |} in
  match post request with
  | None => inl RequestFailed
  | Some response =>
      if negb (chat_status response =? 200) then
        inl (OpenRouterApiError (chat_status response) (chat_text response))
      else
        match chat_choices response with
        | None => inl MalformedAnswer
        | Some [] => inl NoChoices
        | Some (None :: _) => inl NoContent
        | Some (Some content :: _) => inr (clean_enhanced content)
        end
  end.

(** Line 168: some excluded word occurs in the lowered id. *)
Definition is_excluded (id : pystr) : bool :=
  existsb (fun x => contains (lower id) x) excluded_words.

(** Lines 165, 171-177: the entry made of a model that is kept. *)
Definition summarize (m : raw_model) : model_info :=
  let id := default [] (raw_id m) in
  {| model_id := id;
     model_name := default id (raw_name m);
     model_description := default [] (raw_description m);
     model_context_length := default 0 (raw_context_length m);
     model_pricing := default [] (raw_pricing m) |}.

(** Lines 161-180: the list made of the answer. *)
Definition select_models (data : list raw_model) : list model_info :=
  sort_by_name
    (map summarize
         (List.filter (fun m => negb (is_excluded (default [] (raw_id m)))) data)).

(** [fetch_available_models]: the list returned, the cache file afterwards
    and whether the API was asked. *)
Definition fetch_available_models
    (api : pystr -> option models_response) (write : write_outcome)
    (api_key : pystr) (force_refresh : bool) (cache : option cache_file)
    : list model_info * option cache_file * bool :=
  match (if force_refresh then None else read_cache cache) with
  | Some cache_data => (cache_data, cache, false)
  | None =>
      match api api_key with
      | None => (cache_or_empty cache, cache, true)
      | Some response =>
          if negb (models_status response =? 200) then
            (cache_or_empty cache, cache, true)
          else
            match models_body response with
            | None => (cache_or_empty cache, cache, true)
            | Some data =>
                let models := select_models (default [] data) in
                (models,
                 match write with
                 | Written => Some (CacheData models)
                 | WriteFailed remains => remains
                 end,
                 true)
            end
      end
  end.

End OpenRouter.

(** * The HTTP endpoints ([backend/main.py]) *)

(** A JSON value, as [json.load] gives it and [json.dump] takes it; a dict
    is the list of its items in insertion order. *)
#[warnings="-register-all"] Inductive json : Type :=
| JNull
| JBool (b : bool)
| JInt (z : Z)
| JFloat (x : float)
| JStr (s : pystr)
| JList (l : list json)
| JDict (d : list (pystr * json)).

(** [d[k] = v] on the items of a dict: the value of an existing key is
    replaced in place, a new key comes last. *)
Fixpoint dict_set (k : pystr) (v : json) (d : list (pystr * json))
    : list (pystr * json) :=
  match d with
  | [] => [(k, v)]
  | (k', v') :: rest =>
      if bool_decide (k' = k) then (k, v) :: rest
      else (k', v') :: dict_set k v rest
  end.

Fixpoint dict_get (k : pystr) (d : list (pystr * json)) : option json :=
  match d with
  | [] => None
  | (k', v') :: rest => if bool_decide (k' = k) then Some v' else dict_get k rest
  end.

(** What a name of the output directory stands for: a directory, or a file
    with its content, which is either JSON, held as the value that
    [json.load] reads, or bytes that [json.load] cannot read.  The
    directory is taken to tell upper and lower case apart. *)
Inductive file_content : Type :=
| Binary (b : bytes)
| Json (v : json).

Inductive dir_entry : Type :=
| Dir
| File (c : file_content).

(** The outcome of an endpoint: a value, an [HTTPException], or an
    exception that the endpoint does not catch. *)
Inductive http_result (A : Type) : Type :=
| Ok (a : A)
| HttpError (status : Z) (detail : pystr)
| Unhandled.
Arguments Ok {A} _.
Arguments HttpError {A} _ _.
Arguments Unhandled {A}.

Record quality : Type := {
  quality_name : pystr;
  quality_description : pystr;
  quality_steps : Z;
  quality_guidance : float
}.

Definition float_3_0 : float := QArith_base.Qmake 30 10.
Definition float_4_0 : float := QArith_base.Qmake 40 10.
Definition float_mid_guidance : float := QArith_base.Qmake 35 10.

Definition preset_basic : quality :=
  {| quality_name := py "Basic";
     quality_description := py "Fast generation, good for previews";
     quality_steps := 2; quality_guidance := float_3_0 |}.

Definition preset_mid : quality :=
  {| quality_name := py "Standard";
     quality_description := py "Balanced quality and speed";
     quality_steps := 4; quality_guidance := float_mid_guidance |}.

Definition preset_high : quality :=
  {| quality_name := py "High Quality";
     quality_description := py "Best quality, slower generation";
     quality_steps := 8; quality_guidance := float_4_0 |}.

(** [QUALITY_PRESETS.get(name)]. *)
Definition QUALITY_PRESETS (name : pystr) : option quality :=
  if bool_decide (name = py "basic") then Some preset_basic
  else if bool_decide (name = py "mid") then Some preset_mid
  else if bool_decide (name = py "high") then Some preset_high
  else None.

Record GenerateRequest : Type := {
  req_prompt : pystr;
  req_width : Z;
  req_height : Z;
  req_steps : option Z;
  req_guidance : option float;
  req_quality_preset : pystr;
  req_seed : option Z;
  req_enhance_prompt : bool;
  req_enhancement_model : pystr
}.

Record GenerateResponse : Type := {
  resp_success : bool;
  resp_image_url : option pystr;
  resp_image_base64 : option pystr;
  resp_original_prompt : pystr;
  resp_enhanced_prompt : option pystr;
  resp_metadata : list (pystr * json);
  resp_error : option pystr
}.

(** How the writing of a file ends: the file is written, or an exception
    with the text [e] is raised, after which the name stands for what it
    stood for before ([None]: the file could not be opened) or for a file
    with what was written of it ([Some]). *)
Inductive disk_write : Type :=
| Stored
| WriteRaises (e : pystr) (remains : option file_content).

(** What the endpoint [/generate] calls and reads: the prompt enhancer
    ([None] when it raises), the image client (the text of the exception
    when it raises), the clock, [base64.b64encode], how the writing of the
    image and of the metadata file ends, and the text of the exception of
    opening a name that stands for a folder. *)
Record Collaborators : Type := {
  call_enhance : pystr -> pystr -> pystr -> option pystr;
  call_generate : pystr -> Z -> Z -> Z -> float -> option Z
                  -> pystr + (bytes * list (pystr * json));
  clock_timestamp : pystr;
  clock_generation_time : float;
  b64encode : bytes -> pystr;
  write_image : disk_write;
  write_metadata : disk_write;
  is_a_directory : pystr -> pystr
}.

(** [with open(path, mode) as f: ...] on a name of the output directory:
    the text of the exception, if one is raised, and the directory
    afterwards.  A name that stands for a folder cannot be opened. *)
Definition write_file (w : disk_write) (folder_error : pystr) (name : pystr)
    (content : file_content) (fs : gmap pystr dir_entry)
    : option pystr * gmap pystr dir_entry :=
  match fs !! name with
  | Some Dir => (Some folder_error, fs)
  | _ =>
      match w with
      | Stored => (None, <[name := File content]> fs)
      | WriteRaises e None => (Some e, fs)
      | WriteRaises e (Some c) => (Some e, <[name := File c]> fs)
      end
  end.

Definition json_of_option (o : option pystr) : json :=
  match o with
  | Some s => JStr s
  | None => JNull
  end.

(** [sorted(paths, reverse=True)] on names: the stable sort, greatest
    name first. *)
Fixpoint insert_desc (x : pystr) (l : list pystr) : list pystr :=
  match l with
  | [] => [x]
  | y :: l' => if pystr_ltb x y then y :: insert_desc x l' else x :: y :: l'
  end.

Fixpoint sort_desc (l : list pystr) : list pystr :=
  match l with
  | [] => []
  | x :: l' => insert_desc x (sort_desc l')
  end.

(** The name matches the pattern [*.png]. *)
Definition is_png (name : pystr) : bool :=
  starts_with (rev (py ".png")) (rev name).

(** One entry of the list of [/gallery]. *)
Record gallery_image : Type := {
  gallery_filename : pystr;
  gallery_url : pystr;
  gallery_created : float;
  gallery_metadata : json
}.

(** Lines 205-209: the steps and the guidance of a request, those of the
    named preset for the value that the request leaves out, [mid] standing
    in for a name that is no preset. *)
Definition resolve_steps (request : GenerateRequest) : Z :=
  let preset := default preset_mid (QUALITY_PRESETS (req_quality_preset request)) in
  default (quality_steps preset) (req_steps request).

Definition resolve_guidance (request : GenerateRequest) : float :=
  let preset := default preset_mid (QUALITY_PRESETS (req_quality_preset request)) in
  default (quality_guidance preset) (req_guidance request).

(** Lines 212-222: the enhanced prompt, when the request asks for one, a
    key is configured and the enhancer returns. *)
Definition enhance_for (c : Collaborators) (key : pystr) (request : GenerateRequest)
    : option pystr :=
  if (req_enhance_prompt request && negb (bool_decide (key = [])))%bool
  then call_enhance c (req_prompt request) key (req_enhancement_model request)
  else None.

Section Endpoints.
(** [path.with_suffix(".json")] on the name of a path, and the time of the
    last change of a file. *)
Context (json_sibling : pystr -> pystr) (mtime : pystr -> float).

(** The response of lines 273-280, for an exception with the text [e]. *)
Definition failure_response (request : GenerateRequest)
    (enhanced_prompt : option pystr) (e : pystr) : GenerateResponse :=
  {| resp_success := false;
     resp_image_url := None;
     resp_image_base64 := None;
     resp_original_prompt := req_prompt request;
     resp_enhanced_prompt := enhanced_prompt;
     resp_metadata := [];
     resp_error := Some e |}.

(** Lines 201-280.  [key] is [OPENROUTER_API_KEY]; the response and the
    output directory afterwards.  The call of the client and the writing
    of the two files stand in one [try]: an exception of any of them gives
    the response of a failure, with what was written before left in the
    directory. *)
Definition generate_endpoint (c : Collaborators) (key : pystr)
    (request : GenerateRequest) (fs : gmap pystr dir_entry)
    : GenerateResponse * gmap pystr dir_entry :=
  let steps := resolve_steps request in
  let guidance := resolve_guidance request in
  let enhanced_prompt := enhance_for c key request in
  let final_prompt := default (req_prompt request) enhanced_prompt in
  match call_generate c final_prompt (req_width request) (req_height request)
                      steps guidance (req_seed request) with
  | inr (image_bytes, metadata) =>
      let timestamp := clock_timestamp c in
      let filename := (py "flux_" ++ timestamp ++ py ".png")%list in
      match write_file (write_image c) (is_a_directory c filename) filename
                       (Binary image_bytes) fs with
      | (Some e, fs1) => (failure_response request enhanced_prompt e, fs1)
      | (None, fs1) =>
          let metadata_file := (py "flux_" ++ timestamp ++ py ".json")%list in
          let full_metadata :=
            dict_set (py "quality_preset") (JStr (req_quality_preset request))
              (dict_set (py "generation_time") (JFloat (clock_generation_time c))
                 (dict_set (py "timestamp") (JStr timestamp)
                    (dict_set (py "enhanced_prompt") (json_of_option enhanced_prompt)
                       (dict_set (py "original_prompt") (JStr (req_prompt request))
                          metadata)))) in
          match write_file (write_metadata c) (is_a_directory c metadata_file)
                           metadata_file (Json (JDict full_metadata)) fs1 with
          | (Some e, fs2) => (failure_response request enhanced_prompt e, fs2)
          | (None, fs2) =>
              ({| resp_success := true;
                  resp_image_url := Some (py "/outputs/" ++ filename)%list;
                  resp_image_base64 := Some (b64encode c image_bytes);
                  resp_original_prompt := req_prompt request;
                  resp_enhanced_prompt := enhanced_prompt;
                  resp_metadata := full_metadata;
                  resp_error := None |},
               fs2)
          end
      end
  | inl e => (failure_response request enhanced_prompt e, fs)
  end.

(** Lines 283-289: the file that is served. *)
Definition get_output (filename : pystr) (fs : gmap pystr dir_entry)
    : http_result file_content :=
  match fs !! filename with
  | None => HttpError 404 (py "Image not found")
  | Some (File c) => Ok c
  | Some Dir => Unhandled
  end.

(** Lines 297-308: the entry of one image, [None] when the metadata file
    is there and cannot be read. *)
Definition gallery_entry (fs : gmap pystr dir_entry) (name : pystr)
    : option gallery_image :=
  let entry metadata :=
    {| gallery_filename := name;
       gallery_url := (py "/outputs/" ++ name)%list;
       gallery_created := mtime name;
       gallery_metadata := metadata |} in
  match fs !! json_sibling name with
  | None => Some (entry (JDict []))
  | Some (File (Json v)) => Some (entry v)
  | Some _ => None
  end.

Fixpoint gallery_entries (fs : gmap pystr dir_entry) (names : list pystr)
    : option (list gallery_image) :=
  match names with
  | [] => Some []
  | name :: rest =>
      match gallery_entry fs name with
      | None => None
      | Some image =>
          match gallery_entries fs rest with
          | None => None
          | Some images => Some (image :: images)
          end
      end
  end.

(** The names that [OUTPUT_DIR.glob("*.png")] yields, sorted as at line
    296. *)
Definition gallery_names (fs : gmap pystr dir_entry) : list pystr :=
  sort_desc (List.filter is_png (map fst (map_to_list fs))).

(** Lines 292-310. *)
Definition get_gallery (fs : gmap pystr dir_entry)
    : http_result (list gallery_image) :=
  match gallery_entries fs (gallery_names fs) with
  | None => Unhandled
  | Some images => Ok (take 50 images)
  end.

(** Lines 313-324: the outcome and the output directory afterwards. *)
Definition delete_image (filename : pystr) (fs : gmap pystr dir_entry)
    : http_result unit * gmap pystr dir_entry :=
  match fs !! filename with
  | None => (HttpError 404 (py "Image not found"), fs)
  | Some Dir => (Unhandled, fs)
  | Some (File _) =>
      let fs1 := delete filename fs in
      let metadata_file := json_sibling filename in
      match fs1 !! metadata_file with
      | None => (Ok tt, fs1)
      | Some Dir => (Unhandled, fs1)
      | Some (File _) => (Ok tt, delete metadata_file fs1)
      end
  end.

End Endpoints.

(** [a > b] on names. *)
Definition name_gt (a b : pystr) : Prop := pystr_ltb b a = true.

(** The keys that [/generate] adds to the metadata of the client. *)
Definition added_keys : list pystr :=
  [py "original_prompt"; py "enhanced_prompt"; py "timestamp";
   py "generation_time"; py "quality_preset"].

(** The name of the image file for a timestamp, and of its metadata file. *)
Definition image_name (timestamp : pystr) : pystr :=
  (py "flux_" ++ timestamp ++ py ".png")%list.

Definition metadata_name (timestamp : pystr) : pystr :=
  (py "flux_" ++ timestamp ++ py ".json")%list.

(** The request with the enhancement of the prompt switched off. *)
Definition without_enhancement (request : GenerateRequest) : GenerateRequest :=
  {| req_prompt := req_prompt request;
     req_width := req_width request;
     req_height := req_height request;
     req_steps := req_steps request;
     req_guidance := req_guidance request;
     req_quality_preset := req_quality_preset request;
     req_seed := req_seed request;
     req_enhance_prompt := false;
     req_enhancement_model := req_enhancement_model request |}.

(** The metadata file cannot be read by [json.load]. *)
Definition unreadable_metadata (fs : gmap pystr dir_entry) (name : pystr) : Prop :=
  fs !! name = Some Dir \/ exists b, fs !! name = Some (File (Binary b)).

(** [with_suffix(".json")] for a name whose last four characters are a
    suffix such as [.png]: a stand-in for the examples. *)
Definition replace_suffix (name : pystr) : pystr :=
  (rev (skipn 4 (rev name)) ++ py ".json")%list.

(** An output directory with two images, the later one with metadata. *)
Definition outputs_two : gmap pystr dir_entry :=
  <[py "flux_20240102_000000.png" := File (Binary [Byte.x89])]>
    (<[py "flux_20240102_000000.json" :=
         File (Json (JDict [(py "seed", JInt 7)]))]>
       (<[py "flux_20240101_000000.png" := File (Binary [Byte.x50])]>
          (<[py "notes.txt" := File (Binary [])]> ∅))).


(** Collaborators for the examples: an enhancer that raises, a client that
    returns two bytes and a small metadata dict, a fixed clock, a disk that
    takes both files. *)
Definition collaborators_plain : Collaborators :=
  {| call_enhance := fun _ _ _ => None;
     call_generate := fun prompt _ _ steps _ _ =>
       inr ([Byte.x89; Byte.x50],
            [(py "prompt", JStr prompt); (py "steps", JInt steps)]);
     clock_timestamp := py "20240102_000000";
     clock_generation_time := float_1_0;
     b64encode := fun _ => py "iVA=";
     write_image := Stored;
     write_metadata := Stored;
     is_a_directory := fun _ => py "Is a directory" |}.

(** The same collaborators, with a client that is busy unless it is asked
    for four steps. *)
Definition collaborators_busy : Collaborators :=
  {| call_enhance := call_enhance collaborators_plain;
     call_generate := fun prompt width height steps guidance seed =>
       if bool_decide (steps = 4)
       then call_generate collaborators_plain prompt width height steps guidance seed
       else inl (py "busy");
     clock_timestamp := clock_timestamp collaborators_plain;
     clock_generation_time := clock_generation_time collaborators_plain;
     b64encode := b64encode collaborators_plain;
     write_image := write_image collaborators_plain;
     write_metadata := write_metadata collaborators_plain;
     is_a_directory := is_a_directory collaborators_plain |}.

(** The same collaborators, with a disk that is full once the image is
    written: of the metadata file only the first bytes are. *)
Definition collaborators_disk_full : Collaborators :=
  {| call_enhance := call_enhance collaborators_plain;
     call_generate := call_generate collaborators_plain;
     clock_timestamp := clock_timestamp collaborators_plain;
     clock_generation_time := clock_generation_time collaborators_plain;
     b64encode := b64encode collaborators_plain;
     write_image := Stored;
     write_metadata :=
       WriteRaises (py "No space left on device") (Some (Binary [Byte.x7b]));
     is_a_directory := is_a_directory collaborators_plain |}.

Definition request_cat : GenerateRequest :=
  {| req_prompt := py "a cat";
     req_width := 1024; req_height := 1024;
     req_steps := None; req_guidance := None;
     req_quality_preset := py "ultra";
     req_seed := Some 7;
     req_enhance_prompt := true;
     req_enhancement_model := py "some/model" |}.

(** * The mflux client ([backend/mflux_client.py]) *)

(** The arguments of one call of [MFluxClient.generate_image]. *)
Record flux_call : Type := {
  fc_prompt : pystr;
  fc_width : Z;
  fc_height : Z;
  fc_steps : Z;
  fc_guidance : float;
  fc_seed : option Z
}.

Section MFlux.
(** The model object of the library and the image that it generates. *)
Context {Model Image : Type}.

(** What the library and the random source answer: the construction of
    [Flux1] for a model name and a quantization, by the number of earlier
    constructions, and the generation of an image for a seed, a prompt and
    the steps, height, width and guidance of the [Config]; the text of the
    exception when they raise.  [flux_png] is the PNG encoding. *)
Record FluxLibrary : Type := {
  flux_construct : pystr -> option Z -> nat -> pystr + Model;
  flux_generate : Model -> Z -> pystr -> Z -> Z -> Z -> float -> pystr + Image;
  flux_png : Image -> bytes;
  flux_random : nat -> Z
}.

(** The client: its two settings, [self._model], and the numbers of
    constructions and of draws made so far. *)
Record MFluxClient : Type := {
  mf_model_name : pystr;
  mf_quantize : option Z;
  mf_model : option Model;
  mf_loads : nat;
  mf_draws : nat
}.

(** [MFluxClient(model, quantize)]. *)
Definition new_mflux_client (model : pystr) (quantize : option Z) : MFluxClient :=
  {| mf_model_name := model; mf_quantize := quantize; mf_model := None;
     mf_loads := 0; mf_draws := 0 |}.

(** [_load_model], lines 35-42. *)
Definition load_model (lib : FluxLibrary) (cl : MFluxClient)
    : (pystr + Model) * MFluxClient :=
  match mf_model cl with
  | Some model => (inr model, cl)
  | None =>
      match flux_construct lib (mf_model_name cl) (mf_quantize cl) (mf_loads cl) with
      | inr model =>
          (inr model,
           {| mf_model_name := mf_model_name cl; mf_quantize := mf_quantize cl;
              mf_model := Some model; mf_loads := S (mf_loads cl);
              mf_draws := mf_draws cl |})
      | inl e =>
          (inl e,
           {| mf_model_name := mf_model_name cl; mf_quantize := mf_quantize cl;
              mf_model := None; mf_loads := S (mf_loads cl);
              mf_draws := mf_draws cl |})
      end
  end.

(** The metadata dict of lines 77-86. *)
Definition flux_metadata (cl : MFluxClient) (prompt : pystr)
    (width height steps : Z) (guidance : float) (seed : Z) : list (pystr * json) :=
  [ (py "prompt", JStr prompt);
    (py "width", JInt width);
    (py "height", JInt height);
    (py "steps", JInt steps);
    (py "guidance", JFloat guidance);
    (py "seed", JInt seed);
    (py "model", JStr (py "flux-1-" ++ mf_model_name cl)%list);
    (py "quantize", match mf_quantize cl with Some q => JInt q | None => JNull end) ].

(** [_generate_sync], lines 44-88. *)
Definition generate_sync (lib : FluxLibrary) (cl : MFluxClient) (prompt : pystr)
    (width height steps : Z) (guidance : float) (seed : Z)
    : (pystr + bytes * list (pystr * json)) * MFluxClient :=
  match load_model lib cl with
  | (inl e, cl') => (inl e, cl')
  | (inr model, cl') =>
      match flux_generate lib model seed prompt steps height width guidance with
      | inl e => (inl e, cl')
      | inr image =>
          (inr (flux_png lib image,
                flux_metadata cl' prompt width height steps guidance seed), cl')
      end
  end.

(** [generate_image], lines 90-126. *)
Definition mflux_generate_image (lib : FluxLibrary) (cl : MFluxClient)
    (call : flux_call) : (pystr + bytes * list (pystr * json)) * MFluxClient :=
  let '(seed, cl1) :=
    match fc_seed call with
    | Some seed => (seed, cl)
    | None =>
        (flux_random lib (mf_draws cl) mod 2 ^ 31,
         {| mf_model_name := mf_model_name cl; mf_quantize := mf_quantize cl;
            mf_model := mf_model cl; mf_loads := mf_loads cl;
            mf_draws := S (mf_draws cl) |})
    end in
  generate_sync lib cl1 (fc_prompt call) (fc_width call) (fc_height call)
                (fc_steps call) (fc_guidance call) seed.

(** Calls in a row: their results and the client afterwards. *)
Fixpoint mflux_calls (lib : FluxLibrary) (cl : MFluxClient) (calls : list flux_call)
    : list (pystr + bytes * list (pystr * json)) * MFluxClient :=
  match calls with
  | [] => ([], cl)
  | call :: rest =>
      let '(result, cl1) := mflux_generate_image lib cl call in
      let '(results, cl2) := mflux_calls lib cl1 rest in
      (result :: results, cl2)
  end.

(** The number of constructions, among the first [k], that return a model. *)
Fixpoint constructed (lib : FluxLibrary) (model : pystr) (quantize : option Z)
    (k : nat) : nat :=
  match k with
  | O => O
  | S k' =>
      (constructed lib model quantize k' +
       match flux_construct lib model quantize k' with
       | inr _ => 1
       | inl _ => 0
       end)%nat
  end.

(** The result [res] of the call [call] is an image that the model [m]
    generated, with the metadata of the call. *)
Definition generated_by (lib : FluxLibrary) (model_name : pystr)
    (quantize : option Z) (m : Model) (call : flux_call)
    (res : pystr + bytes * list (pystr * json)) : Prop :=
  forall b md, res = inr (b, md) ->
    exists seed image,
      flux_generate lib m seed (fc_prompt call) (fc_steps call) (fc_height call)
                    (fc_width call) (fc_guidance call) = inr image /\
      b = flux_png lib image /\
      md = flux_metadata
             {| mf_model_name := model_name; mf_quantize := quantize;
                mf_model := Some m; mf_loads := 0; mf_draws := 0 |}
             (fc_prompt call) (fc_width call) (fc_height call) (fc_steps call)
             (fc_guidance call) seed /\
      match fc_seed call with
      | Some x => seed = x
      | None => 0 <= seed < 2 ^ 31
      end.

End MFlux.

(** A library for the examples: the second construction returns the model
    [7]; an image is the pair of its seed and steps. *)
Definition flux_library_late : @FluxLibrary Z (Z * Z) :=
  {| flux_construct := fun _ _ n =>
       match n with O => inl (py "out of memory") | S _ => inr 7 end;
     flux_generate := fun _ seed _ steps _ _ _ => inr (seed, steps);
     flux_png := fun _ => [Byte.x89];
     flux_random := fun _ => 11 |}.

Definition call_cat : flux_call :=
  {| fc_prompt := py "a cat"; fc_width := 1024; fc_height := 1024;
     fc_steps := 4; fc_guidance := float_mid_guidance; fc_seed := None |}.

(** The characters that the cleaning of an enhanced prompt may remove. *)
Definition is_space_or_quote (c : N) : bool := (is_space c || is_quote c)%bool.

(** [a <= b] for the names of two entries: the order of the sorted list. *)
Definition name_le (a b : model_info) : Prop :=
  pystr_ltb (model_name b) (model_name a) = false.

(** [str.lower] on the ASCII letters, other characters left as they are:
    a stand-in for the examples. *)
Definition ascii_lower (s : pystr) : pystr :=
  map (fun c => if ((65 <=? c) && (c <=? 90))%N%bool then (c + 32)%N else c) s.

(** An answer of the chat API whose content is wrapped in quotes. *)
Definition chat_quoted (_ : chat_request) : option chat_response :=
  Some {| chat_status := 200;
          chat_text := [];
          chat_choices := Some [Some (32 :: 34 :: py "A cat" ++ [34; 10])%N] |}.

(** An answer of [/models] with four entries, unsorted, one of them an
    image model and one without a name. *)
Definition models_answer (_ : pystr) : option models_response :=
  Some {| models_status := 200;
          models_body := Some (Some
            [ {| raw_id := Some (py "z/zeta"); raw_name := Some (py "Zeta");
                 raw_description := None; raw_context_length := None;
                 raw_pricing := None |};
              {| raw_id := Some (py "x/Image-Gen"); raw_name := Some (py "Alpha");
                 raw_description := None; raw_context_length := None;
                 raw_pricing := None |};
              {| raw_id := Some (py "m/mu"); raw_name := None;
                 raw_description := Some (py "mid"); raw_context_length := Some 8192;
                 raw_pricing := None |};
              {| raw_id := Some (py "b/beta"); raw_name := Some (py "Beta");
                 raw_description := None; raw_context_length := None;
                 raw_pricing := None |} ]) |}.

(** A list as [fetch_available_models] makes it: in the order of the
    names, and without a model whose lowered id holds an excluded word. *)
Definition well_formed_models (lower : pystr -> pystr) (models : list model_info)
    : Prop :=
  Sorted name_le models /\
  forall m, m ∈ models -> is_excluded lower (model_id m) = false.

(** The cache file holds such a list, when it can be read. *)
Definition well_formed_cache (lower : pystr -> pystr) (cache : option cache_file)
    : Prop :=
  match read_cache cache with
  | Some models => well_formed_models lower models
  | None => True
  end.

(** A cache file for the examples: two models in the order of their
    names. *)
Definition cached_models : list model_info :=
  [ {| model_id := py "a/alpha"; model_name := py "Alpha"; model_description := [];
       model_context_length := 4096; model_pricing := [] |};
    {| model_id := py "g/gamma"; model_name := py "Gamma"; model_description := [];
       model_context_length := 0; model_pricing := [] |} ].

(** ** Properties of the builders *)

Lemma seed_or_random_some eng (seed : Z) s :
  seed_or_random eng (Some seed) s = Outcome (inr seed) s [].
Proof. reflexivity. Qed.

Lemma seed_or_random_none eng s :
  seed_or_random eng None s =
  Outcome (inr (random_source eng (draws s) mod 2 ^ 31)) (tick_draws s) [RandInt].
Proof. reflexivity. Qed.

Lemma create_workflow_some eng v prompt width height steps guidance (seed : Z) s :
  create_workflow eng v prompt width height steps guidance (Some seed) s =
  Outcome (inr (graph_of v prompt width height steps guidance seed)) s [].
Proof. destruct v; reflexivity. Qed.

Lemma create_workflow_none eng v prompt width height steps guidance s :
  create_workflow eng v prompt width height steps guidance None s =
  Outcome (inr (graph_of v prompt width height steps guidance
                         (random_source eng (draws s) mod 2 ^ 31)))
          (tick_draws s) [RandInt].
Proof. destruct v; reflexivity. Qed.

Lemma references_resolve_sound (g : workflow) :
  references_resolve g = true ->
  forall name spec slot source idx,
    (name, spec) ∈ g -> (slot, VRef source idx) ∈ inputs spec ->
    source ∈ node_names g.
Proof.
  unfold references_resolve. rewrite forallb_forall.
  intros Hall name spec slot source idx Hnode Hin.
  apply list_elem_of_In in Hnode. specialize (Hall _ Hnode). simpl in Hall.
  rewrite forallb_forall in Hall.
  assert (Hsrc : In source (refs_of spec)).
  { unfold refs_of. apply in_flat_map. exists (slot, VRef source idx).
    split; [by apply list_elem_of_In | simpl; auto]. }
  specialize (Hall _ Hsrc). unfold mem_string in Hall.
  apply existsb_exists in Hall as (x & Hx & Heq).
  apply String.eqb_eq in Heq. subst x. by apply list_elem_of_In.
Qed.

Lemma graph_of_shape v prompt width height steps guidance seed :
  let g := graph_of v prompt width height steps guidance seed in
  terminal_nodes g = ["save_image"] /\
  save_image_nodes g = ["save_image"] /\
  sink_nodes g = ["save_image"] /\
  references_resolve g = true /\
  seeds_of g = [VInt seed].
Proof. destruct v; repeat split; reflexivity. Qed.

Lemma graph_of_names v prompt width height steps guidance seed :
  NoDup (node_names (graph_of v prompt width height steps guidance seed)).
Proof.
  destruct v; apply (bool_decide_unpack _); vm_compute; exact I.
Qed.

(** C6: whatever the parameters, the seed (given or drawn) and the state of
    the client, each of the three builders returns a graph; its keys are
    distinct, exactly one node is a terminal artifact node, namely
    [save_image], the only [SaveImage] node and the only node whose output
    no node consumes, and every reference input names a key of the graph. *)
Theorem builders_well_formed eng v prompt width height steps guidance seed s :
  exists g,
    out_value (create_workflow eng v prompt width height steps guidance seed s) = inr g /\
    NoDup (node_names g) /\
    terminal_nodes g = ["save_image"] /\
    save_image_nodes g = ["save_image"] /\
    sink_nodes g = ["save_image"] /\
    (forall name spec slot source idx,
        (name, spec) ∈ g -> (slot, VRef source idx) ∈ inputs spec ->
        source ∈ node_names g).
Proof.
  assert (Hshape : forall sd,
             let g := graph_of v prompt width height steps guidance sd in
             NoDup (node_names g) /\
             terminal_nodes g = ["save_image"] /\
             save_image_nodes g = ["save_image"] /\
             sink_nodes g = ["save_image"] /\
             (forall name spec slot source idx,
                 (name, spec) ∈ g -> (slot, VRef source idx) ∈ inputs spec ->
                 source ∈ node_names g)).
  { intros sd g.
    destruct (graph_of_shape v prompt width height steps guidance sd)
      as (Ht & Hs & Hk & Hr & _).
    split; [apply graph_of_names|].
    split; [exact Ht|]. split; [exact Hs|]. split; [exact Hk|].
    by apply references_resolve_sound. }
  destruct seed as [seed|].
  - rewrite create_workflow_some. eexists. split; [reflexivity|]. apply Hshape.
  - rewrite create_workflow_none. eexists. split; [reflexivity|]. apply Hshape.
Qed.

(** C9: with an explicit seed and the same parameters, two invocations of
    the same builder, in any two client states and against any two engines,
    return the same graph, and neither draws a random number. *)
Theorem builders_deterministic eng1 eng2 v prompt width height steps guidance
    (seed : Z) s1 s2 :
  let r1 := create_workflow eng1 v prompt width height steps guidance (Some seed) s1 in
  let r2 := create_workflow eng2 v prompt width height steps guidance (Some seed) s2 in
  out_value r1 = out_value r2 /\
  (exists g, out_value r1 = inr g) /\
  out_trace r1 = [] /\ out_trace r2 = [] /\
  out_state r1 = s1 /\ out_state r2 = s2.
Proof.
  simpl. rewrite !create_workflow_some. simpl. eauto 10.
Qed.

(** ** Running the monad *)

Lemma bind_run {A B : Type} (m : M A) (f : A -> M B) (s : State) :
  (m ≫= f) s =
  match out_value (m s) with
  | inl e => Outcome (inl e) (out_state (m s)) (out_trace (m s))
  | inr a =>
      let r' := f a (out_state (m s)) in
      Outcome (out_value r') (out_state r') (out_trace (m s) ++ out_trace r')
  end.
Proof. reflexivity. Qed.

Lemma try_except_run {A : Type} (body : M A) (handler : error -> M A) (s : State) :
  try_except body handler s =
  match out_value (body s) with
  | inl e =>
      let r' := handler e (out_state (body s)) in
      Outcome (out_value r') (out_state r') (out_trace (body s) ++ out_trace r')
  | inr a => body s
  end.
Proof. reflexivity. Qed.

Lemma posted_app (t1 t2 : list action) :
  posted (t1 ++ t2) = (posted t1 ++ posted t2)%list.
Proof. unfold posted. apply flat_map_app. Qed.

Lemma count_draws_app (t1 t2 : list action) :
  count_draws (t1 ++ t2) = (count_draws t1 + count_draws t2)%nat.
Proof. unfold count_draws. by rewrite List.filter_app, length_app. Qed.

(** ** The capability probe *)

Lemma is_Some_empty_false (t : string) :
  bool_decide (is_Some ((∅ : gmap string string) !! t)) = false.
Proof.
  apply bool_decide_eq_false. rewrite lookup_empty. apply is_Some_None.
Qed.

Lemma get_available_nodes_run eng s :
  get_available_nodes eng s =
  match available_nodes s with
  | Some nodes => Outcome (inr nodes) s []
  | None =>
      match object_info eng (fetches s) with
      | Some nodes =>
          Outcome (inr nodes)
                  {| available_nodes := Some nodes; fetches := S (fetches s);
                     posts := posts s; draws := draws s |} [GetObjectInfo]
      | None => Outcome (inr ∅) (tick_fetches s) [GetObjectInfo]
      end
  end.
Proof.
  unfold get_available_nodes, mbind, M_bind, read_available_nodes; simpl.
  destruct (available_nodes s) as [nodes|] eqn:Hc; simpl.
  - destruct s; reflexivity.
  - unfold try_except, fetch_object_info; simpl.
    destruct (object_info eng (fetches s)); reflexivity.
Qed.

Lemma has_node_run eng t s :
  has_node eng t s =
  match available_nodes s with
  | Some nodes => Outcome (inr (bool_decide (is_Some (nodes !! t)))) s []
  | None =>
      match object_info eng (fetches s) with
      | Some nodes =>
          Outcome (inr (bool_decide (is_Some (nodes !! t))))
                  {| available_nodes := Some nodes; fetches := S (fetches s);
                     posts := posts s; draws := draws s |} [GetObjectInfo]
      | None => Outcome (inr false) (tick_fetches s) [GetObjectInfo]
      end
  end.
Proof.
  unfold has_node, mbind, M_bind. rewrite get_available_nodes_run.
  destruct (available_nodes s); simpl.
  - destruct s; reflexivity.
  - destruct (object_info eng (fetches s)); simpl; [reflexivity|].
    by rewrite is_Some_empty_false.
Qed.

Lemma repeat_get_available_nodes_S eng k s :
  repeat_get_available_nodes eng (S k) s =
  let r1 := get_available_nodes eng s in
  match out_value r1 with
  | inl e => Outcome (inl e) (out_state r1) (out_trace r1)
  | inr nodes =>
      let r2 := repeat_get_available_nodes eng k (out_state r1) in
      match out_value r2 with
      | inl e => Outcome (inl e) (out_state r2) (out_trace r1 ++ out_trace r2)
      | inr more => Outcome (inr (nodes :: more)) (out_state r2)
                            (out_trace r1 ++ out_trace r2)
      end
  end.
Proof.
  change (repeat_get_available_nodes eng (S k))
    with (nodes ← get_available_nodes eng;
          more ← repeat_get_available_nodes eng k;
          mret (nodes :: more)).
  rewrite bind_run. cbv zeta.
  destruct (out_value (get_available_nodes eng s)) as [e|nodes]; [reflexivity|].
  rewrite bind_run. cbv zeta.
  destruct (out_value (repeat_get_available_nodes eng k _)) as [e|more];
    [reflexivity|].
  cbn [out_value out_state out_trace mret M_ret]. by rewrite app_nil_r.
Qed.

Lemma repeat_cached eng n s nodes :
  available_nodes s = Some nodes ->
  repeat_get_available_nodes eng n s = Outcome (inr (replicate n nodes)) s [].
Proof.
  intros Hc. induction n as [|n IH]; [reflexivity|].
  rewrite repeat_get_available_nodes_S, get_available_nodes_run, Hc.
  simpl. rewrite IH. reflexivity.
Qed.

Lemma repeat_uncached eng n : forall s,
  available_nodes s = None ->
  successful_fetches eng (fetches s) = 0%nat ->
  let r := repeat_get_available_nodes eng n s in
  exists catalogs,
    out_value r = inr catalogs /\ length catalogs = n /\
    fetches (out_state r) = (fetches s + count_fetches (out_trace r))%nat /\
    (successful_fetches eng (fetches (out_state r)) <= 1)%nat /\
    Forall (fun c => c = ∅ \/ available_nodes (out_state r) = Some c) catalogs /\
    (available_nodes (out_state r) = None ->
       catalogs = replicate n ∅ /\ count_fetches (out_trace r) = n).
Proof.
  induction n as [|n IH]; intros s Hc H0.
  - exists []. simpl. rewrite H0.
    repeat split; auto with lia.
  - cbv zeta. rewrite repeat_get_available_nodes_S, get_available_nodes_run, Hc.
    destruct (object_info eng (fetches s)) as [nodes|] eqn:Hf; cbn [out_value out_state out_trace].
    + rewrite (repeat_cached eng n _ nodes) by reflexivity.
      cbn [out_value out_state out_trace available_nodes fetches].
      exists (nodes :: replicate n nodes).
      split; [reflexivity|]. split; [simpl; by rewrite length_replicate|].
      split; [unfold count_fetches; simpl; lia|].
      split; [simpl; rewrite Hf, H0; lia|].
      split; [|discriminate].
      apply Forall_cons. split; [by right|].
      apply Forall_replicate. by right.
    + destruct (IH (tick_fetches s)) as (more & Hv & Hlen & Hfe & Hsu & Hall & Hnone).
      { exact Hc. }
      { simpl. rewrite Hf, H0. reflexivity. }
      rewrite Hv. cbn [out_value out_state out_trace].
      exists (∅ :: more).
      split; [reflexivity|]. split; [simpl; by rewrite Hlen|].
      split; [rewrite Hfe; unfold count_fetches; simpl; lia|].
      split; [exact Hsu|].
      split; [apply Forall_cons; split; [by left|exact Hall]|].
      intros Hn. destruct (Hnone Hn) as [-> Hcnt].
      split; [reflexivity|]. unfold count_fetches in *. simpl. by rewrite Hcnt.
Qed.

(** C8, as amended: a call that finds the cache filled returns it and asks
    the engine nothing; a call whose request is answered returns the answer
    and caches it; a call whose request fails returns the empty catalog, on
    which every membership test answers false, raises nothing and leaves
    the cache unset.  Over any number of calls of a new client every call
    returns, at most one request is answered, every catalog returned is
    empty or the cached one, and while the requests fail every call makes
    one. *)
Theorem catalog_cache eng :
  (forall s nodes,
      available_nodes s = Some nodes ->
      get_available_nodes eng s = Outcome (inr nodes) s []) /\
  (forall s nodes,
      available_nodes s = None -> object_info eng (fetches s) = Some nodes ->
      let r := get_available_nodes eng s in
      out_value r = inr nodes /\ available_nodes (out_state r) = Some nodes /\
      out_trace r = [GetObjectInfo]) /\
  (forall s,
      available_nodes s = None -> object_info eng (fetches s) = None ->
      let r := get_available_nodes eng s in
      out_value r = inr ∅ /\ available_nodes (out_state r) = None /\
      out_trace r = [GetObjectInfo] /\
      forall t, out_value (has_node eng t s) = inr false) /\
  (forall n,
      let r := repeat_get_available_nodes eng n fresh in
      exists catalogs,
        out_value r = inr catalogs /\ length catalogs = n /\
        fetches (out_state r) = count_fetches (out_trace r) /\
        (successful_fetches eng (fetches (out_state r)) <= 1)%nat /\
        Forall (fun c => c = ∅ \/ available_nodes (out_state r) = Some c) catalogs /\
        (available_nodes (out_state r) = None ->
           catalogs = replicate n ∅ /\ count_fetches (out_trace r) = n)).
Proof.
  split; [|split; [|split]].
  - intros s nodes Hc. by rewrite get_available_nodes_run, Hc.
  - intros s nodes Hc Hf. cbv zeta. by rewrite get_available_nodes_run, Hc, Hf.
  - intros s Hc Hf. cbv zeta. rewrite get_available_nodes_run, Hc, Hf.
    repeat split; auto. intros t. by rewrite has_node_run, Hc, Hf.
  - intros n. apply (repeat_uncached eng n fresh); reflexivity.
Qed.

Lemma catalog_cache_witness :
  out_value (get_available_nodes engine_down fresh) = inr ∅ /\
  available_nodes (out_state (get_available_nodes engine_down fresh)) = None /\
  exists catalogs,
    out_value (repeat_get_available_nodes engine_late 3 fresh) = inr catalogs /\
    (successful_fetches engine_late
       (fetches (out_state (repeat_get_available_nodes engine_late 3 fresh))) <= 1)%nat.
Proof.
  destruct (catalog_cache engine_down) as (_ & _ & Hfail & _).
  destruct (Hfail fresh eq_refl eq_refl) as (Hv & Hc & _).
  destruct (catalog_cache engine_late) as (_ & _ & _ & Hcalls).
  destruct (Hcalls 3%nat) as (catalogs & Hvs & _ & _ & Hone & _).
  split; [exact Hv|]. split; [exact Hc|].
  exists catalogs. split; [exact Hvs | exact Hone].
Defined.

(** C8, as stated, fails: in front of an engine that does not answer, two
    calls of a new client make two requests; and when the first request
    fails and the second is answered, the second call returns a catalog
    that the first did not. *)
Lemma catalog_fetched_again :
  ~ (count_fetches (out_trace (repeat_get_available_nodes engine_down 2 fresh)) <= 1)%nat /\
  out_value (repeat_get_available_nodes engine_late 2 fresh) =
    inr [∅; {[ "ModelSamplingFlux" := "{}" ]}] /\
  count_fetches (out_trace (repeat_get_available_nodes engine_late 2 fresh)) = 2%nat.
Proof.
  split; [|split].
  - vm_compute. lia.
  - reflexivity.
  - reflexivity.
Qed.

(** ** The submission cascade *)

Lemma queue_prompt_run eng w s :
  queue_prompt eng w s =
  Outcome (prompt_result (prompt_resp eng (posts s))) (tick_posts s) [PostPrompt w].
Proof. unfold queue_prompt. destruct (prompt_resp eng (posts s)); reflexivity. Qed.

Lemma build_selected_run eng hg hf prompt width height steps guidance seed s :
  build_selected eng hg hf prompt width height steps guidance seed s =
  Outcome (inr (graph_of (select_variant hg hf) prompt width height steps guidance seed,
                select_variant hg hf)) s [].
Proof. destruct hg, hf; reflexivity. Qed.

Lemma create_standard_some eng prompt width height steps guidance (seed : Z) s :
  create_flux2_workflow eng prompt width height steps guidance (Some seed) s =
  Outcome (inr (graph_of standard prompt width height steps guidance seed)) s [].
Proof. reflexivity. Qed.

Lemma create_simple_some eng prompt width height steps guidance (seed : Z) s :
  create_flux2_workflow_simple eng prompt width height steps guidance (Some seed) s =
  Outcome (inr (graph_of simple prompt width height steps guidance seed)) s [].
Proof. reflexivity. Qed.

Ltac run_step :=
  first [ rewrite bind_run | rewrite try_except_run | rewrite queue_prompt_run
        | rewrite create_standard_some | rewrite create_simple_some ];
  cbv zeta.

Ltac eval_bool_decide :=
  match goal with
  | |- context [bool_decide ?P] =>
      let b := eval vm_compute in (bool_decide P) in
      change (bool_decide P) with b
  end.

Ltac case_response eng :=
  match goal with
  | H : prompt_resp eng ?n = _ |- context [prompt_resp eng ?n] => rewrite H
  | |- context [prompt_resp eng ?n] => destruct (prompt_resp eng n) eqn:?
  end.

Ltac run_cascade eng :=
  repeat (first [run_step | eval_bool_decide | case_response eng];
          cbn [out_value out_state out_trace tick_posts posts prompt_result
               prompt_failure andb raise take length map Nat.pred Nat.add app]).

Lemma cascade_run eng hg hf prompt width height steps guidance seed s :
  let v := select_variant hg hf in
  let vs := attempts eng (posts s) hg hf in
  let r := submit_with_fallback eng
             (graph_of v prompt width height steps guidance seed) v hf
             prompt width height steps guidance seed s in
  out_trace r =
    map (fun v => PostPrompt (graph_of v prompt width height steps guidance seed)) vs /\
  out_state r =
    {| available_nodes := available_nodes s; fetches := fetches s;
       posts := (length vs + posts s)%nat; draws := draws s |} /\
  out_value r = prompt_result (prompt_resp eng (Nat.pred (length vs) + posts s)%nat).
Proof.
  cbv zeta. unfold attempts, plan, submit_with_fallback.
  destruct hg, hf;
    cbn [select_variant permitted cascade List.filter length failures_from];
    run_cascade eng.
  all: repeat split; reflexivity.
Qed.

(** The prefix of the cascade that is attempted. *)
Lemma attempts_facts eng n hg hf :
  let vs := attempts eng n hg hf in
  vs `prefix_of` plan hg hf /\
  vs `sublist_of` cascade /\
  (1 <= length vs <= 3)%nat /\
  (forall v, v ∈ vs -> permitted hg hf v = true) /\
  head vs = Some (select_variant hg hf) /\
  length vs = Nat.min (S (length (failures_from eng n (length (plan hg hf)))))
                      (length (plan hg hf)).
Proof.
  cbv zeta. unfold attempts.
  set (k := S (length (failures_from eng n (length (plan hg hf))))).
  assert (Hpre : take k (plan hg hf) `prefix_of` plan hg hf) by apply prefix_take.
  assert (Hsub : plan hg hf `sublist_of` cascade).
  { unfold plan. destruct hg, hf; simpl; unfold cascade;
      repeat first [apply sublist_skip | apply sublist_cons | apply sublist_nil]. }
  split; [exact Hpre|].
  split; [etrans; [apply sublist_take | exact Hsub]|].
  split.
  { rewrite length_take. split.
    - unfold k. destruct hg, hf; simpl; lia.
    - destruct hg, hf; simpl; lia. }
  split.
  { intros v Hv. apply elem_of_take in Hv as (i & Hi & _).
    apply list_elem_of_lookup_2 in Hi. unfold plan in Hi.
    apply list_elem_of_In, List.filter_In in Hi. apply Hi. }
  split.
  { unfold k. destruct hg, hf; reflexivity. }
  apply length_take.
Qed.

(** ** The phases of [generate_image] *)

Lemma has_node_facts eng t s :
  let r := has_node eng t s in
  exists b,
    out_value r = inr b /\
    posts (out_state r) = posts s /\ draws (out_state r) = draws s /\
    posted (out_trace r) = [] /\ count_draws (out_trace r) = 0%nat /\
    (forall nodes, available_nodes s = Some nodes ->
       b = bool_decide (is_Some (nodes !! t)) /\ out_state r = s /\ out_trace r = []).
Proof.
  cbv zeta. rewrite has_node_run.
  destruct (available_nodes s) as [nodes|] eqn:Hc.
  - eexists. split; [reflexivity|]. do 4 (split; [reflexivity|]).
    intros nodes' H. injection H as <-. auto.
  - destruct (object_info eng (fetches s));
      (eexists; split; [reflexivity|]; do 4 (split; [reflexivity|]); discriminate).
Qed.

Lemma has_node_tick_draws eng t s :
  has_node eng t (tick_draws s) =
  let r := has_node eng t s in
  Outcome (out_value r) (tick_draws (out_state r)) (out_trace r).
Proof.
  rewrite !has_node_run. cbn [tick_draws available_nodes fetches].
  destruct (available_nodes s); [reflexivity|].
  destruct (object_info eng (fetches s)); reflexivity.
Qed.

Lemma capabilities_tick_draws eng s :
  capabilities eng (tick_draws s) =
  ((capabilities eng s).1.1, (capabilities eng s).1.2, tick_draws (capabilities eng s).2) /\
  probe_trace eng (tick_draws s) = probe_trace eng s.
Proof.
  unfold capabilities, probe_trace. cbv zeta.
  rewrite has_node_tick_draws. cbv zeta. cbn [out_state out_value out_trace].
  rewrite has_node_tick_draws. cbv zeta. cbn [out_state out_value out_trace].
  split; reflexivity.
Qed.

Lemma capabilities_facts eng s :
  posts (capabilities eng s).2 = posts s /\
  draws (capabilities eng s).2 = draws s /\
  posted (probe_trace eng s) = [] /\
  count_draws (probe_trace eng s) = 0%nat /\
  (forall nodes, available_nodes s = Some nodes ->
     (capabilities eng s).1.1 = bool_decide (is_Some (nodes !! "UnetLoaderGGUF")) /\
     (capabilities eng s).1.2 = bool_decide (is_Some (nodes !! "ModelSamplingFlux")) /\
     (capabilities eng s).2 = s /\ probe_trace eng s = []).
Proof.
  unfold capabilities, probe_trace. cbv zeta. cbn [fst snd].
  destruct (has_node_facts eng "UnetLoaderGGUF" s)
    as (hg & Hg & Hp1 & Hd1 & Ht1 & Hc1 & Hn1).
  destruct (has_node_facts eng "ModelSamplingFlux"
              (out_state (has_node eng "UnetLoaderGGUF" s)))
    as (hf & Hf & Hp2 & Hd2 & Ht2 & Hc2 & Hn2).
  rewrite Hg, Hf.
  split; [congruence|]. split; [congruence|].
  split; [by rewrite posted_app, Ht1, Ht2|].
  split; [by rewrite count_draws_app, Hc1, Hc2|].
  intros nodes Hc. destruct (Hn1 nodes Hc) as (-> & Hs1 & Htr1).
  rewrite Hs1 in Hn2. destruct (Hn2 nodes Hc) as (-> & Hs2 & Htr2).
  rewrite Htr1. rewrite Hs1 in *. rewrite Hs2, Htr2. auto.
Qed.

Lemma submit_job_run eng prompt width height steps guidance seed s :
  submit_job eng prompt width height steps guidance seed s =
  let r0 := seed_or_random eng seed s in
  let sd := resolved_seed eng seed s in
  let c := capabilities eng (out_state r0) in
  let v := select_variant c.1.1 c.1.2 in
  let rc := submit_with_fallback eng
              (graph_of v prompt width height steps guidance sd) v c.1.2
              prompt width height steps guidance sd c.2 in
  Outcome (match out_value rc with
           | inl e => inl e
           | inr prompt_id => inr (prompt_id, sd)
           end)
          (out_state rc)
          (out_trace r0 ++ probe_trace eng (out_state r0) ++ out_trace rc).
Proof.
  unfold submit_job, capabilities, probe_trace. cbv zeta.
  rewrite bind_run.
  assert (Hseed : out_value (seed_or_random eng seed s) = inr (resolved_seed eng seed s))
    by (destruct seed; reflexivity).
  rewrite Hseed. cbv zeta. cbn [out_value out_state out_trace].
  set (s1 := out_state (seed_or_random eng seed s)).
  set (sd := resolved_seed eng seed s).
  rewrite bind_run.
  destruct (has_node_facts eng "UnetLoaderGGUF" s1) as (hg & Hg & _).
  rewrite Hg. cbv zeta. cbn [out_value out_state out_trace].
  set (s2 := out_state (has_node eng "UnetLoaderGGUF" s1)).
  rewrite bind_run.
  destruct (has_node_facts eng "ModelSamplingFlux" s2) as (hf & Hf & _).
  rewrite Hf. cbv zeta. cbn [out_value out_state out_trace fst snd].
  set (s3 := out_state (has_node eng "ModelSamplingFlux" s2)).
  rewrite bind_run, build_selected_run. cbv zeta. cbn [out_value out_state out_trace].
  rewrite bind_run.
  destruct (out_value (submit_with_fallback eng _ _ hf prompt width height steps
                         guidance sd s3)) as [e|prompt_id];
    cbv zeta; cbn [out_value out_state out_trace mret M_ret];
    rewrite ?app_nil_l, ?app_nil_r, <- ?app_assoc; reflexivity.
Qed.

(** ** The progress monitor *)

Lemma ws_loop_prefix cb pre rest s :
  forallb (non_terminal cb) pre = true ->
  ws_loop cb (pre ++ rest)%list s =
  let r := ws_loop cb rest s in
  Outcome (out_value r) (out_state r) (progress_calls cb pre ++ out_trace r).
Proof.
  induction pre as [|m pre IH]; intros Hpre.
  - cbv zeta. simpl. by destruct (ws_loop cb rest s).
  - simpl in Hpre. apply andb_prop in Hpre as [Hm Hpre]. specialize (IH Hpre).
    cbv zeta in *.
    destruct m as [|value max|[node|]|data|ty| |d|d]; try discriminate;
      cbn [app ws_loop progress_calls flat_map]; fold (progress_calls cb pre);
      try (rewrite IH; reflexivity).
    + rewrite bind_run. destruct cb.
      * cbn [emit out_value out_state out_trace]. cbv zeta. rewrite IH. reflexivity.
      * cbn [mret M_ret out_value out_state out_trace]. cbv zeta. rewrite IH.
        reflexivity.
    + destruct cb; [discriminate|]. rewrite IH. reflexivity.
Qed.

Lemma ws_loop_facts cb msgs s :
  let r := ws_loop cb msgs s in
  out_state r = s /\ posted (out_trace r) = [] /\ count_draws (out_trace r) = 0%nat.
Proof.
  induction msgs as [|m msgs IH]; [by repeat split|].
  cbv zeta in *. destruct IH as (Hs & Hp & Hd).
  destruct m as [|value max|[node|]|data|ty| |d|d]; cbn [ws_loop];
    try by repeat split.
  - rewrite bind_run. destruct cb; cbn [emit mret M_ret out_value out_state out_trace];
      cbv zeta; cbn [out_value out_state out_trace]; by repeat split.
  - destruct cb; by repeat split.
Qed.

Lemma track_progress_unfold eng cb s :
  track_progress eng cb s =
  match websocket eng with
  | WsRefused msg => Outcome (inl (ClientError msg)) s [WsConnect]
  | WsOpen msgs =>
      let r := ws_loop cb msgs s in
      Outcome (out_value r) (out_state r) (WsConnect :: out_trace r ++ [WsClose])
  end.
Proof.
  unfold track_progress, with_ws. rewrite bind_run.
  cbn [emit out_value out_state out_trace]. cbv zeta.
  destruct (websocket eng) as [msg|msgs]; reflexivity.
Qed.

Lemma track_progress_facts eng cb s :
  let r := track_progress eng cb s in
  out_state r = s /\ posted (out_trace r) = [] /\ count_draws (out_trace r) = 0%nat.
Proof.
  cbv zeta. rewrite track_progress_unfold.
  destruct (websocket eng) as [msg|msgs]; [by repeat split|].
  cbv zeta. cbn [out_state out_trace].
  destruct (ws_loop_facts cb msgs s) as (Hs & Hp & Hd).
  split; [exact Hs|]. split.
  - unfold posted in *. simpl. by rewrite flat_map_app, Hp.
  - unfold count_draws in *. simpl. by rewrite List.filter_app, length_app, Hd.
Qed.

Lemma ws_messages_open eng pre m post :
  ws_messages eng = (pre ++ m :: post)%list ->
  websocket eng = WsOpen (pre ++ m :: post).
Proof.
  unfold ws_messages. destruct (websocket eng) as [msg|msgs]; [|by intros ->].
  intros H. by destruct pre.
Qed.

Lemma track_progress_terminal eng cb s pre m post :
  ws_messages eng = (pre ++ m :: post)%list ->
  forallb (non_terminal cb) pre = true ->
  non_terminal cb m = false ->
  let r := track_progress eng cb s in
  out_state r = s /\
  out_trace r = (WsConnect :: progress_calls cb pre ++ [WsClose])%list /\
  out_value r =
    match m with
    | MsgExecutionError data =>
        inl (Exception ("Execution error: " ++ default "{}" data))
    | MsgUndecodable => inl JSONDecodeError
    | MsgMalformed d | MsgProgressMalformed d => inl (defect_error d)
    | _ => inr tt
    end.
Proof.
  intros Hmsgs Hpre Hm. cbv zeta.
  rewrite track_progress_unfold, (ws_messages_open eng pre m post Hmsgs). cbv zeta.
  rewrite ws_loop_prefix by exact Hpre. cbv zeta.
  cbn [out_value out_state out_trace].
  destruct m as [|value max|[node|]|data|ty| |d|d]; try discriminate;
    cbn [ws_loop]; try (destruct cb; [|discriminate]);
    cbn [mret M_ret raise out_value out_state out_trace];
    by rewrite app_nil_r.
Qed.

(** C4: when the stream delivers messages [pre] that do not end the loop
    and then a message that ends it, the monitor calls the progress
    callback, if there is one, with the value and max of each progress
    message of [pre], in order, and with nothing else; it leaves the client
    state as it was; it ends in [Succeeded] on an [executing] message with
    node null and in [Failed], with an exception that carries the engine's
    detail, on an [execution_error] message; a message that cannot be read
    ends it in [Failed] with the exception of the reading; the socket is
    closed in every case and no later message is read.  A progress message
    only causes the call, and an [executing] message with a node causes
    nothing: the loop goes on with the next message in the same state. *)
Theorem monitor_events eng cb s pre m post :
  ws_messages eng = (pre ++ m :: post)%list ->
  forallb (non_terminal cb) pre = true ->
  non_terminal cb m = false ->
  let r := track_progress eng cb s in
  out_state r = s /\
  out_trace r = (WsConnect :: progress_calls cb pre ++ [WsClose])%list /\
  final_state r =
    match m with
    | MsgExecutionError data =>
        Failed (Exception ("Execution error: " ++ default "{}" data))
    | MsgUndecodable => Failed JSONDecodeError
    | MsgMalformed d | MsgProgressMalformed d => Failed (defect_error d)
    | _ => Succeeded
    end /\
  (forall value max rest s',
      ws_loop cb (MsgProgress value max :: rest) s' =
      let r' := ws_loop cb rest s' in
      Outcome (out_value r') (out_state r')
              ((if cb then [ProgressCallback value max] else []) ++ out_trace r')) /\
  (forall node rest s',
      ws_loop cb (MsgExecuting (Some node) :: rest) s' = ws_loop cb rest s') /\
  (forall rest s',
      ws_loop cb (MsgExecuting None :: rest) s' = Outcome (inr tt) s' []) /\
  (forall data rest s',
      ws_loop cb (MsgExecutionError data :: rest) s' =
      Outcome (inl (Exception ("Execution error: " ++ default "{}" data))) s' []).
Proof.
  intros Hmsgs Hpre Hm.
  destruct (track_progress_terminal eng cb s pre m post Hmsgs Hpre Hm)
    as (Hs & Ht & Hv).
  cbv zeta. unfold final_state. rewrite Hv.
  split; [exact Hs|]. split; [exact Ht|].
  split; [destruct m as [|value max|[node|]|data|ty| |d|d]; try discriminate;
          reflexivity|].
  split; [|repeat split].
  intros value max rest s'. cbn [ws_loop]. rewrite bind_run.
  destruct cb; reflexivity.
Qed.

Lemma monitor_events_witness :
  out_trace (track_progress engine_ok true fresh) =
    [WsConnect; ProgressCallback 1 20; ProgressCallback 20 20; WsClose] /\
  final_state (track_progress engine_ok true fresh) = Succeeded.
Proof.
  pose proof (monitor_events engine_ok true fresh
                [MsgProgress 1 20; MsgExecuting (Some "sampler"); MsgProgress 20 20]
                (MsgExecuting None) [MsgProgress 1 20]
                eq_refl eq_refl eq_refl) as H.
  cbv zeta in H. destruct H as (_ & Ht & Hf & _).
  split; [exact Ht | exact Hf].
Defined.

(** ** The result *)

Lemma scan_outputs_run eng outs prompt width height steps guidance seed s :
  scan_outputs eng outs prompt width height steps guidance seed s =
  match first_image_list outs with
  | None => Outcome (inl (Exception "No image found in output")) s []
  | Some [] => Outcome (inl IndexError) s []
  | Some (info :: _) =>
      match filename info, folder_type info with
      | None, _ => Outcome (inl (KeyError "filename")) s []
      | Some _, None => Outcome (inl (KeyError "type")) s []
      | Some name, Some kind =>
          Outcome
            match view_resp eng name (default "" (subfolder info)) kind with
            | inl msg => inl (ClientError msg)
            | inr image_bytes =>
                inr (result_for image_bytes name prompt width height steps guidance seed)
            end
            s [GetView name (default "" (subfolder info)) kind]
      end
  end.
Proof.
  induction outs as [|[node_id output] outs IH]; [reflexivity|].
  cbn [scan_outputs first_image_list].
  destruct (images output) as [[|info more]|]; [reflexivity| |exact IH].
  destruct (filename info) as [name|]; [|reflexivity].
  destruct (folder_type info) as [kind|]; [|reflexivity].
  rewrite bind_run. unfold get_image. rewrite bind_run.
  cbn [emit out_value out_state out_trace]. cbv zeta.
  destruct (view_resp eng name (default "" (subfolder info)) kind); reflexivity.
Qed.

Lemma fetch_result_run eng prompt_id prompt width height steps guidance seed s :
  fetch_result eng prompt_id prompt width height steps guidance seed s =
  Outcome (lookup_result eng prompt_id prompt width height steps guidance seed) s
          (result_requests eng prompt_id).
Proof.
  unfold fetch_result, lookup_result, result_requests, located_image.
  rewrite bind_run. unfold get_history. rewrite bind_run.
  cbn [emit out_value out_state out_trace]. cbv zeta.
  destruct (history_resp eng prompt_id) as [failure|history]; [reflexivity|].
  cbn [mret M_ret out_value out_state out_trace app].
  destruct (history !! prompt_id) as [entry|]; [|reflexivity].
  destruct (outputs entry) as [outs|]; [|reflexivity].
  rewrite scan_outputs_run.
  destruct (first_image_list outs) as [[|info more]|]; try reflexivity.
  destruct (filename info) as [name|]; [|reflexivity].
  destruct (folder_type info) as [kind|]; [|reflexivity].
  cbn [out_value out_state out_trace].
  by destruct (view_resp eng name (default "" (subfolder info)) kind).
Qed.

Lemma fetch_result_facts eng prompt_id prompt width height steps guidance seed s :
  let r := fetch_result eng prompt_id prompt width height steps guidance seed s in
  out_state r = s /\ posted (out_trace r) = [] /\ count_draws (out_trace r) = 0%nat /\
  (forall b md, out_value r = inr (b, md) -> md_seed md = seed).
Proof.
  cbv zeta. rewrite fetch_result_run. cbn [out_value out_state out_trace].
  unfold result_requests, lookup_result.
  destruct (history_resp eng prompt_id) as [failure|history];
    [repeat split; discriminate|].
  destruct (located_image history prompt_id) as [e|[[name sub] kind]];
    [repeat split; discriminate|].
  split; [reflexivity|]. split; [reflexivity|]. split; [reflexivity|].
  destruct (view_resp eng name sub kind) as [msg|image_bytes]; [discriminate|].
  intros b md [= <- <-]. reflexivity.
Qed.

(** C5: the lookup of the result at a recorded output whose image list is
    empty.  It raises [IndexError], from the unguarded
    [output["images"][0]] of line 512, after the request for the history
    and before any download: that is neither the failure with a missing
    result nor a first entry, the two outcomes that the claim allows.
    Beside it, an output that has no image list at all does raise the
    exception of a missing result. *)
Theorem empty_image_list_raises :
  let r := fetch_result engine_no_image "job" "a cat" 1024 1024 20 float_3_5 7 fresh in
  history_resp engine_no_image "job" =
    inr {[ "job" := {| outputs := Some [("save_image", {| images := Some [] |})] |} ]} /\
  out_value r = inl IndexError /\
  ~ result_missing IndexError /\
  out_trace r = [GetHistory "job"] /\
  out_value (fetch_result engine_no_image_list "job" "a cat" 1024 1024 20
                          float_3_5 7 fresh)
    = inl (Exception "No image found in output").
Proof.
  cbv zeta. split; [reflexivity|]. split; [reflexivity|].
  split; [by intros [H|H]|]. split; reflexivity.
Qed.

(** ** The whole call *)

Lemma generate_image_run eng prompt width height steps guidance seed cb s :
  generate_image eng prompt width height steps guidance seed cb s =
  let rj := submit_job eng prompt width height steps guidance seed s in
  match out_value rj with
  | inl e => Outcome (inl e) (out_state rj) (out_trace rj)
  | inr (prompt_id, sd) =>
      let rt := track_progress eng cb (out_state rj) in
      match out_value rt with
      | inl e => Outcome (inl e) (out_state rt) (out_trace rj ++ out_trace rt)
      | inr _ =>
          let rf := fetch_result eng prompt_id prompt width height steps
                                 guidance sd (out_state rt) in
          Outcome (out_value rf) (out_state rf)
                  (out_trace rj ++ out_trace rt ++ out_trace rf)
      end
  end.
Proof.
  unfold generate_image. rewrite bind_run. cbv zeta.
  destruct (out_value (submit_job eng prompt width height steps guidance seed s))
    as [e|[prompt_id sd]]; [reflexivity|].
  rewrite bind_run. cbv zeta.
  destruct (out_value (track_progress eng cb _)) as [e|[]];
    cbn [out_value out_state out_trace]; reflexivity.
Qed.

Lemma last_map {A B : Type} (f : A -> B) (l : list A) :
  last (map f l) = f <$> last l.
Proof.
  induction l as [|x [|y l] IH]; [reflexivity|reflexivity|exact IH].
Qed.

Lemma posted_map_post (gs : list workflow) :
  posted (map PostPrompt gs) = gs.
Proof. induction gs as [|g gs IH]; [reflexivity|]. simpl. by rewrite IH. Qed.

Lemma count_draws_map_post (gs : list workflow) :
  count_draws (map PostPrompt gs) = 0%nat.
Proof. induction gs as [|g gs IH]; [reflexivity|]. exact IH. Qed.

Lemma submit_job_facts eng prompt width height steps guidance seed s :
  let rj := submit_job eng prompt width height steps guidance seed s in
  let sd := resolved_seed eng seed s in
  let c := capabilities eng s in
  let vs := attempts eng (posts s) c.1.1 c.1.2 in
  let gs := map (fun v => graph_of v prompt width height steps guidance sd) vs in
  out_trace rj =
    ((match seed with None => [RandInt] | Some _ => [] end) ++
     probe_trace eng s ++ map PostPrompt gs)%list /\
  out_value rj =
    match prompt_result (prompt_resp eng (Nat.pred (length vs) + posts s)%nat) with
    | inl e => inl e
    | inr prompt_id => inr (prompt_id, sd)
    end /\
  posts (out_state rj) = (length vs + posts s)%nat.
Proof.
  cbv zeta. rewrite submit_job_run. cbv zeta. cbn [out_value out_state out_trace].
  set (sd := resolved_seed eng seed s).
  assert (Hcaps : capabilities eng (out_state (seed_or_random eng seed s)) =
                  ((capabilities eng s).1.1, (capabilities eng s).1.2,
                   match seed with
                   | None => tick_draws (capabilities eng s).2
                   | Some _ => (capabilities eng s).2
                   end) /\
                  probe_trace eng (out_state (seed_or_random eng seed s)) =
                  probe_trace eng s).
  { destruct seed as [x|].
    - cbn [seed_or_random mret M_ret out_state]. by destruct (capabilities eng s) as [[??]?].
    - rewrite seed_or_random_none. cbn [out_state]. apply capabilities_tick_draws. }
  destruct Hcaps as [-> ->]. cbn [fst snd].
  set (hg := (capabilities eng s).1.1). set (hf := (capabilities eng s).1.2).
  set (s2 := match seed with
             | None => tick_draws (capabilities eng s).2
             | Some _ => (capabilities eng s).2
             end).
  assert (Hposts : posts s2 = posts s).
  { destruct (capabilities_facts eng s) as (Hp & _).
    unfold s2. destruct seed; cbn [tick_draws posts]; exact Hp. }
  destruct (cascade_run eng hg hf prompt width height steps guidance sd s2)
    as (Ht & Hs & Hv).
  rewrite Hposts in Ht, Hs, Hv.
  rewrite Ht, Hs, Hv. cbn [posts].
  split; [|split; reflexivity].
  rewrite map_map. f_equal. destruct seed; reflexivity.
Qed.

Lemma generate_image_posted eng prompt width height steps guidance seed cb s :
  let r := generate_image eng prompt width height steps guidance seed cb s in
  let rj := submit_job eng prompt width height steps guidance seed s in
  posted (out_trace r) = posted (out_trace rj) /\
  count_draws (out_trace r) = count_draws (out_trace rj) /\
  posts (out_state r) = posts (out_state rj) /\
  (forall e, out_value rj = inl e -> r = Outcome (inl e) (out_state rj) (out_trace rj)).
Proof.
  cbv zeta. rewrite generate_image_run. cbv zeta.
  destruct (out_value (submit_job eng prompt width height steps guidance seed s))
    as [e|[prompt_id sd]] eqn:Hj.
  { cbn [out_trace out_state]. repeat split. by intros e' [= <-]. }
  destruct (track_progress_facts eng cb
              (out_state (submit_job eng prompt width height steps guidance seed s)))
    as (Hts & Htp & Htd).
  destruct (out_value (track_progress eng cb _)) as [e|[]];
    cbn [out_trace out_state].
  - rewrite posted_app, count_draws_app, Htp, Htd, Hts, app_nil_r, Nat.add_0_r.
    repeat split. discriminate.
  - destruct (fetch_result_facts eng prompt_id prompt width height steps guidance sd
                (out_state (track_progress eng cb
                   (out_state (submit_job eng prompt width height steps guidance seed s)))))
      as (Hfs & Hfp & Hfd & _).
    rewrite !posted_app, !count_draws_app, Htp, Htd, Hfp, Hfd, Hfs, Hts.
    rewrite !app_nil_r, !Nat.add_0_r. repeat split. discriminate.
Qed.

Lemma generate_image_trace eng prompt width height steps guidance seed cb s :
  let r := generate_image eng prompt width height steps guidance seed cb s in
  let rj := submit_job eng prompt width height steps guidance seed s in
  exists t, out_trace r = (out_trace rj ++ t)%list /\
            posted t = [] /\ count_draws t = 0%nat.
Proof.
  cbv zeta. rewrite generate_image_run. cbv zeta.
  destruct (out_value (submit_job eng prompt width height steps guidance seed s))
    as [e|[prompt_id sd]] eqn:Hj.
  { exists []. cbn [out_trace]. by rewrite app_nil_r. }
  destruct (track_progress_facts eng cb
              (out_state (submit_job eng prompt width height steps guidance seed s)))
    as (Hts & Htp & Htd).
  destruct (out_value (track_progress eng cb _)) as [e|[]]; cbn [out_trace].
  - eexists. split; [reflexivity|]. by split.
  - destruct (fetch_result_facts eng prompt_id prompt width height steps guidance sd
                (out_state (track_progress eng cb
                   (out_state (submit_job eng prompt width height steps guidance seed s)))))
      as (Hfs & Hfp & Hfd & _).
    eexists. split; [reflexivity|].
    by rewrite posted_app, count_draws_app, Htp, Htd, Hfp, Hfd.
Qed.

Lemma failures_from_fail eng k : forall n i,
  (i < length (failures_from eng n k))%nat ->
  prompt_failure (prompt_resp eng (i + n)) <> None.
Proof.
  induction k as [|k IH]; intros n i Hi; simpl in Hi; [lia|].
  destruct (prompt_failure (prompt_resp eng n)) as [e|] eqn:He; simpl in Hi; [|lia].
  destruct i as [|i]; [simpl; congruence|].
  replace (S i + n)%nat with (i + S n)%nat by lia. apply IH. lia.
Qed.

Lemma failures_from_stop eng k : forall n,
  (length (failures_from eng n k) < k)%nat ->
  prompt_failure (prompt_resp eng (length (failures_from eng n k) + n)) = None.
Proof.
  induction k as [|k IH]; intros n Hlt; simpl in *; [lia|].
  destruct (prompt_failure (prompt_resp eng n)) as [e|] eqn:He; simpl in *.
  - replace (S (length (failures_from eng (S n) k) + n))%nat
      with (length (failures_from eng (S n) k) + S n)%nat by lia.
    apply IH. lia.
  - exact He.
Qed.

Lemma prompt_result_failure (r : prompt_response) :
  match prompt_failure r with
  | Some e => prompt_result r = inl e
  | None => exists prompt_id, prompt_result r = inr prompt_id
  end.
Proof. destruct r; simpl; eauto. Qed.

(** ** The claims on the cascade *)

(** C1: in one call of [generate_image] the graphs submitted are those of a
    list of variants that has between one and three members, follows the
    order quantized, standard, simple, and is an initial part of the list
    of the variants that the two capability flags permit: a variant that is
    not permitted, such as standard without [ModelSamplingFlux], is never
    submitted.  With a filled cache the flags are the membership of the two
    node types in the cached catalog. *)
Theorem cascade_order eng prompt width height steps guidance seed cb s :
  let r := generate_image eng prompt width height steps guidance seed cb s in
  let sd := resolved_seed eng seed s in
  let has_gguf_loader := (capabilities eng s).1.1 in
  let has_flux_sampling := (capabilities eng s).1.2 in
  exists vs : list workflow_type,
    posted (out_trace r) =
      map (fun v => graph_of v prompt width height steps guidance sd) vs /\
    (1 <= length (posted (out_trace r)) <= 3)%nat /\
    vs `sublist_of` [gguf; standard; simple] /\
    vs `prefix_of`
       List.filter (permitted has_gguf_loader has_flux_sampling)
                   [gguf; standard; simple] /\
    (forall v, v ∈ vs -> permitted has_gguf_loader has_flux_sampling v = true) /\
    (forall nodes,
        available_nodes s = Some nodes ->
        has_gguf_loader = bool_decide (is_Some (nodes !! "UnetLoaderGGUF")) /\
        has_flux_sampling = bool_decide (is_Some (nodes !! "ModelSamplingFlux"))).
Proof.
  cbv zeta.
  destruct (generate_image_posted eng prompt width height steps guidance seed cb s)
    as (Hp & _).
  destruct (submit_job_facts eng prompt width height steps guidance seed s)
    as (Ht & _).
  cbv zeta in Hp, Ht.
  destruct (capabilities_facts eng s) as (_ & _ & Hpp & _ & Hc).
  rewrite Hp, Ht, !posted_app, Hpp, posted_map_post.
  assert (Hseed : posted match seed with None => [RandInt] | Some _ => [] end = [])
    by (destruct seed; reflexivity).
  rewrite Hseed. cbn [app].
  destruct (attempts_facts eng (posts s) (capabilities eng s).1.1 (capabilities eng s).1.2)
    as (Hpre & Hsub & Hlen & Hperm & _).
  cbv zeta in *.
  exists (attempts eng (posts s) (capabilities eng s).1.1 (capabilities eng s).1.2).
  split; [reflexivity|]. split; [by rewrite length_map|].
  split; [exact Hsub|]. split; [exact Hpre|]. split; [exact Hperm|].
  intros nodes Hn. destruct (Hc nodes Hn) as (H1 & H2 & _). by split.
Qed.

(** C2: the variant built depends on the two capability flags only: the
    quantized one when [UnetLoaderGGUF] is supported, whatever the other
    flag; else the standard one when [ModelSamplingFlux] is supported; else
    the simple one.  The graph and its tag are those of the builder of that
    variant, building changes nothing in the client, and the graph so
    chosen is the first that [generate_image] submits. *)
Theorem variant_selection eng prompt width height steps guidance seed cb s :
  (forall has_flux_sampling sd s',
      exists g,
        out_value (create_flux2_workflow_gguf eng prompt width height steps
                     guidance (Some sd) s') = inr g /\
        build_selected eng true has_flux_sampling prompt width height steps
                       guidance sd s' = Outcome (inr (g, gguf)) s' []) /\
  (forall sd s',
      exists g,
        out_value (create_flux2_workflow eng prompt width height steps
                     guidance (Some sd) s') = inr g /\
        build_selected eng false true prompt width height steps
                       guidance sd s' = Outcome (inr (g, standard)) s' []) /\
  (forall sd s',
      exists g,
        out_value (create_flux2_workflow_simple eng prompt width height steps
                     guidance (Some sd) s') = inr g /\
        build_selected eng false false prompt width height steps
                       guidance sd s' = Outcome (inr (g, simple)) s' []) /\
  (let has_gguf_loader := (capabilities eng s).1.1 in
   let has_flux_sampling := (capabilities eng s).1.2 in
   let v := if has_gguf_loader then gguf
            else if has_flux_sampling then standard else simple in
   head (posted (out_trace (generate_image eng prompt width height steps
                              guidance seed cb s))) =
   Some (graph_of v prompt width height steps guidance (resolved_seed eng seed s))).
Proof.
  split; [|split; [|split]].
  - intros hf sd s'. eexists. split; reflexivity.
  - intros sd s'. eexists. split; reflexivity.
  - intros sd s'. eexists. split; reflexivity.
  - cbv zeta.
    destruct (generate_image_posted eng prompt width height steps guidance seed cb s)
      as (Hp & _).
    destruct (submit_job_facts eng prompt width height steps guidance seed s)
      as (Ht & _).
    cbv zeta in Hp, Ht.
    destruct (capabilities_facts eng s) as (_ & _ & Hpp & _).
    rewrite Hp, Ht, !posted_app, Hpp, posted_map_post.
    assert (Hseed : posted match seed with None => [RandInt] | Some _ => [] end = [])
      by (destruct seed; reflexivity).
    rewrite Hseed. cbn [app].
    destruct (attempts_facts eng (posts s) (capabilities eng s).1.1
                (capabilities eng s).1.2) as (_ & _ & _ & _ & Hhead & _).
    cbv zeta in Hhead.
    destruct (attempts eng (posts s) _ _) as [|v vs]; [discriminate|].
    injection Hhead as ->. reflexivity.
Qed.

(** C10: every graph that one call of [generate_image] submits has the same
    value in its one seed input: the seed of the caller or, when the caller
    gave none, the one number drawn, which is drawn first, before any
    request, and is the only draw of the call; the builders draw nothing.
    The metadata of a result carries the same seed. *)
Theorem one_seed_per_call eng prompt width height steps guidance seed cb s :
  let r := generate_image eng prompt width height steps guidance seed cb s in
  let sd := resolved_seed eng seed s in
  Forall (fun g => seeds_of g = [VInt sd]) (posted (out_trace r)) /\
  count_draws (out_trace r) = match seed with None => 1%nat | Some _ => 0%nat end /\
  (exists t,
      out_trace r = (match seed with None => [RandInt] | Some _ => [] end ++ t)%list /\
      count_draws t = 0%nat /\ posted t = posted (out_trace r)) /\
  (forall b md, out_value r = inr (b, md) -> md_seed md = sd) /\
  match seed with None => 0 <= sd < 2 ^ 31 | Some x => sd = x end.
Proof.
  cbv zeta.
  destruct (generate_image_trace eng prompt width height steps guidance seed cb s)
    as (t & Htr & Htp & Htd).
  destruct (submit_job_facts eng prompt width height steps guidance seed s)
    as (Ht & Hv & _).
  cbv zeta in Htr, Ht, Hv.
  destruct (capabilities_facts eng s) as (_ & _ & Hpp & Hpd & _).
  set (gs := map (fun v => graph_of v prompt width height steps guidance
                             (resolved_seed eng seed s))
                 (attempts eng (posts s) (capabilities eng s).1.1
                           (capabilities eng s).1.2)) in *.
  assert (Hseedp : posted match seed with None => [RandInt] | Some _ => [] end = [])
    by (destruct seed; reflexivity).
  assert (Hposted : posted (out_trace (generate_image eng prompt width height steps
                                         guidance seed cb s)) = gs).
  { by rewrite Htr, Ht, !posted_app, Hseedp, Hpp, posted_map_post, Htp, app_nil_r. }
  split; [|split; [|split; [|split]]].
  - rewrite Hposted. unfold gs. apply Forall_map, Forall_forall. intros v _.
    apply graph_of_shape.
  - rewrite Htr, Ht, !count_draws_app, Hpd, count_draws_map_post, Htd.
    destruct seed; reflexivity.
  - exists (probe_trace eng s ++ map PostPrompt gs ++ t)%list.
    split; [by rewrite Htr, Ht, <- !app_assoc|].
    split.
    + by rewrite !count_draws_app, Hpd, count_draws_map_post, Htd.
    + by rewrite Hposted, !posted_app, Hpp, posted_map_post, Htp, app_nil_r.
  - intros b md Hr. rewrite generate_image_run in Hr. cbv zeta in Hr.
    rewrite Hv in Hr.
    destruct (prompt_result _) as [e|prompt_id]; [discriminate|].
    destruct (out_value (track_progress eng cb _)) as [e|[]]; [discriminate|].
    cbn [out_value] in Hr.
    eapply fetch_result_facts. exact Hr.
  - destruct seed as [x|]; [reflexivity|]. unfold resolved_seed.
    apply Z.mod_pos_bound. lia.
Qed.

(** C7, as amended: when every submission attempt of a call fails, the call
    raises the error of its last attempt, which is the submission of the
    simple variant; nothing is submitted or requested after it.  That error
    is the one of the first submission only when the simple variant was the
    first and only attempt. *)
Theorem last_error_surfaced eng prompt width height steps guidance seed cb s :
  let r := generate_image eng prompt width height steps guidance seed cb s in
  let n := length (posted (out_trace r)) in
  (forall i, (i < n)%nat -> prompt_failure (prompt_resp eng (i + posts s)) <> None) ->
  exists e,
    out_value r = inl e /\
    prompt_failure (prompt_resp eng (Nat.pred n + posts s)) = Some e /\
    last (posted (out_trace r)) =
      Some (graph_of simple prompt width height steps guidance
                     (resolved_seed eng seed s)) /\
    last (out_trace r) =
      Some (PostPrompt (graph_of simple prompt width height steps guidance
                                 (resolved_seed eng seed s))) /\
    posts (out_state r) = (n + posts s)%nat /\
    n = length (plan (capabilities eng s).1.1 (capabilities eng s).1.2).
Proof.
  cbv zeta.
  destruct (generate_image_posted eng prompt width height steps guidance seed cb s)
    as (Hp & _ & Hposts & Hraise).
  destruct (submit_job_facts eng prompt width height steps guidance seed s)
    as (Ht & Hv & Hps).
  cbv zeta in Hp, Hposts, Hraise, Ht, Hv, Hps.
  destruct (capabilities_facts eng s) as (_ & _ & Hpp & _).
  set (hg := (capabilities eng s).1.1) in *. set (hf := (capabilities eng s).1.2) in *.
  set (sd := resolved_seed eng seed s) in *.
  set (vs := attempts eng (posts s) hg hf) in *.
  assert (Hseedp : posted match seed with None => [RandInt] | Some _ => [] end = [])
    by (destruct seed; reflexivity).
  assert (Hposted : posted (out_trace (generate_image eng prompt width height steps
                                         guidance seed cb s)) =
                    map (fun v => graph_of v prompt width height steps guidance sd) vs).
  { by rewrite Hp, Ht, !posted_app, Hseedp, Hpp, posted_map_post. }
  rewrite Hposted, length_map. intros Hfail.
  destruct (attempts_facts eng (posts s) hg hf) as (_ & _ & Hlen & _ & _ & Hmin).
  fold vs in Hlen, Hmin.
  assert (Hall : vs = plan hg hf).
  { unfold vs, attempts. apply take_ge.
    destruct (Nat.lt_ge_cases (length (failures_from eng (posts s) (length (plan hg hf))))
                              (length (plan hg hf))) as [Hlt|Hge]; [|lia].
    exfalso. apply (Hfail (length (failures_from eng (posts s) (length (plan hg hf))))).
    - lia.
    - by apply failures_from_stop. }
  pose proof (prompt_result_failure (prompt_resp eng (Nat.pred (length vs) + posts s)))
    as Hres.
  destruct (prompt_failure (prompt_resp eng (Nat.pred (length vs) + posts s)))
    as [e|] eqn:He; [|exfalso; apply (Hfail (Nat.pred (length vs))); [lia|exact He]].
  rewrite Hres in Hv. specialize (Hraise e Hv).
  exists e. rewrite Hraise. cbn [out_value out_state out_trace].
  split; [reflexivity|]. split; [reflexivity|].
  assert (Hlast : last vs = Some simple).
  { rewrite Hall. unfold plan. destruct hg, hf; reflexivity. }
  split; [by rewrite last_map, Hlast|].
  split; [by rewrite Ht, !last_app, !last_map, Hlast|].
  split; [exact Hps|]. by rewrite Hall.
Qed.

Lemma last_error_surfaced_witness :
  out_value (generate_image engine_rejecting "a cat" 1024 1024 20 float_3_5
                            (Some 7) false fresh) =
  inl (Exception "ComfyUI error: second").
Proof.
  destruct (last_error_surfaced engine_rejecting "a cat" 1024 1024 20 float_3_5
              (Some 7) false fresh) as (e & Hv & He & _).
  - intros i Hi. destruct i as [|i]; simpl; discriminate.
  - vm_compute in He. injection He as <-. exact Hv.
Defined.

(** C7, as stated, fails: the engine knows the quantized loader only and
    rejects both the quantized and the simple graph; the caller gets the
    error of the second submission, not the one of the first. *)
Lemma original_error_lost :
  ~ surfaces_original_error engine_rejecting "a cat" 1024 1024 20 float_3_5
                            (Some 7) false fresh /\
  length (posted (out_trace (generate_image engine_rejecting "a cat" 1024 1024 20
                               float_3_5 (Some 7) false fresh))) = 2%nat /\
  prompt_failure (prompt_resp engine_rejecting 0) =
    Some (Exception "ComfyUI error: first") /\
  out_value (generate_image engine_rejecting "a cat" 1024 1024 20 float_3_5
                            (Some 7) false fresh) =
    inl (Exception "ComfyUI error: second").
Proof.
  split; [|split; [|split]]; try reflexivity.
  intros H. destruct H as (e & He & Hv).
  - intros i _. destruct i as [|i]; simpl; discriminate.
  - vm_compute in He, Hv. congruence.
Qed.

(** C3: once a submission has been accepted, an [execution_error] message
    that the monitor reaches makes the call raise an exception carrying the
    engine's detail; the call then does nothing but close the socket: no
    graph is built or submitted after the accepted one, and the client
    state is as the submission left it.  In every call, each submission
    but the last one answered with a failure: a new attempt follows a
    failed submission and nothing else. *)
Theorem execution_error_surfaced eng prompt width height steps guidance seed cb s
    prompt_id sd pre data post :
  out_value (submit_job eng prompt width height steps guidance seed s)
    = inr (prompt_id, sd) ->
  ws_messages eng = (pre ++ MsgExecutionError data :: post)%list ->
  forallb (non_terminal cb) pre = true ->
  let rj := submit_job eng prompt width height steps guidance seed s in
  let r := generate_image eng prompt width height steps guidance seed cb s in
  out_value r = inl (Exception ("Execution error: " ++ default "{}" data)) /\
  out_trace r = (out_trace rj ++ WsConnect :: progress_calls cb pre ++ [WsClose])%list /\
  posted (out_trace r) = posted (out_trace rj) /\
  out_state r = out_state rj /\
  (forall i, (S i < length (posted (out_trace r)))%nat ->
             prompt_failure (prompt_resp eng (i + posts s)) <> None) /\
  prompt_resp eng (Nat.pred (length (posted (out_trace r))) + posts s)
    = PromptAccepted prompt_id.
Proof.
  intros Hj Hmsgs Hpre. cbv zeta.
  destruct (generate_image_posted eng prompt width height steps guidance seed cb s)
    as (Hp & _).
  cbv zeta in Hp.
  destruct (track_progress_terminal eng cb
              (out_state (submit_job eng prompt width height steps guidance seed s))
              pre (MsgExecutionError data) post Hmsgs Hpre eq_refl)
    as (Hms & Hmt & Hmf).
  destruct (submit_job_facts eng prompt width height steps guidance seed s)
    as (Ht & Hv & _).
  cbv zeta in Ht, Hv.
  destruct (capabilities_facts eng s) as (_ & _ & Hpp & _).
  set (vs := attempts eng (posts s) (capabilities eng s).1.1 (capabilities eng s).1.2) in *.
  assert (Hseedp : posted match seed with None => [RandInt] | Some _ => [] end = [])
    by (destruct seed; reflexivity).
  assert (Hlen : length (posted (out_trace (generate_image eng prompt width height
                                              steps guidance seed cb s))) = length vs).
  { rewrite Hp, Ht, !posted_app, Hseedp, Hpp, posted_map_post. cbn [app].
    by rewrite length_map. }
  rewrite Hlen.
  rewrite generate_image_run. cbv zeta. rewrite Hj.
  rewrite Hmf. cbn [out_value out_state out_trace].
  rewrite Hmt, Hms.
  split; [reflexivity|]. split; [reflexivity|].
  split.
  { rewrite posted_app. unfold posted at 2. simpl.
    rewrite flat_map_app. simpl.
    assert (Hcalls : flat_map (fun a => match a with PostPrompt w => [w] | _ => [] end)
                       (progress_calls cb pre) = []).
    { clear. induction pre as [|m pre IH]; [reflexivity|].
      simpl. rewrite flat_map_app, IH, app_nil_r.
      destruct m as [|value max|node|d|ty| |d|d]; try reflexivity. by destruct cb. }
    by rewrite Hcalls, app_nil_r. }
  split; [reflexivity|].
  split.
  - intros i Hi. apply (failures_from_fail eng (length (plan (capabilities eng s).1.1
                                                          (capabilities eng s).1.2))).
    destruct (attempts_facts eng (posts s) (capabilities eng s).1.1
                (capabilities eng s).1.2) as (_ & _ & _ & _ & _ & Hmin).
    fold vs in Hmin. lia.
  - rewrite Hj in Hv.
    destruct (prompt_resp eng (Nat.pred (length vs) + posts s)) as [pid|err|msg];
      simpl in Hv; [|discriminate|discriminate].
    by injection Hv as <-.
Qed.

Lemma execution_error_surfaced_witness :
  out_value (generate_image engine_exec_error "a cat" 1024 1024 20 float_3_5
                            None true fresh) =
    inl (Exception "Execution error: X") /\
  length (posted (out_trace (generate_image engine_exec_error "a cat" 1024 1024 20
                               float_3_5 None true fresh))) = 1%nat.
Proof.
  destruct (execution_error_surfaced engine_exec_error "a cat" 1024 1024 20 float_3_5
              None true fresh "job" 42 [MsgProgress 1 20] (Some "X")
              [MsgExecuting None] eq_refl eq_refl eq_refl) as (Hv & _ & Hp & _).
  split; [exact Hv|]. rewrite Hp. reflexivity.
Defined.

(** ** Two runs *)

(** Both advanced node types are known and the quantized graph is
    rejected: the standard graph is submitted next, not the simple one. *)
Example standard_after_quantized :
  posted (out_trace (generate_image engine_first_rejected "a cat" 1024 1024 20
                                    float_3_5 (Some 7) false fresh)) =
  [graph_of gguf "a cat" 1024 1024 20 float_3_5 7;
   graph_of standard "a cat" 1024 1024 20 float_3_5 7].
Proof. reflexivity. Qed.

(** A job that runs to its end: the seed is drawn once, the catalog is
    fetched once, the quantized graph is accepted, two progress reports
    reach the callback and the recorded image is downloaded. *)
Example successful_run :
  let r := generate_image engine_ok "a cat" 1024 1024 20 float_3_5 None true fresh in
  out_value r =
    inr ([Byte.x89; Byte.x50; Byte.x4e; Byte.x47],
         {| md_prompt := "a cat"; md_width := 1024; md_height := 1024;
            md_steps := 20; md_guidance := float_3_5; md_seed := 42;
            md_filename := "flux_gen_00001_.png" |}) /\
  out_trace r =
    [RandInt; GetObjectInfo;
     PostPrompt (graph_of gguf "a cat" 1024 1024 20 float_3_5 42);
     WsConnect; ProgressCallback 1 20; ProgressCallback 20 20; WsClose;
     GetHistory "job"; GetView "flux_gen_00001_.png" "" "output"].
Proof. split; reflexivity. Qed.

(** ** Further properties of the graphs *)

Lemma references_backward_sound (g : workflow) : forall seen,
  references_backward seen g = true ->
  forall j name spec source,
    g !! j = Some (name, spec) -> In source (refs_of spec) ->
    source ∈ seen \/ exists i spec', (i < j)%nat /\ g !! i = Some (source, spec').
Proof.
  induction g as [|[n sp] g IH]; intros seen Hb j name spec source Hj Hsrc.
  - discriminate.
  - cbn [references_backward] in Hb. apply andb_prop in Hb as [Hhere Hrest].
    destruct j as [|j].
    + injection Hj as -> ->. left.
      rewrite forallb_forall in Hhere. specialize (Hhere _ Hsrc).
      unfold mem_string in Hhere. apply existsb_exists in Hhere as (x & Hx & Heq).
      apply String.eqb_eq in Heq. subst x. by apply list_elem_of_In.
    + destruct (IH (n :: seen) Hrest j name spec source Hj Hsrc)
        as [Hin|(i & spec' & Hi & Hg)].
      * apply elem_of_cons in Hin as [->|Hin]; [|by left].
        right. exists 0%nat, sp. split; [lia|reflexivity].
      * right. exists (S i), spec'. split; [lia|exact Hg].
Qed.

Lemma graph_of_backward v prompt width height steps guidance seed :
  references_backward [] (graph_of v prompt width height steps guidance seed) = true.
Proof. destruct v; reflexivity. Qed.

(** The graph that a builder returns, with the seed given or drawn. *)
Lemma create_workflow_graph eng v prompt width height steps guidance seed s :
  out_value (create_workflow eng v prompt width height steps guidance seed s) =
  inr (graph_of v prompt width height steps guidance (resolved_seed eng seed s)).
Proof.
  destruct seed as [x|]; [by rewrite create_workflow_some|].
  by rewrite create_workflow_none.
Qed.

(** X1: in every graph that a builder returns, each reference input names
    a node that stands earlier in the graph: the graph is in topological
    order, so it has no cycle and no node refers to itself. *)
Theorem builders_acyclic eng v prompt width height steps guidance seed s :
  exists g,
    out_value (create_workflow eng v prompt width height steps guidance seed s) = inr g /\
    forall j name spec slot source idx,
      g !! j = Some (name, spec) ->
      (slot, VRef source idx) ∈ inputs spec ->
      source <> name /\
      exists i spec', (i < j)%nat /\ g !! i = Some (source, spec').
Proof.
  eexists. split; [apply create_workflow_graph|].
  set (g := graph_of v prompt width height steps guidance (resolved_seed eng seed s)).
  intros j name spec slot source idx Hj Hin.
  assert (Hsrc : In source (refs_of spec)).
  { unfold refs_of. apply in_flat_map. exists (slot, VRef source idx).
    split; [by apply list_elem_of_In | simpl; auto]. }
  destruct (references_backward_sound g [] (graph_of_backward _ _ _ _ _ _ _)
              j name spec source Hj Hsrc) as [Hin'|(i & spec' & Hi & Hg)].
  { by apply elem_of_nil in Hin'. }
  split; [|by exists i, spec'].
  intros ->.
  pose proof (graph_of_names v prompt width height steps guidance
                (resolved_seed eng seed s)) as Hnd.
  fold g in Hnd. unfold node_names in Hnd.
  change (map fst g) with (fst <$> g) in Hnd.
  assert (Hi' : (fst <$> g) !! i = Some name).
  { rewrite list_lookup_fmap. exact (f_equal (fmap fst) Hg). }
  assert (Hj' : (fst <$> g) !! j = Some name).
  { rewrite list_lookup_fmap. exact (f_equal (fmap fst) Hj). }
  pose proof (NoDup_lookup _ _ _ _ Hnd Hi' Hj'). lia.
Qed.

Lemma graph_of_classes v prompt width height steps guidance seed :
  let g := graph_of v prompt width height steps guidance seed in
  uses_class g "UnetLoaderGGUF" = bool_decide (v = gguf) /\
  uses_class g "ModelSamplingFlux" = negb (bool_decide (v = simple)).
Proof. destruct v; split; reflexivity. Qed.

Lemma generate_image_attempts eng prompt width height steps guidance seed cb s :
  posted (out_trace (generate_image eng prompt width height steps guidance seed cb s)) =
  map (fun v => graph_of v prompt width height steps guidance (resolved_seed eng seed s))
      (attempts eng (posts s) (capabilities eng s).1.1 (capabilities eng s).1.2).
Proof.
  destruct (generate_image_posted eng prompt width height steps guidance seed cb s)
    as (Hp & _).
  destruct (submit_job_facts eng prompt width height steps guidance seed s)
    as (Ht & _).
  cbv zeta in Hp, Ht.
  destruct (capabilities_facts eng s) as (_ & _ & Hpp & _).
  rewrite Hp, Ht, !posted_app, Hpp, posted_map_post.
  by destruct seed.
Qed.

(** X2: a graph with a [UnetLoaderGGUF] node is submitted only when the
    test for that node type answered true; a graph with a
    [ModelSamplingFlux] node is submitted only when one of the two tests
    answered true.  The first graph submitted has a [UnetLoaderGGUF] node
    exactly when the first test answered true, and a [ModelSamplingFlux]
    node exactly when one of the two did: the quantized graph carries that
    node also when the engine did not list it. *)
Theorem advanced_classes_submitted eng prompt width height steps guidance seed cb s :
  let r := generate_image eng prompt width height steps guidance seed cb s in
  let has_gguf_loader := (capabilities eng s).1.1 in
  let has_flux_sampling := (capabilities eng s).1.2 in
  (forall g, g ∈ posted (out_trace r) ->
     (uses_class g "UnetLoaderGGUF" = true -> has_gguf_loader = true) /\
     (uses_class g "ModelSamplingFlux" = true ->
      has_gguf_loader = true \/ has_flux_sampling = true)) /\
  (exists g rest,
     posted (out_trace r) = g :: rest /\
     uses_class g "UnetLoaderGGUF" = has_gguf_loader /\
     uses_class g "ModelSamplingFlux" = (has_gguf_loader || has_flux_sampling)%bool).
Proof.
  cbv zeta. rewrite generate_image_attempts.
  set (hg := (capabilities eng s).1.1). set (hf := (capabilities eng s).1.2).
  destruct (attempts_facts eng (posts s) hg hf) as (_ & _ & _ & Hperm & Hhead & _).
  cbv zeta in Hperm, Hhead.
  split.
  - intros g Hg. apply list_elem_of_In, in_map_iff in Hg as (v & <- & Hv).
    apply list_elem_of_In in Hv. specialize (Hperm v Hv).
    destruct (graph_of_classes v prompt width height steps guidance
                (resolved_seed eng seed s)) as (-> & ->).
    destruct v; simpl in *; split; intros; try discriminate; auto.
  - destruct (attempts eng (posts s) hg hf) as [|v vs]; [discriminate|].
    injection Hhead as ->. eexists _, _. split; [reflexivity|].
    destruct (graph_of_classes (select_variant hg hf) prompt width height steps
                guidance (resolved_seed eng seed s)) as (-> & ->).
    destruct hg, hf; split; reflexivity.
Qed.

(** X3: for the same parameters and seed, the simple graph is the standard
    graph without its [model_sampling] node, the sampler taking as model
    what that node took: the output of the loader. *)
Theorem simple_is_standard_bypassed eng prompt width height steps guidance
    (seed : Z) s1 s2 :
  exists g_standard g_simple,
    out_value (create_flux2_workflow eng prompt width height steps guidance
                 (Some seed) s1) = inr g_standard /\
    out_value (create_flux2_workflow_simple eng prompt width height steps guidance
                 (Some seed) s2) = inr g_simple /\
    bypass "model_sampling" "model" g_standard = g_simple /\
    input_of g_simple "sampler" "model" = input_of g_standard "model_sampling" "model" /\
    uses_class g_simple "ModelSamplingFlux" = false.
Proof. eexists _, _. repeat split; reflexivity. Qed.

Lemma graph_of_seed_inj v prompt width height steps guidance seed1 seed2 :
  graph_of v prompt width height steps guidance seed1 =
  graph_of v prompt width height steps guidance seed2 ->
  seed1 = seed2.
Proof.
  intros Heq. apply (f_equal seeds_of) in Heq.
  destruct (graph_of_shape v prompt width height steps guidance seed1)
    as (_ & _ & _ & _ & H1).
  destruct (graph_of_shape v prompt width height steps guidance seed2)
    as (_ & _ & _ & _ & H2).
  rewrite H1, H2 in Heq. by injection Heq.
Qed.

(** X4: a builder called without a seed draws one number, which lies in
    the range from 0 to 2^31 - 1, and returns the graph it returns for
    that number as explicit seed; the draw is its one effect.  Two such
    builds with the same parameters return the same graph exactly when
    their draws are equal. *)
Theorem builder_draws_seed eng v prompt width height steps guidance s s' :
  let r := create_workflow eng v prompt width height steps guidance None s in
  let r' := create_workflow eng v prompt width height steps guidance None s' in
  let d := random_source eng (draws s) mod 2 ^ 31 in
  let d' := random_source eng (draws s') mod 2 ^ 31 in
  0 <= d < 2 ^ 31 /\
  out_value r =
    out_value (create_workflow eng v prompt width height steps guidance (Some d) s) /\
  (exists g, out_value r = inr g /\ seeds_of g = [VInt d]) /\
  out_state r = tick_draws s /\ out_trace r = [RandInt] /\
  (out_value r = out_value r' <-> d = d').
Proof.
  cbv zeta. rewrite !create_workflow_none, create_workflow_some.
  cbn [out_value out_state out_trace].
  split; [apply Z.mod_pos_bound; lia|]. split; [reflexivity|].
  split; [eexists; split; [reflexivity|apply graph_of_shape]|].
  split; [reflexivity|]. split; [reflexivity|].
  split.
  - intros [= Heq]. by apply graph_of_seed_inj in Heq.
  - by intros ->.
Qed.

(** ** Further properties of a call *)

Lemma ws_loop_run cb msgs s :
  ws_loop cb msgs s =
  Outcome (match monitor_failure cb msgs with Some e => inl e | None => inr tt end) s
          (progress_calls cb (read_prefix cb msgs)).
Proof.
  induction msgs as [|m msgs IH]; [reflexivity|].
  unfold monitor_failure in *.
  destruct m as [|value max|[node|]|data|ty| |d|d];
    cbn [ws_loop read_prefix first_terminal non_terminal progress_calls flat_map];
    fold (progress_calls cb (read_prefix cb msgs));
    try (rewrite IH; reflexivity); try reflexivity.
  - rewrite bind_run. destruct cb;
      cbn [emit mret M_ret out_value out_state out_trace]; cbv zeta;
      rewrite IH; reflexivity.
  - destruct cb; cbn [negb]; [reflexivity|].
    cbn [progress_calls flat_map app]. fold (progress_calls false (read_prefix false msgs)).
    rewrite IH. reflexivity.
Qed.

Lemma track_progress_run eng cb s :
  track_progress eng cb s =
  Outcome (match monitoring_error eng cb with
           | Some e => inl e
           | None => inr tt
           end) s (monitor_trace eng cb).
Proof.
  rewrite track_progress_unfold. unfold monitoring_error, monitor_trace.
  destruct (websocket eng) as [msg|msgs]; [reflexivity|].
  by rewrite ws_loop_run.
Qed.

Lemma fetch_result_trace eng prompt_id prompt width height steps guidance seed s :
  out_trace (fetch_result eng prompt_id prompt width height steps guidance seed s) =
  result_requests eng prompt_id.
Proof. by rewrite fetch_result_run. Qed.

Lemma capabilities_cases eng s :
  match available_nodes s with
  | Some nodes =>
      capabilities eng s =
        (mem_catalog nodes "UnetLoaderGGUF", mem_catalog nodes "ModelSamplingFlux", s) /\
      probe_trace eng s = []
  | None =>
      match object_info eng (fetches s) with
      | Some nodes =>
          capabilities eng s =
            (mem_catalog nodes "UnetLoaderGGUF", mem_catalog nodes "ModelSamplingFlux",
             {| available_nodes := Some nodes; fetches := S (fetches s);
                posts := posts s; draws := draws s |}) /\
          probe_trace eng s = [GetObjectInfo]
      | None =>
          match object_info eng (S (fetches s)) with
          | Some nodes =>
              capabilities eng s =
                (false, mem_catalog nodes "ModelSamplingFlux",
                 {| available_nodes := Some nodes; fetches := S (S (fetches s));
                    posts := posts s; draws := draws s |}) /\
              probe_trace eng s = [GetObjectInfo; GetObjectInfo]
          | None =>
              capabilities eng s = (false, false, tick_fetches (tick_fetches s)) /\
              probe_trace eng s = [GetObjectInfo; GetObjectInfo]
          end
      end
  end.
Proof.
  unfold capabilities, probe_trace, mem_catalog. cbv zeta.
  rewrite (has_node_run eng "UnetLoaderGGUF" s).
  destruct (available_nodes s) as [nodes|] eqn:Hc.
  - cbn [out_value out_state out_trace]. rewrite has_node_run, Hc. by split.
  - destruct (object_info eng (fetches s)) as [nodes|] eqn:Hf;
      cbn [out_value out_state out_trace]; rewrite has_node_run;
      cbn [available_nodes fetches tick_fetches]; [by split|].
    rewrite Hc. by destruct (object_info eng (S (fetches s))).
Qed.

Lemma submit_job_state eng prompt width height steps guidance seed s :
  let rj := submit_job eng prompt width height steps guidance seed s in
  available_nodes (out_state rj) = available_nodes (capabilities eng s).2 /\
  fetches (out_state rj) = fetches (capabilities eng s).2 /\
  draws (out_state rj) =
    (draws s + match seed with None => 1 | Some _ => 0 end)%nat.
Proof.
  cbv zeta. rewrite submit_job_run. cbv zeta. cbn [out_state].
  assert (Hs1 : out_state (seed_or_random eng seed s) =
                match seed with None => tick_draws s | Some _ => s end)
    by (by destruct seed).
  rewrite Hs1.
  set (s1 := match seed with None => tick_draws s | Some _ => s end).
  destruct (cascade_run eng (capabilities eng s1).1.1 (capabilities eng s1).1.2
              prompt width height steps guidance (resolved_seed eng seed s)
              (capabilities eng s1).2) as (_ & -> & _).
  cbn [available_nodes fetches draws].
  destruct (capabilities_facts eng s) as (_ & Hd & _).
  unfold s1. destruct seed as [x|].
  - rewrite Hd. repeat split; lia.
  - destruct (capabilities_tick_draws eng s) as [-> _].
    cbn [snd tick_draws available_nodes fetches draws]. rewrite Hd.
    repeat split; lia.
Qed.

Lemma generate_image_full eng prompt width height steps guidance seed cb s :
  let rj := submit_job eng prompt width height steps guidance seed s in
  generate_image eng prompt width height steps guidance seed cb s =
  match out_value rj with
  | inl e => Outcome (inl e) (out_state rj) (out_trace rj)
  | inr (prompt_id, sd) =>
      match monitoring_error eng cb with
      | Some e =>
          Outcome (inl e) (out_state rj) (out_trace rj ++ monitor_trace eng cb)
      | None =>
          Outcome (lookup_result eng prompt_id prompt width height steps guidance sd)
                  (out_state rj)
                  (out_trace rj ++ monitor_trace eng cb ++ result_requests eng prompt_id)
      end
  end.
Proof.
  cbv zeta. rewrite generate_image_run. cbv zeta.
  destruct (out_value (submit_job eng prompt width height steps guidance seed s))
    as [e|[prompt_id sd]]; [reflexivity|].
  rewrite track_progress_run. cbn [out_value out_state out_trace].
  destruct (monitoring_error eng cb) as [e|]; [reflexivity|].
  by rewrite fetch_result_run.
Qed.

Lemma filter_none {A : Type} (p : A -> bool) (l : list A) :
  (forall a, In a l -> p a = false) -> List.filter p l = [].
Proof.
  induction l as [|a l IH]; intros H; [reflexivity|].
  simpl. rewrite (H a) by (by left). apply IH. intros b Hb. apply H. by right.
Qed.

Lemma in_progress_calls cb msgs a :
  In a (progress_calls cb msgs) -> exists value max, a = ProgressCallback value max.
Proof.
  unfold progress_calls. rewrite in_flat_map. intros (m & _ & Hm).
  destruct m as [|value max|node|data|ty| |d|d]; try done.
  destruct cb; [|done]. destruct Hm as [<-|[]]. eauto.
Qed.

Lemma in_probe_trace eng s a : In a (probe_trace eng s) -> a = GetObjectInfo.
Proof.
  pose proof (capabilities_cases eng s) as H.
  destruct (available_nodes s); [destruct H as [_ ->]; by intros []|].
  destruct (object_info eng (fetches s)).
  { destruct H as [_ ->]. intros [<-|[]]. reflexivity. }
  destruct (object_info eng (S (fetches s))); destruct H as [_ ->];
    intros [<-|[<-|[]]]; reflexivity.
Qed.

Lemma result_requests_cases eng prompt_id :
  result_requests eng prompt_id = [GetHistory prompt_id] \/
  exists name sub kind,
    result_requests eng prompt_id = [GetHistory prompt_id; GetView name sub kind].
Proof.
  unfold result_requests.
  destruct (history_resp eng prompt_id) as [failure|history]; [by left|].
  destruct (located_image history prompt_id) as [e|[[name sub] kind]]; [by left|].
  right. by exists name, sub, kind.
Qed.

Lemma in_result_requests eng prompt_id a :
  In a (result_requests eng prompt_id) -> is_result_request a = true.
Proof.
  destruct (result_requests_cases eng prompt_id) as [->|(name & sub & kind & ->)].
  - by intros [<-|[]].
  - by intros [<-|[<-|[]]].
Qed.

(** The part of the trace of [submit_job] that a predicate on actions
    keeps, when it keeps no draw and no post. *)
Lemma filter_submit_job p eng prompt width height steps guidance seed s :
  p RandInt = false -> (forall w, p (PostPrompt w) = false) ->
  List.filter p (out_trace (submit_job eng prompt width height steps guidance seed s)) =
  List.filter p (probe_trace eng s).
Proof.
  intros Hr Hp.
  destruct (submit_job_facts eng prompt width height steps guidance seed s) as (-> & _).
  rewrite !List.filter_app.
  rewrite (filter_none p (map PostPrompt _)).
  2: { intros a Ha. apply in_map_iff in Ha as (w & <- & _). apply Hp. }
  rewrite app_nil_r.
  destruct seed; simpl; [reflexivity|]. by rewrite Hr.
Qed.

Lemma filter_monitor_trace p eng cb :
  (forall value max, p (ProgressCallback value max) = false) ->
  List.filter p (monitor_trace eng cb) =
  ((if p WsConnect then [WsConnect] else []) ++
   match websocket eng with
   | WsOpen _ => if p WsClose then [WsClose] else []
   | WsRefused _ => []
   end)%list.
Proof.
  intros Hc. unfold monitor_trace.
  destruct (websocket eng) as [msg|msgs].
  { simpl. by destruct (p WsConnect). }
  rewrite app_comm_cons, List.filter_app. simpl.
  rewrite (filter_none p (progress_calls cb _)).
  2: { intros a Ha. apply in_progress_calls in Ha as (value & max & ->). apply Hc. }
  destruct (p WsConnect), (p WsClose); reflexivity.
Qed.

Lemma filter_all_result eng prompt_id :
  List.filter is_result_request (result_requests eng prompt_id) =
  result_requests eng prompt_id.
Proof.
  by destruct (result_requests_cases eng prompt_id) as [->|(name & sub & kind & ->)].
Qed.

Lemma filter_result_requests p eng prompt_id :
  (forall a, is_result_request a = true -> p a = false) ->
  List.filter p (result_requests eng prompt_id) = [].
Proof.
  intros Hp. apply filter_none. intros a Ha. by apply Hp, (in_result_requests eng prompt_id).
Qed.

(** The part of the trace of a call that a predicate on actions keeps,
    when it keeps no draw, no post and no progress call. *)
Lemma filter_generate_image p eng prompt width height steps guidance seed cb s :
  p RandInt = false -> (forall w, p (PostPrompt w) = false) ->
  (forall value max, p (ProgressCallback value max) = false) ->
  List.filter p (out_trace (generate_image eng prompt width height steps guidance
                                           seed cb s)) =
  (List.filter p (probe_trace eng s) ++
   match out_value (submit_job eng prompt width height steps guidance seed s) with
   | inl _ => []
   | inr (prompt_id, _) =>
       (if p WsConnect then [WsConnect] else []) ++
       match websocket eng with
       | WsOpen _ => if p WsClose then [WsClose] else []
       | WsRefused _ => []
       end ++
       match monitoring_error eng cb with
       | Some _ => []
       | None => List.filter p (result_requests eng prompt_id)
       end
   end)%list.
Proof.
  intros Hr Hp Hc.
  pose proof (generate_image_full eng prompt width height steps guidance seed cb s) as H.
  cbv zeta in H. rewrite H.
  destruct (out_value (submit_job eng prompt width height steps guidance seed s))
    as [e|[prompt_id sd]].
  { cbn [out_trace]. by rewrite filter_submit_job, app_nil_r. }
  destruct (monitoring_error eng cb) as [e|]; cbn [out_trace];
    rewrite !List.filter_app, filter_submit_job, filter_monitor_trace by assumption;
    by rewrite <- ?app_assoc, ?app_nil_r.
Qed.

(** X5: one call of [generate_image] asks the engine for the catalog at
    most twice, not at all when the cache is filled, in which case the
    cache stays as it is and both flags are memberships in it, and at
    least once when it is not.  A flag that is true is backed by the
    catalog that the cache holds when the call ends. *)
Theorem catalog_requests_per_call eng prompt width height steps guidance seed cb s :
  let r := generate_image eng prompt width height steps guidance seed cb s in
  let n := count_actions is_fetch (out_trace r) in
  let has_gguf_loader := (capabilities eng s).1.1 in
  let has_flux_sampling := (capabilities eng s).1.2 in
  (n <= 2)%nat /\
  fetches (out_state r) = (fetches s + n)%nat /\
  (forall nodes,
      available_nodes s = Some nodes ->
      n = 0%nat /\ available_nodes (out_state r) = Some nodes /\
      has_gguf_loader = mem_catalog nodes "UnetLoaderGGUF" /\
      has_flux_sampling = mem_catalog nodes "ModelSamplingFlux") /\
  (available_nodes s = None -> (1 <= n)%nat) /\
  (has_gguf_loader = true ->
   exists nodes, available_nodes (out_state r) = Some nodes /\
                 mem_catalog nodes "UnetLoaderGGUF" = true) /\
  (has_flux_sampling = true ->
   exists nodes, available_nodes (out_state r) = Some nodes /\
                 mem_catalog nodes "ModelSamplingFlux" = true).
Proof.
  cbv zeta. unfold count_actions.
  rewrite filter_generate_image by reflexivity.
  assert (Htail : match out_value (submit_job eng prompt width height steps guidance
                                              seed s) with
                  | inl _ => []
                  | inr (prompt_id, _) =>
                      ((if is_fetch WsConnect then [WsConnect] else []) ++
                       match websocket eng with
                       | WsOpen _ => if is_fetch WsClose then [WsClose] else []
                       | WsRefused _ => []
                       end ++
                       match monitoring_error eng cb with
                       | Some _ => []
                       | None => List.filter is_fetch (result_requests eng prompt_id)
                       end)%list
                  end = []).
  { destruct (out_value _) as [e|[prompt_id sd]]; [reflexivity|].
    cbn [is_fetch app].
    rewrite filter_result_requests by (by intros []).
    by destruct (websocket eng), (monitoring_error eng cb). }
  rewrite Htail, app_nil_r.
  assert (Hst : available_nodes (out_state (generate_image eng prompt width height
                   steps guidance seed cb s)) = available_nodes (capabilities eng s).2 /\
                fetches (out_state (generate_image eng prompt width height
                   steps guidance seed cb s)) = fetches (capabilities eng s).2).
  { pose proof (generate_image_full eng prompt width height steps guidance seed cb s) as H.
    cbv zeta in H. rewrite H.
    destruct (submit_job_state eng prompt width height steps guidance seed s)
      as (Ha & Hf & _).
    destruct (out_value _) as [e|[prompt_id sd]]; [by split|].
    destruct (monitoring_error _ _); by split. }
  destruct Hst as [-> ->].
  pose proof (capabilities_cases eng s) as Hc.
  destruct (available_nodes s) as [nodes|] eqn:Hav.
  - destruct Hc as [-> ->]. cbn [fst snd List.filter length].
    split; [lia|]. split; [lia|].
    split; [intros nodes' [= <-]; by rewrite Hav|].
    split; [discriminate|].
    split; intros Ht; exists nodes; by rewrite Hav.
  - destruct (object_info eng (fetches s)) as [nodes|].
    { destruct Hc as [-> ->]. cbn [fst snd List.filter is_fetch length available_nodes fetches].
      split; [lia|]. split; [lia|]. split; [discriminate|]. split; [lia|].
      split; intros Ht; by exists nodes. }
    destruct (object_info eng (S (fetches s))) as [nodes|]; destruct Hc as [-> ->];
      cbn [fst snd List.filter is_fetch length available_nodes fetches tick_fetches].
    + split; [lia|]. split; [lia|]. split; [discriminate|]. split; [lia|].
      split; [discriminate|]. intros Ht. by exists nodes.
    + split; [lia|]. split; [lia|]. split; [discriminate|]. split; [lia|].
      split; discriminate.
Qed.

(** X6: a call tries to connect the websocket once when a submission was
    accepted and not at all when every submission failed.  When the
    connection was made the socket is closed once, however the loop over
    its messages is left, and it is never closed otherwise.  When the connection is refused the call raises
    the exception of the connection and does nothing after the attempt;
    when no submission is accepted it raises the exception of the
    submission and does nothing after it. *)
Theorem socket_opened_iff_accepted eng prompt width height steps guidance seed cb s :
  let r := generate_image eng prompt width height steps guidance seed cb s in
  let rj := submit_job eng prompt width height steps guidance seed s in
  count_actions is_connect (out_trace r) =
    match out_value rj with inr _ => 1%nat | inl _ => 0%nat end /\
  count_actions is_close (out_trace r) =
    match out_value rj, websocket eng with
    | inr _, WsOpen _ => 1%nat
    | _, _ => 0%nat
    end /\
  (forall e, out_value rj = inl e ->
             out_value r = inl e /\ out_trace r = out_trace rj) /\
  (forall job msg,
      out_value rj = inr job -> websocket eng = WsRefused msg ->
      out_value r = inl (ClientError msg) /\
      out_trace r = (out_trace rj ++ [WsConnect])%list).
Proof.
  cbv zeta. unfold count_actions.
  rewrite !filter_generate_image by reflexivity.
  rewrite !(filter_none _ (probe_trace eng s))
    by (intros a Ha; by rewrite (in_probe_trace eng s a Ha)).
  pose proof (generate_image_full eng prompt width height steps guidance seed cb s) as H.
  cbv zeta in H. rewrite H.
  destruct (out_value (submit_job eng prompt width height steps guidance seed s))
    as [e|[prompt_id sd]].
  { split; [reflexivity|]. split; [reflexivity|].
    split; [by intros e' [= <-]|]. discriminate. }
  cbn [is_connect is_close app].
  rewrite !filter_result_requests by (by intros []).
  unfold monitoring_error, monitor_trace.
  destruct (websocket eng) as [msg|msgs].
  - split; [reflexivity|]. split; [reflexivity|]. split; [discriminate|].
    by intros job msg' _ [= <-].
  - split; [by destruct (monitor_failure cb msgs)|].
    split; [by destruct (monitor_failure cb msgs)|].
    split; discriminate.
Qed.

(** The job is accepted and the websocket is refused: the call raises the
    exception of the connection; the job is neither monitored nor looked
    up. *)
Example refused_socket_run :
  let r := generate_image engine_ws_refused "a cat" 1024 1024 20 float_3_5
                          (Some 7) true fresh in
  out_value r = inl (ClientError "handshake") /\
  out_trace r =
    [GetObjectInfo; PostPrompt (graph_of simple "a cat" 1024 1024 20 float_3_5 7);
     WsConnect].
Proof. split; reflexivity. Qed.

(** X7: the history and the image are requested only for a job that was
    accepted and whose monitoring ended without an exception: the history
    under the id of the accepted answer, the image only when the request
    for the history was answered and the history locates a first image.
    These requests are the last of the call.  After a failed submission, a
    refused connection, an execution error or a message that cannot be
    read, the call requests neither. *)
Theorem result_requested_after_completion eng prompt width height steps guidance
    seed cb s :
  let r := generate_image eng prompt width height steps guidance seed cb s in
  let rj := submit_job eng prompt width height steps guidance seed s in
  let requests :=
    match out_value rj, monitoring_error eng cb with
    | inr (prompt_id, _), None => result_requests eng prompt_id
    | _, _ => []
    end in
  List.filter is_result_request (out_trace r) = requests /\
  (exists t, out_trace r = (t ++ requests)%list /\
             List.filter is_result_request t = []) /\
  (length requests <= 2)%nat.
Proof.
  cbv zeta.
  rewrite filter_generate_image by reflexivity.
  rewrite (filter_none _ (probe_trace eng s))
    by (intros a Ha; by rewrite (in_probe_trace eng s a Ha)).
  pose proof (generate_image_full eng prompt width height steps guidance seed cb s) as H.
  cbv zeta in H. rewrite H.
  pose proof (filter_submit_job is_result_request eng prompt width height steps
                guidance seed s eq_refl (fun _ => eq_refl)) as Hj.
  rewrite (filter_none _ (probe_trace eng s)) in Hj
    by (intros a Ha; by rewrite (in_probe_trace eng s a Ha)).
  destruct (out_value (submit_job eng prompt width height steps guidance seed s))
    as [e|[prompt_id sd]].
  { split; [reflexivity|]. split; [|simpl; lia].
    eexists. cbn [out_trace]. split; [by rewrite app_nil_r|exact Hj]. }
  cbn [is_result_request app].
  assert (Hmon : List.filter is_result_request (monitor_trace eng cb) = []).
  { rewrite filter_monitor_trace by reflexivity. by destruct (websocket eng). }
  destruct (monitoring_error eng cb) as [e|]; cbn [out_trace].
  - split; [by destruct (websocket eng)|]. split; [|simpl; lia].
    eexists. split; [by rewrite app_nil_r|].
    by rewrite List.filter_app, Hj, Hmon.
  - split.
    { rewrite filter_all_result. by destruct (websocket eng). }
    split.
    + exists (out_trace (submit_job eng prompt width height steps guidance seed s)
              ++ monitor_trace eng cb)%list.
      split; [by rewrite <- app_assoc|].
      by rewrite List.filter_app, Hj, Hmon.
    + destruct (result_requests_cases eng prompt_id) as [->|(name & sub & kind & ->)];
        simpl; lia.
Qed.

Lemma submit_job_value eng prompt width height steps guidance seed s :
  let rj := submit_job eng prompt width height steps guidance seed s in
  let n := length (attempts eng (posts s) (capabilities eng s).1.1
                            (capabilities eng s).1.2) in
  match out_value rj with
  | inl e => prompt_failure (prompt_resp eng (Nat.pred n + posts s)) = Some e
  | inr (prompt_id, sd) =>
      prompt_resp eng (Nat.pred n + posts s) = PromptAccepted prompt_id /\
      sd = resolved_seed eng seed s
  end.
Proof.
  cbv zeta.
  destruct (submit_job_facts eng prompt width height steps guidance seed s)
    as (_ & -> & _).
  destruct (prompt_resp eng _) as [pid|err|msg]; simpl; auto.
Qed.


Lemma first_terminal_ends cb msgs m :
  first_terminal cb msgs = Some m -> non_terminal cb m = false.
Proof.
  induction msgs as [|x msgs IH]; [discriminate|]. cbn [first_terminal].
  destruct (non_terminal cb x) eqn:Hx; [exact IH|]. by intros [= <-].
Qed.

(** The loop raises nothing exactly when it runs to the end of the stream
    or is left on an [executing] message with node null. *)
Lemma monitor_failure_none cb msgs :
  monitor_failure cb msgs = None <->
  first_terminal cb msgs = None \/ first_terminal cb msgs = Some (MsgExecuting None).
Proof.
  unfold monitor_failure.
  destruct (first_terminal cb msgs) as [m|] eqn:Hm; [|by split; [left|]].
  apply first_terminal_ends in Hm.
  destruct m as [|value max|[node|]|data|ty| |d|d]; try discriminate Hm;
    (split; [try discriminate; by right | by intros [?|?]]).
Qed.

(** The lookup returns exactly when the history is answered and holds the
    job with its outputs, the first image list has a first entry with a
    file name and a type, and the download is answered. *)
Lemma lookup_result_returns eng prompt_id prompt width height steps guidance seed res :
  lookup_result eng prompt_id prompt width height steps guidance seed = inr res <->
  exists history entry outs info more name kind image_bytes,
    history_resp eng prompt_id = inr history /\
    history !! prompt_id = Some entry /\
    outputs entry = Some outs /\
    first_image_list outs = Some (info :: more) /\
    filename info = Some name /\
    folder_type info = Some kind /\
    view_resp eng name (default "" (subfolder info)) kind = inr image_bytes /\
    res = result_for image_bytes name prompt width height steps guidance seed.
Proof.
  unfold lookup_result, located_image. split.
  - destruct (history_resp eng prompt_id) as [failure|history]; [discriminate|].
    destruct (history !! prompt_id) as [entry|] eqn:He; [|discriminate].
    destruct (outputs entry) as [outs|] eqn:Ho; [|discriminate].
    destruct (first_image_list outs) as [[|info more]|] eqn:Hf; try discriminate.
    destruct (filename info) as [name|] eqn:Hn; [|discriminate].
    destruct (folder_type info) as [kind|] eqn:Hk; [|discriminate].
    destruct (view_resp eng name (default "" (subfolder info)) kind)
      as [msg|image_bytes] eqn:Hv; [discriminate|].
    intros [= <-]. exists history, entry, outs, info, more, name, kind, image_bytes.
    by repeat split.
  - intros (history & entry & outs & info & more & name & kind & image_bytes
            & -> & -> & -> & -> & -> & -> & Hv & ->).
    by rewrite Hv.
Qed.

(** A call returns [res] exactly when a submission was accepted, the
    socket was opened, its loop ran to the end of the stream or to an
    [executing] message with node null, and the lookup of the result
    finds, in the answered history of the accepted job, a first image with
    a file name and a type whose download is answered. *)
Lemma generate_image_value eng prompt width height steps guidance seed cb s res :
  let r := generate_image eng prompt width height steps guidance seed cb s in
  let rj := submit_job eng prompt width height steps guidance seed s in
  let sd := resolved_seed eng seed s in
  out_value r = inr res <->
  exists prompt_id msgs history entry outs info more name kind image_bytes,
    out_value rj = inr (prompt_id, sd) /\
    websocket eng = WsOpen msgs /\
    (first_terminal cb msgs = None \/
     first_terminal cb msgs = Some (MsgExecuting None)) /\
    history_resp eng prompt_id = inr history /\
    history !! prompt_id = Some entry /\
    outputs entry = Some outs /\
    first_image_list outs = Some (info :: more) /\
    filename info = Some name /\
    folder_type info = Some kind /\
    view_resp eng name (default "" (subfolder info)) kind = inr image_bytes /\
    res = result_for image_bytes name prompt width height steps guidance sd.
Proof.
  cbv zeta.
  pose proof (generate_image_full eng prompt width height steps guidance seed cb s) as H.
  cbv zeta in H. rewrite H. clear H.
  pose proof (submit_job_value eng prompt width height steps guidance seed s) as Hv.
  cbv zeta in Hv.
  destruct (out_value (submit_job eng prompt width height steps guidance seed s))
    as [e|[prompt_id sd]].
  { split; [discriminate|]. intros (? & ? & ? & ? & ? & ? & ? & ? & ? & ? & ? & _).
    discriminate. }
  destruct Hv as [_ ->]. unfold monitoring_error.
  destruct (websocket eng) as [msg|msgs] eqn:Hws; cbn [out_value].
  { split; [discriminate|].
    intros (? & ? & ? & ? & ? & ? & ? & ? & ? & ? & _ & ? & _). discriminate. }
  destruct (monitor_failure cb msgs) as [e|] eqn:Hmon; cbn [out_value].
  { split; [discriminate|].
    intros (? & msgs' & ? & ? & ? & ? & ? & ? & ? & ? & _ & [= <-] & Hterm & _).
    apply monitor_failure_none in Hterm. congruence. }
  rewrite lookup_result_returns. split.
  - intros (history & entry & outs & info & more & name & kind & image_bytes & Hres).
    exists prompt_id, msgs, history, entry, outs, info, more, name, kind, image_bytes.
    split; [reflexivity|]. split; [reflexivity|].
    split; [by apply monitor_failure_none|]. exact Hres.
  - intros (pid & msgs' & history & entry & outs & info & more & name & kind
            & image_bytes & [= <-] & _ & _ & Hres).
    by exists history, entry, outs, info, more, name, kind, image_bytes.
Qed.


(** X8: a call of [generate_image] returns a result only when a
    submission was accepted; the websocket was connected and its loop was
    left at the end of the stream or on an [executing] message with node
    null, before any execution error and any message that it cannot read;
    the request for the history was answered with a JSON object that holds
    the accepted job id with its outputs; the first image list recorded
    there has a first entry with a file name and a type; and the download
    of that file was answered.  The result is then the downloaded content
    with the metadata of the call, the resolved seed and that file name. *)
Theorem generate_image_result eng prompt width height steps guidance seed cb s res :
  let r := generate_image eng prompt width height steps guidance seed cb s in
  let rj := submit_job eng prompt width height steps guidance seed s in
  let sd := resolved_seed eng seed s in
  out_value r = inr res ->
  exists prompt_id msgs history entry outs info more name kind image_bytes,
    out_value rj = inr (prompt_id, sd) /\
    websocket eng = WsOpen msgs /\
    (first_terminal cb msgs = None \/
     first_terminal cb msgs = Some (MsgExecuting None)) /\
    history_resp eng prompt_id = inr history /\
    history !! prompt_id = Some entry /\
    outputs entry = Some outs /\
    first_image_list outs = Some (info :: more) /\
    filename info = Some name /\
    folder_type info = Some kind /\
    view_resp eng name (default "" (subfolder info)) kind = inr image_bytes /\
    res = result_for image_bytes name prompt width height steps guidance sd.
Proof.
  cbv zeta. intros Hres.
  by apply (generate_image_value eng prompt width height steps guidance seed cb s res).
Qed.

Lemma generate_image_result_witness :
  exists prompt_id msgs name image_bytes,
    out_value (submit_job engine_ok "a cat" 1024 1024 20 float_3_5 None fresh)
      = inr (prompt_id, 42) /\
    websocket engine_ok = WsOpen msgs /\
    ([Byte.x89; Byte.x50; Byte.x4e; Byte.x47],
     {| md_prompt := "a cat"; md_width := 1024; md_height := 1024;
        md_steps := 20; md_guidance := float_3_5; md_seed := 42;
        md_filename := "flux_gen_00001_.png" |})
    = result_for image_bytes name "a cat" 1024 1024 20 float_3_5 42.
Proof.
  destruct (generate_image_result engine_ok "a cat" 1024 1024 20 float_3_5 None true
              fresh
              ([Byte.x89; Byte.x50; Byte.x4e; Byte.x47],
               {| md_prompt := "a cat"; md_width := 1024; md_height := 1024;
                  md_steps := 20; md_guidance := float_3_5; md_seed := 42;
                  md_filename := "flux_gen_00001_.png" |}) eq_refl)
    as (prompt_id & msgs & history & entry & outs & info & more & name & kind
        & image_bytes & Hj & Hws & _ & _ & _ & _ & _ & _ & _ & _ & Hres).
  exists prompt_id, msgs, name, image_bytes.
  split; [exact Hj|]. split; [exact Hws|exact Hres].
Defined.

(** X24: when a submission is accepted, the websocket is connected and its
    loop meets an [executing] message with node null before any execution
    error and any message that it cannot read, the history is answered and
    holds the accepted job with its outputs, the first image list found has
    a first entry with a file name and a type, and the download is
    answered, the call returns the downloaded content with the metadata of
    the call; it has then reported the progress messages that came before
    that [executing] message and no later one, closed the socket, and made
    the two requests of the lookup, in this order, and it leaves the client
    as the submission left it. *)
Theorem generate_image_returns eng prompt width height steps guidance seed cb s
    prompt_id sd msgs history entry outs info more name kind image_bytes :
  let r := generate_image eng prompt width height steps guidance seed cb s in
  let rj := submit_job eng prompt width height steps guidance seed s in
  out_value rj = inr (prompt_id, sd) ->
  websocket eng = WsOpen msgs ->
  first_terminal cb msgs = Some (MsgExecuting None) ->
  history_resp eng prompt_id = inr history ->
  history !! prompt_id = Some entry ->
  outputs entry = Some outs ->
  first_image_list outs = Some (info :: more) ->
  filename info = Some name ->
  folder_type info = Some kind ->
  view_resp eng name (default "" (subfolder info)) kind = inr image_bytes ->
  out_value r = inr (result_for image_bytes name prompt width height steps guidance sd) /\
  out_trace r =
    (out_trace rj ++
     (WsConnect :: progress_calls cb (read_prefix cb msgs) ++ [WsClose]) ++
     [GetHistory prompt_id; GetView name (default "" (subfolder info)) kind])%list /\
  out_state r = out_state rj.
Proof.
  cbv zeta. intros Hj Hws Hterm Hh He Ho Hf Hn Hk Hv.
  pose proof (generate_image_full eng prompt width height steps guidance seed cb s) as H.
  cbv zeta in H. rewrite H, Hj. clear H.
  unfold monitoring_error, monitor_trace. rewrite Hws.
  assert (Hmon : monitor_failure cb msgs = None)
    by (apply monitor_failure_none; by right).
  rewrite Hmon.
  unfold lookup_result, result_requests, located_image.
  rewrite Hh, He, Ho, Hf, Hn, Hk, Hv. by repeat split.
Qed.

Lemma generate_image_returns_witness :
  out_value (generate_image engine_ok "a cat" 1024 1024 20 float_3_5 None true fresh) =
  inr ([Byte.x89; Byte.x50; Byte.x4e; Byte.x47],
       {| md_prompt := "a cat"; md_width := 1024; md_height := 1024;
          md_steps := 20; md_guidance := float_3_5; md_seed := 42;
          md_filename := "flux_gen_00001_.png" |}).
Proof.
  destruct (generate_image_returns engine_ok "a cat" 1024 1024 20 float_3_5 None true
              fresh "job" 42
              [MsgProgress 1 20; MsgExecuting (Some "sampler");
               MsgProgress 20 20; MsgExecuting None; MsgProgress 1 20]
              {[ "job" := {| outputs := Some
                   [("sampler", {| images := None |});
                    ("save_image",
                     {| images := Some [ {| filename := Some "flux_gen_00001_.png";
                                            subfolder := None;
                                            folder_type := Some "output" |} ] |})] |} ]}
              {| outputs := Some
                   [("sampler", {| images := None |});
                    ("save_image",
                     {| images := Some [ {| filename := Some "flux_gen_00001_.png";
                                            subfolder := None;
                                            folder_type := Some "output" |} ] |})] |}
              [("sampler", {| images := None |});
               ("save_image",
                {| images := Some [ {| filename := Some "flux_gen_00001_.png";
                                       subfolder := None;
                                       folder_type := Some "output" |} ] |})]
              {| filename := Some "flux_gen_00001_.png"; subfolder := None;
                 folder_type := Some "output" |}
              [] "flux_gen_00001_.png" "output" [Byte.x89; Byte.x50; Byte.x4e; Byte.x47]
              eq_refl eq_refl eq_refl eq_refl eq_refl eq_refl eq_refl
              eq_refl eq_refl eq_refl) as (Hv & _).
  exact Hv.
Defined.





Lemma read_prefix_all cb msgs :
  forallb (non_terminal cb) msgs = true ->
  read_prefix cb msgs = msgs /\ first_terminal cb msgs = None.
Proof.
  induction msgs as [|m msgs IH]; [done|]. cbn [forallb read_prefix first_terminal].
  intros [Hm Hrest]%andb_prop. rewrite Hm. destruct (IH Hrest) as [-> ->]. done.
Qed.

(** X10: when a submission was accepted, the websocket was connected and
    the engine closes it after messages none of which leaves the loop (no
    [executing] message with node null, no execution error, no message
    that cannot be read), the call takes the job for completed: every
    progress message is reported, the socket is closed and the result is
    looked up as after a normal end. *)
Theorem stream_end_is_completion eng prompt width height steps guidance seed cb s
    prompt_id sd msgs :
  out_value (submit_job eng prompt width height steps guidance seed s)
    = inr (prompt_id, sd) ->
  websocket eng = WsOpen msgs ->
  forallb (non_terminal cb) msgs = true ->
  let rj := submit_job eng prompt width height steps guidance seed s in
  let r := generate_image eng prompt width height steps guidance seed cb s in
  out_value r =
    out_value (fetch_result eng prompt_id prompt width height steps guidance sd
                            (out_state rj)) /\
  out_trace r =
    (out_trace rj ++
     (WsConnect :: progress_calls cb msgs ++ [WsClose]) ++
     result_requests eng prompt_id)%list.
Proof.
  intros Hj Hws Hall. cbv zeta.
  pose proof (generate_image_full eng prompt width height steps guidance seed cb s) as H.
  cbv zeta in H. rewrite H, Hj. clear H.
  unfold monitoring_error, monitor_trace, monitor_failure. rewrite Hws.
  destruct (read_prefix_all _ _ Hall) as [-> ->].
  rewrite fetch_result_run. by split.
Qed.

Lemma stream_end_is_completion_witness :
  out_value (generate_image engine_stream_ends "a cat" 1024 1024 20 float_3_5
                            (Some 7) true fresh) =
  inr ([Byte.x89; Byte.x50],
       {| md_prompt := "a cat"; md_width := 1024; md_height := 1024;
          md_steps := 20; md_guidance := float_3_5; md_seed := 7;
          md_filename := "flux_gen_00002_.png" |}).
Proof.
  destruct (stream_end_is_completion engine_stream_ends "a cat" 1024 1024 20
              float_3_5 (Some 7) true fresh "job" 7 [MsgProgress 3 20]
              eq_refl eq_refl eq_refl) as (Hv & _).
  rewrite Hv. reflexivity.
Defined.

Lemma failures_from_exact eng k : forall n i,
  (i < k)%nat ->
  (forall j, (j < i)%nat -> prompt_failure (prompt_resp eng (j + n)) <> None) ->
  prompt_failure (prompt_resp eng (i + n)) = None ->
  length (failures_from eng n k) = i.
Proof.
  induction k as [|k IH]; intros n i Hi Hfail Hok; [lia|].
  cbn [failures_from].
  destruct i as [|i].
  - simpl in Hok. by rewrite Hok.
  - destruct (prompt_failure (prompt_resp eng n)) as [e|] eqn:He.
    + cbn [length]. f_equal. apply IH; [lia| |].
      * intros j Hj. replace (j + S n)%nat with (S j + n)%nat by lia.
        apply Hfail. lia.
      * by replace (i + S n)%nat with (S i + n)%nat by lia.
    + exfalso. apply (Hfail 0%nat); [lia|exact He].
Qed.

(** X11: when the answers to the first [i] submissions of a call are
    failures and the next answer accepts the graph, [i] being less than
    the number of variants that the flags permit, the call submits the
    first [i + 1] permitted variants and no other graph, and the job it
    monitors and looks up is the one of that accepted answer. *)
Theorem first_accepted_submission eng prompt width height steps guidance seed cb s
    i prompt_id :
  let has_gguf_loader := (capabilities eng s).1.1 in
  let has_flux_sampling := (capabilities eng s).1.2 in
  let pl := plan has_gguf_loader has_flux_sampling in
  (i < length pl)%nat ->
  (forall j, (j < i)%nat -> prompt_failure (prompt_resp eng (j + posts s)) <> None) ->
  prompt_resp eng (i + posts s) = PromptAccepted prompt_id ->
  let r := generate_image eng prompt width height steps guidance seed cb s in
  let sd := resolved_seed eng seed s in
  posted (out_trace r) =
    map (fun v => graph_of v prompt width height steps guidance sd) (take (S i) pl) /\
  length (posted (out_trace r)) = S i /\
  out_value (submit_job eng prompt width height steps guidance seed s)
    = inr (prompt_id, sd) /\
  posts (out_state r) = (S i + posts s)%nat.
Proof.
  cbv zeta. intros Hi Hfail Hacc.
  set (hg := (capabilities eng s).1.1) in *. set (hf := (capabilities eng s).1.2) in *.
  assert (Hlen : length (failures_from eng (posts s) (length (plan hg hf))) = i).
  { apply failures_from_exact; [exact Hi|exact Hfail|by rewrite Hacc]. }
  assert (Hatt : attempts eng (posts s) hg hf = take (S i) (plan hg hf)).
  { unfold attempts. by rewrite Hlen. }
  rewrite generate_image_attempts. fold hg hf. rewrite Hatt.
  split; [reflexivity|].
  split; [rewrite length_map, length_take; lia|].
  destruct (submit_job_facts eng prompt width height steps guidance seed s)
    as (_ & Hv & Hp).
  cbv zeta in Hv, Hp. fold hg hf in Hv, Hp. rewrite Hatt in Hv, Hp.
  rewrite length_take in Hv, Hp.
  replace (Nat.min (S i) (length (plan hg hf))) with (S i) in Hv, Hp by lia.
  cbn [Nat.pred] in Hv. rewrite Hacc in Hv. cbn [prompt_result] in Hv.
  split; [exact Hv|].
  destruct (generate_image_posted eng prompt width height steps guidance seed cb s)
    as (_ & _ & Hps & _).
  cbv zeta in Hps. by rewrite Hps, Hp.
Qed.

Lemma first_accepted_submission_witness :
  posted (out_trace (generate_image engine_first_rejected "a cat" 1024 1024 20
                                    float_3_5 (Some 7) false fresh)) =
  [graph_of gguf "a cat" 1024 1024 20 float_3_5 7;
   graph_of standard "a cat" 1024 1024 20 float_3_5 7].
Proof.
  destruct (first_accepted_submission engine_first_rejected "a cat" 1024 1024 20
              float_3_5 (Some 7) false fresh 1%nat "job") as (Hp & _).
  - vm_compute. lia.
  - intros j Hj. assert (j = 0%nat) as -> by lia. simpl. discriminate.
  - reflexivity.
  - exact Hp.
Defined.

(** * Properties of the prompt enhancement and of the model list *)

Lemma lstrip_split p s :
  exists pre, s = (pre ++ lstrip p s)%list /\ forallb p pre = true.
Proof.
  induction s as [|c s IH]; [by exists []|]. cbn [lstrip].
  destruct (p c) eqn:Hc; [|by exists []].
  destruct IH as (pre & Heq & Hpre). exists (c :: pre).
  split; [simpl; by rewrite <- Heq|]. simpl. by rewrite Hc.
Qed.

Lemma lstrip_head p s c : head (lstrip p s) = Some c -> p c = false.
Proof.
  induction s as [|x s IH]; [discriminate|]. cbn [lstrip].
  destruct (p x) eqn:Hx; [exact IH|]. by intros [= <-].
Qed.

Lemma forallb_rev {A : Type} (p : A -> bool) (l : list A) :
  forallb p (rev l) = forallb p l.
Proof.
  induction l as [|x l IH]; [reflexivity|]. simpl.
  rewrite forallb_app, IH. simpl. rewrite andb_true_r. apply andb_comm.
Qed.

Lemma last_rev_head {A : Type} (l : list A) : last l = head (rev l).
Proof.
  destruct l as [|x l] using rev_ind; [reflexivity|].
  by rewrite last_snoc, rev_app_distr.
Qed.

Lemma rstrip_split p s :
  exists suf, s = (rstrip p s ++ suf)%list /\ forallb p suf = true.
Proof.
  unfold rstrip. destruct (lstrip_split p (rev s)) as (pre & Heq & Hpre).
  exists (rev pre). split; [|by rewrite forallb_rev].
  rewrite <- rev_app_distr, <- Heq. by rewrite rev_involutive.
Qed.

Lemma rstrip_last p s c : last (rstrip p s) = Some c -> p c = false.
Proof.
  unfold rstrip. rewrite last_rev_head, rev_involutive. apply lstrip_head.
Qed.

Lemma rstrip_head p s c :
  head (rstrip p s) = Some c -> head s = Some c.
Proof.
  destruct (rstrip_split p s) as (suf & Heq & _).
  destruct (rstrip p s) as [|x t]; [discriminate|].
  intros [= <-]. by rewrite Heq.
Qed.

Lemma strip_split p s :
  exists pre suf,
    s = (pre ++ strip p s ++ suf)%list /\
    forallb p pre = true /\ forallb p suf = true.
Proof.
  unfold strip. destruct (lstrip_split p s) as (pre & Heq & Hpre).
  destruct (rstrip_split p (lstrip p s)) as (suf & Heq' & Hsuf).
  exists pre, suf. split; [|by split]. by rewrite <- Heq', <- Heq.
Qed.

Lemma strip_ends p s c :
  (head (strip p s) = Some c -> p c = false) /\
  (last (strip p s) = Some c -> p c = false).
Proof.
  unfold strip. split.
  - intros H. apply rstrip_head in H. by apply lstrip_head in H.
  - apply rstrip_last.
Qed.

Lemma lstrip_id p s : (forall c, head s = Some c -> p c = false) -> lstrip p s = s.
Proof. destruct s as [|c s]; [done|]. intros H. simpl. by rewrite (H c). Qed.

Lemma strip_id p s :
  (forall c, head s = Some c -> p c = false) ->
  (forall c, last s = Some c -> p c = false) ->
  strip p s = s.
Proof.
  intros Hh Hl. unfold strip. rewrite (lstrip_id p s Hh). unfold rstrip.
  rewrite lstrip_id; [apply rev_involutive|].
  intros c Hc. apply Hl. by rewrite last_rev_head.
Qed.

Lemma forallb_weaken {A : Type} (p q : A -> bool) (l : list A) :
  (forall a, p a = true -> q a = true) -> forallb p l = true -> forallb q l = true.
Proof.
  intros Hpq. rewrite !forallb_forall. intros H a Ha. apply Hpq, H, Ha.
Qed.

Lemma clean_enhanced_split content :
  exists pre suf,
    content = (pre ++ clean_enhanced content ++ suf)%list /\
    forallb is_space_or_quote pre = true /\
    forallb is_space_or_quote suf = true.
Proof.
  unfold clean_enhanced.
  destruct (strip_split is_space content) as (p1 & s1 & H1 & Hp1 & Hs1).
  destruct (strip_split is_quote (strip is_space content))
    as (p2 & s2 & H2 & Hp2 & Hs2).
  exists (p1 ++ p2)%list, (s2 ++ s1)%list.
  split.
  - rewrite H1 at 1. rewrite H2 at 1. by rewrite <- !app_assoc.
  - rewrite !forallb_app. unfold is_space_or_quote.
    rewrite (forallb_weaken is_space _ p1), (forallb_weaken is_quote _ p2),
            (forallb_weaken is_space _ s1), (forallb_weaken is_quote _ s2);
      auto using orb_true_intro.
    all: intros a ->; auto using orb_true_r.
Qed.

(** X12: [enhance_prompt] returns only when the request was answered with
    status 200 and the first choice has a content; what it returns is a
    contiguous part of that content, the parts cut off at the two ends
    holding whitespace and quote characters only, and it neither starts
    nor ends with a quote.  A content that, with its whitespace removed at
    both ends, has no quote at either end is returned with no more than
    that whitespace removed. *)
Theorem enhance_prompt_result SYSTEM_PROMPT post user_prompt api_key model
    base_url enhanced :
  enhance_prompt SYSTEM_PROMPT post user_prompt api_key model base_url = inr enhanced ->
  exists request response content rest pre suf,
    chat_user request =
      (py "Transform this into a Flux 2 optimized prompt: " ++ user_prompt)%list /\
    chat_model request = model /\
    post request = Some response /\
    chat_status response = 200 /\
    chat_choices response = Some (Some content :: rest) /\
    content = (pre ++ enhanced ++ suf)%list /\
    forallb is_space_or_quote pre = true /\
    forallb is_space_or_quote suf = true /\
    (forall c, head enhanced = Some c -> is_quote c = false) /\
    (forall c, last enhanced = Some c -> is_quote c = false) /\
    ((forall c, head (strip is_space content) = Some c -> is_quote c = false) ->
     (forall c, last (strip is_space content) = Some c -> is_quote c = false) ->
     enhanced = strip is_space content /\
     (forall c, head enhanced = Some c -> is_space c = false) /\
     (forall c, last enhanced = Some c -> is_space c = false)).
Proof.
  unfold enhance_prompt.
  set (request := {| chat_url := _ |}).
  destruct (post request) as [response|] eqn:Hpost; [|discriminate].
  destruct (chat_status response =? 200) eqn:Hst; cbn [negb]; [|discriminate].
  destruct (chat_choices response) as [[|[content|] rest]|] eqn:Hch; try discriminate.
  intros [= <-].
  destruct (clean_enhanced_split content) as (pre & suf & Heq & Hpre & Hsuf).
  exists request, response, content, rest, pre, suf.
  split; [reflexivity|]. split; [reflexivity|]. split; [exact Hpost|].
  split; [by apply Z.eqb_eq|]. split; [exact Hch|]. split; [exact Heq|].
  split; [exact Hpre|]. split; [exact Hsuf|].
  split; [intros c; apply strip_ends|]. split; [intros c; apply strip_ends|].
  intros Hh Hl. unfold clean_enhanced. rewrite (strip_id is_quote _ Hh Hl).
  split; [reflexivity|]. split; intros c; apply strip_ends.
Qed.

Lemma enhance_prompt_result_witness :
  enhance_prompt [] chat_quoted (py "a cat") (py "key") (py "some/model")
                 (py "https://openrouter.ai/api/v1") = inr (py "A cat") /\
  forall c, head (py "A cat") = Some c -> is_quote c = false.
Proof.
  split; [reflexivity|].
  destruct (enhance_prompt_result [] chat_quoted (py "a cat") (py "key")
              (py "some/model") (py "https://openrouter.ai/api/v1") (py "A cat")
              eq_refl)
    as (request & response & content & rest & pre & suf & _ & _ & _ & _ & _ & _ & _ &
        _ & Hhead & _).
  exact Hhead.
Defined.

Lemma pystr_ltb_irrefl a : pystr_ltb a a = false.
Proof.
  induction a as [|x a IH]; [reflexivity|]. simpl.
  by rewrite N.ltb_irrefl.
Qed.

Lemma pystr_ltb_asym a : forall b, pystr_ltb a b = true -> pystr_ltb b a = false.
Proof.
  induction a as [|x a IH]; intros [|y b] H; try reflexivity; try discriminate.
  simpl in *.
  destruct (x <? y)%N eqn:Hxy.
  - apply N.ltb_lt in Hxy.
    destruct (y <? x)%N eqn:Hyx; [apply N.ltb_lt in Hyx; lia|reflexivity].
  - destruct (y <? x)%N eqn:Hyx; [discriminate|]. by apply IH.
Qed.

Lemma pystr_ltb_trans a : forall b c,
  pystr_ltb a b = true -> pystr_ltb b c = true -> pystr_ltb a c = true.
Proof.
  induction a as [|x a IH]; intros [|y b] [|z c] Hab Hbc;
    try reflexivity; try discriminate.
  simpl in *.
  destruct (x <? y)%N eqn:Hxy, (y <? z)%N eqn:Hyz;
    repeat match goal with
           | H : (_ <? _)%N = true |- _ => apply N.ltb_lt in H
           | H : (_ <? _)%N = false |- _ => apply N.ltb_ge in H
           end.
  - replace (x <? z)%N with true; [reflexivity|]. symmetry. apply N.ltb_lt. lia.
  - destruct (z <? y)%N eqn:Hzy; [discriminate|]. apply N.ltb_ge in Hzy.
    replace (x <? z)%N with true; [reflexivity|]. symmetry. apply N.ltb_lt. lia.
  - destruct (y <? x)%N eqn:Hyx; [discriminate|]. apply N.ltb_ge in Hyx.
    replace (x <? z)%N with true; [reflexivity|]. symmetry. apply N.ltb_lt. lia.
  - destruct (y <? x)%N eqn:Hyx; [discriminate|]. apply N.ltb_ge in Hyx.
    destruct (z <? y)%N eqn:Hzy; [discriminate|]. apply N.ltb_ge in Hzy.
    assert (x = y) by lia. assert (y = z) by lia. subst.
    rewrite N.ltb_irrefl. by apply (IH b c).
Qed.

(** A name that is not less than another is greater or equal: the order
    of names is total. *)
Lemma pystr_ltb_total a : forall b,
  pystr_ltb a b = false -> pystr_ltb b a = false -> a = b.
Proof.
  induction a as [|x a IH]; intros [|y b] Hab Hba; try reflexivity; try discriminate.
  simpl in *.
  destruct (x <? y)%N eqn:Hxy; [discriminate|].
  destruct (y <? x)%N eqn:Hyx; [discriminate|].
  apply N.ltb_ge in Hxy, Hyx. assert (x = y) by lia. subst.
  f_equal. by apply IH.
Qed.

Lemma insert_by_name_perm x l : Permutation (insert_by_name x l) (x :: l).
Proof.
  induction l as [|y l IH]; [reflexivity|]. simpl.
  destruct (pystr_ltb (model_name y) (model_name x)); [|reflexivity].
  rewrite IH. apply perm_swap.
Qed.

Lemma sort_by_name_perm l : Permutation (sort_by_name l) l.
Proof.
  induction l as [|x l IH]; [reflexivity|]. simpl.
  rewrite insert_by_name_perm. by rewrite IH.
Qed.

Lemma insert_by_name_hd x y l :
  name_le y x -> HdRel name_le y l -> HdRel name_le y (insert_by_name x l).
Proof.
  intros Hyx Hl. destruct l as [|z l]; simpl; [by constructor|].
  destruct (pystr_ltb (model_name z) (model_name x)); constructor; [|exact Hyx].
  by inversion Hl.
Qed.

Lemma insert_by_name_sorted x l :
  Sorted name_le l -> Sorted name_le (insert_by_name x l).
Proof.
  induction l as [|y l IH]; intros Hs; simpl; [by repeat constructor|].
  apply Sorted_inv in Hs as [Hs Hhd].
  destruct (pystr_ltb (model_name y) (model_name x)) eqn:Hyx.
  - constructor; [by apply IH|].
    apply insert_by_name_hd; [|exact Hhd].
    unfold name_le. by apply pystr_ltb_asym.
  - constructor; [by constructor|]. constructor. exact Hyx.
Qed.

Lemma sort_by_name_sorted l : Sorted name_le (sort_by_name l).
Proof.
  induction l as [|x l IH]; [constructor|]. simpl. by apply insert_by_name_sorted.
Qed.

(** The sort is stable: the entries of one name keep their order. *)
Lemma insert_by_name_stable n x l :
  List.filter (fun m => bool_decide (model_name m = n)) (insert_by_name x l) =
  List.filter (fun m => bool_decide (model_name m = n)) (x :: l).
Proof.
  induction l as [|y l IH]; [reflexivity|]. cbn [insert_by_name].
  destruct (pystr_ltb (model_name y) (model_name x)) eqn:Hyx; [|reflexivity].
  cbn [List.filter] in *. rewrite IH.
  destruct (bool_decide (model_name x = n)) eqn:Hx; [|reflexivity].
  destruct (bool_decide (model_name y = n)) eqn:Hy; [|reflexivity].
  apply bool_decide_eq_true in Hx, Hy. rewrite Hx, Hy, pystr_ltb_irrefl in Hyx.
  discriminate.
Qed.

Lemma sort_by_name_stable n l :
  List.filter (fun m => bool_decide (model_name m = n)) (sort_by_name l) =
  List.filter (fun m => bool_decide (model_name m = n)) l.
Proof.
  induction l as [|x l IH]; [reflexivity|]. cbn [sort_by_name].
  rewrite insert_by_name_stable. cbn [List.filter]. by rewrite IH.
Qed.

Lemma starts_with_spec x : forall s,
  starts_with x s = true <-> exists suf, s = (x ++ suf)%list.
Proof.
  induction x as [|a x IH]; intros s.
  - simpl. split; [by exists s|done].
  - destruct s as [|b s]; simpl.
    + split; [discriminate|]. intros (suf & H). discriminate.
    + rewrite andb_true_iff, N.eqb_eq, IH. split.
      * intros (-> & suf & ->). by exists suf.
      * intros (suf & [= -> ->]). split; [reflexivity|by exists suf].
Qed.

Lemma contains_spec s : forall x,
  contains s x = true <-> exists pre suf, s = (pre ++ x ++ suf)%list.
Proof.
  induction s as [|c s IH]; intros x.
  - simpl. rewrite orb_false_r, starts_with_spec. split.
    + intros (suf & H). by exists [], suf.
    + intros (pre & suf & H). symmetry in H.
      apply app_eq_nil in H as (-> & H). apply app_eq_nil in H as (-> & ->).
      by exists [].
  - cbn [contains]. rewrite orb_true_iff, starts_with_spec, IH. split.
    + intros [(suf & H)|(pre & suf & H)]; [by exists [], suf|].
      exists (c :: pre), suf. simpl. by rewrite H.
    + intros ([|c' pre] & suf & H).
      * left. by exists suf.
      * right. injection H as -> ->. by exists pre, suf.
Qed.

Lemma is_excluded_false lower id :
  is_excluded lower id = false <->
  forall x pre suf, x ∈ excluded_words -> lower id <> (pre ++ x ++ suf)%list.
Proof.
  unfold is_excluded. split.
  - intros H x pre suf Hx Heq.
    assert (Ht : existsb (fun x => contains (lower id) x) excluded_words = true).
    { apply existsb_exists. exists x. split; [by apply list_elem_of_In|].
      apply contains_spec. by exists pre, suf. }
    congruence.
  - intros H. apply not_true_is_false. intros Ht.
    apply existsb_exists in Ht as (x & Hx & Hc).
    apply contains_spec in Hc as (pre & suf & Heq).
    apply (H x pre suf); [by apply list_elem_of_In|exact Heq].
Qed.

Lemma select_models_facts lower data :
  let kept := List.filter (fun m => negb (is_excluded lower (default [] (raw_id m))))
                          data in
  let models := select_models lower data in
  Sorted name_le models /\
  Permutation models (map summarize kept) /\
  (forall n, List.filter (fun m => bool_decide (model_name m = n)) models =
             List.filter (fun m => bool_decide (model_name m = n)) (map summarize kept)) /\
  (forall m, m ∈ models ->
     is_excluded lower (model_id m) = false /\
     exists raw, raw ∈ data /\ m = summarize raw).
Proof.
  cbv zeta. unfold select_models.
  split; [apply sort_by_name_sorted|]. split; [apply sort_by_name_perm|].
  split; [intros n; apply sort_by_name_stable|].
  intros m Hm. rewrite sort_by_name_perm in Hm.
  apply list_elem_of_In, in_map_iff in Hm as (raw & <- & Hraw).
  apply List.filter_In in Hraw as [Hin Hkeep].
  split; [by apply negb_true_iff in Hkeep|].
  exists raw. split; [by apply list_elem_of_In|reflexivity].
Qed.

(** X13: when the cache is not used and the API answers with status 200
    and a JSON body, the list returned holds exactly the entries made of
    the models of the answer whose lowered id holds none of the excluded
    words, sorted by name, the entries of one name in the order of the
    answer; and a cache that can be written holds that list afterwards. *)
Theorem models_fetched lower api write api_key force_refresh cache response data :
  force_refresh = true \/ read_cache cache = None ->
  api api_key = Some response ->
  models_status response = 200 ->
  models_body response = Some data ->
  let kept := List.filter (fun m => negb (is_excluded lower (default [] (raw_id m))))
                          (default [] data) in
  exists models cache',
    fetch_available_models lower api write api_key force_refresh cache =
      (models, cache', true) /\
    Sorted name_le models /\
    Permutation models (map summarize kept) /\
    (forall n, List.filter (fun m => bool_decide (model_name m = n)) models =
               List.filter (fun m => bool_decide (model_name m = n))
                           (map summarize kept)) /\
    (forall m x pre suf, m ∈ models -> x ∈ excluded_words ->
                         lower (model_id m) <> (pre ++ x ++ suf)%list) /\
    (write = Written -> cache' = Some (CacheData models)).
Proof.
  intros Hcache Hapi Hst Hbody. cbv zeta.
  unfold fetch_available_models.
  assert (Hmiss : (if force_refresh then None else read_cache cache) = None).
  { destruct Hcache as [->| ->]; [reflexivity|by destruct force_refresh]. }
  rewrite Hmiss, Hapi, Hst, Hbody. cbn [Z.eqb negb].
  replace (Pos.eqb 200 200) with true by reflexivity. cbn [negb].
  destruct (select_models_facts lower (default [] data)) as (Hs & Hp & Hn & Hm).
  eexists _, _. split; [reflexivity|].
  split; [exact Hs|]. split; [exact Hp|]. split; [exact Hn|].
  split.
  - intros m x pre suf Hin Hx. destruct (Hm m Hin) as (Hex & _).
    by apply (is_excluded_false lower (model_id m)).
  - by intros ->.
Qed.

Lemma models_fetched_witness :
  (fetch_available_models ascii_lower models_answer Written (py "key") true None).1.1 =
  [ {| model_id := py "b/beta"; model_name := py "Beta"; model_description := [];
       model_context_length := 0; model_pricing := [] |};
    {| model_id := py "z/zeta"; model_name := py "Zeta"; model_description := [];
       model_context_length := 0; model_pricing := [] |};
    {| model_id := py "m/mu"; model_name := py "m/mu"; model_description := py "mid";
       model_context_length := 8192; model_pricing := [] |} ] /\
  Sorted name_le
    (fetch_available_models ascii_lower models_answer Written (py "key") true None).1.1.
Proof.
  split; [reflexivity|].
  destruct (models_fetched ascii_lower models_answer Written (py "key") true None
              {| models_status := 200;
                 models_body := default None (models_body <$> models_answer []) |}
              (default None (default None (models_body <$> models_answer []))))
    as (models & cache' & Heq & Hs & _).
  - by left.
  - reflexivity.
  - reflexivity.
  - reflexivity.
  - rewrite Heq. exact Hs.
Defined.

(** X14: a list fetched from the API and written to the cache is what
    every later call without [force_refresh] returns, without asking the
    API, whatever the API would answer then; the cache stays as it is. *)
Theorem models_cache_round_trip lower api write api_key force_refresh cache
    response data api' write' api_key' :
  force_refresh = true \/ read_cache cache = None ->
  api api_key = Some response ->
  models_status response = 200 ->
  models_body response = Some data ->
  write = Written ->
  let first := fetch_available_models lower api write api_key force_refresh cache in
  fetch_available_models lower api' write' api_key' false first.1.2 =
  (first.1.1, first.1.2, false).
Proof.
  intros Hcache Hapi Hst Hbody Hw. cbv zeta.
  destruct (models_fetched lower api write api_key force_refresh cache response data
              Hcache Hapi Hst Hbody) as (models & cache' & -> & _ & _ & _ & _ & Hc).
  cbn [fst snd]. rewrite (Hc Hw). reflexivity.
Qed.

Lemma models_cache_round_trip_witness :
  fetch_available_models ascii_lower (fun _ => None) (WriteFailed None) (py "other")
    false
    (fetch_available_models ascii_lower models_answer Written (py "key") true None).1.2
  = ((fetch_available_models ascii_lower models_answer Written (py "key") true None).1.1,
     (fetch_available_models ascii_lower models_answer Written (py "key") true None).1.2,
     false).
Proof.
  apply (models_cache_round_trip ascii_lower models_answer Written (py "key") true None
           {| models_status := 200;
              models_body := default None (models_body <$> models_answer []) |}
           (default None (default None (models_body <$> models_answer [])))).
  - by left.
  - reflexivity.
  - reflexivity.
  - reflexivity.
  - reflexivity.
Defined.

Ltac fallback_case Hfallback Hcache :=
  cbn [fst snd]; split; [exact Hfallback|]; split; [exact Hcache|];
  split; [discriminate|]; intros Hne; by destruct Hne.

(** X15: when the cache file, if it can be read, holds a list that is
    sorted by name and free of excluded models, and a failed writing leaves
    such a file, every call returns such a list and leaves such a cache:
    whether the list comes from the cache, from the API, or is the cache or
    the empty list after a failure of the API, with or without
    [force_refresh]. *)
Theorem models_well_formed lower api write api_key force_refresh cache :
  well_formed_cache lower cache ->
  (forall remains, write = WriteFailed remains -> well_formed_cache lower remains) ->
  let r := fetch_available_models lower api write api_key force_refresh cache in
  well_formed_models lower r.1.1 /\
  well_formed_cache lower r.1.2 /\
  (r.2 = false -> force_refresh = false /\ read_cache cache = Some r.1.1) /\
  (r.1.2 <> cache -> exists response data,
       api api_key = Some response /\ models_status response = 200 /\
       models_body response = Some data).
Proof.
  intros Hcache Hwrite. cbv zeta.
  assert (Hempty : well_formed_models lower []).
  { split; [constructor|]. intros m Hm. by apply elem_of_nil in Hm. }
  assert (Hfallback : well_formed_models lower (cache_or_empty cache)).
  { unfold cache_or_empty. unfold well_formed_cache in Hcache.
    destruct (read_cache cache); [exact Hcache|exact Hempty]. }
  unfold fetch_available_models.
  destruct force_refresh.
  - destruct (api api_key) as [response|] eqn:Hapi; [|fallback_case Hfallback Hcache].
    destruct (models_status response =? 200) eqn:Hst; cbn [negb]; [|fallback_case Hfallback Hcache].
    destruct (models_body response) as [data|] eqn:Hbody; [|fallback_case Hfallback Hcache].
    cbn [fst snd].
    destruct (select_models_facts lower (default [] data)) as (Hs & _ & _ & Hm).
    assert (Hnew : well_formed_models lower (select_models lower (default [] data))).
    { split; [exact Hs|]. intros m Hin. by destruct (Hm m Hin). }
    split; [exact Hnew|].
    split; [destruct write as [|remains]; [exact Hnew|by apply Hwrite]|].
    split; [discriminate|].
    intros _. exists response, data. apply Z.eqb_eq in Hst. by repeat split.
  - destruct (read_cache cache) as [cached|] eqn:Hread.
    { cbn [fst snd]. unfold well_formed_cache in Hcache. rewrite Hread in Hcache.
      split; [exact Hcache|]. split; [unfold well_formed_cache; by rewrite Hread|].
      split; [done|]. done. }
    destruct (api api_key) as [response|] eqn:Hapi; [|fallback_case Hfallback Hcache].
    destruct (models_status response =? 200) eqn:Hst; cbn [negb]; [|fallback_case Hfallback Hcache].
    destruct (models_body response) as [data|] eqn:Hbody; [|fallback_case Hfallback Hcache].
    cbn [fst snd].
    destruct (select_models_facts lower (default [] data)) as (Hs & _ & _ & Hm).
    assert (Hnew : well_formed_models lower (select_models lower (default [] data))).
    { split; [exact Hs|]. intros m Hin. by destruct (Hm m Hin). }
    split; [exact Hnew|].
    split; [destruct write as [|remains]; [exact Hnew|by apply Hwrite]|].
    split; [discriminate|].
    intros _. exists response, data. apply Z.eqb_eq in Hst. by repeat split.
Qed.

(** The cache holds two models, the API answers with four, of which three
    are kept, and the writing of the cache fails, leaving a file with the
    first model only: the call returns the three, sorted and free of
    excluded models, and leaves the cache that the failed writing left. *)
Lemma models_well_formed_witness :
  let r := fetch_available_models ascii_lower models_answer
             (WriteFailed (Some (CacheData (take 1 cached_models)))) (py "key")
             true (Some (CacheData cached_models)) in
  well_formed_cache ascii_lower (Some (CacheData cached_models)) /\
  well_formed_models ascii_lower r.1.1 /\
  map model_name r.1.1 = [py "Beta"; py "Zeta"; py "m/mu"] /\
  well_formed_cache ascii_lower r.1.2 /\
  read_cache r.1.2 = Some (take 1 cached_models).
Proof.
  assert (Hcache : well_formed_cache ascii_lower (Some (CacheData cached_models))).
  { split; [repeat constructor|]. intros m Hm.
    repeat (apply elem_of_cons in Hm as [->|Hm]; [reflexivity|]).
    by apply elem_of_nil in Hm. }
  destruct (models_well_formed ascii_lower models_answer
              (WriteFailed (Some (CacheData (take 1 cached_models)))) (py "key")
              true (Some (CacheData cached_models))) as (Hmodels & Hafter & _).
  - exact Hcache.
  - intros remains [= <-]. split; [repeat constructor|]. intros m Hm.
    repeat (apply elem_of_cons in Hm as [->|Hm]; [reflexivity|]).
    by apply elem_of_nil in Hm.
  - cbv zeta. split; [exact Hcache|]. split; [exact Hmodels|].
    split; [reflexivity|]. split; [exact Hafter|reflexivity].
Defined.

(** * Properties of the endpoints *)

Lemma insert_desc_perm x l : Permutation (insert_desc x l) (x :: l).
Proof.
  induction l as [|y l IH]; [reflexivity|]. simpl.
  destruct (pystr_ltb x y); [|reflexivity].
  rewrite IH. apply perm_swap.
Qed.

Lemma sort_desc_perm l : Permutation (sort_desc l) l.
Proof.
  induction l as [|x l IH]; [reflexivity|]. simpl.
  rewrite insert_desc_perm. by rewrite IH.
Qed.

Lemma insert_desc_sorted x l :
  x ∉ l -> StronglySorted name_gt l -> StronglySorted name_gt (insert_desc x l).
Proof.
  induction l as [|y l IH]; intros Hx Hs; simpl; [by repeat constructor|].
  apply StronglySorted_inv in Hs as [Hs Hall].
  apply not_elem_of_cons in Hx as [Hxy Hx].
  destruct (pystr_ltb x y) eqn:Hlt.
  - constructor; [by apply IH|].
    rewrite Forall_forall. intros z Hz.
    rewrite insert_desc_perm in Hz. apply elem_of_cons in Hz as [->|Hz].
    + exact Hlt.
    + rewrite Forall_forall in Hall. by apply Hall.
  - assert (Hyx : pystr_ltb y x = true).
    { destruct (pystr_ltb y x) eqn:Hyx; [reflexivity|].
      exfalso. apply Hxy. by apply pystr_ltb_total. }
    constructor; [by constructor|].
    constructor; [exact Hyx|].
    rewrite Forall_forall in Hall |- *. intros z Hz.
    unfold name_gt in *. eapply pystr_ltb_trans; [by apply Hall|exact Hyx].
Qed.

Lemma sort_desc_sorted l : NoDup l -> StronglySorted name_gt (sort_desc l).
Proof.
  induction l as [|x l IH]; intros Hnd; [constructor|]. simpl.
  apply NoDup_cons in Hnd as [Hx Hnd].
  apply insert_desc_sorted; [|by apply IH].
  by rewrite sort_desc_perm.
Qed.

Lemma NoDup_filter_list {A : Type} (p : A -> bool) (l : list A) :
  NoDup l -> NoDup (List.filter p l).
Proof.
  induction l as [|x l IH]; intros Hnd; [constructor|]. simpl.
  apply NoDup_cons in Hnd as [Hx Hnd].
  destruct (p x); [|by apply IH].
  apply NoDup_cons. split; [|by apply IH].
  intros Hin. apply Hx. apply list_elem_of_In, List.filter_In in Hin as [Hin _].
  by apply list_elem_of_In.
Qed.

Lemma gallery_names_spec fs :
  StronglySorted name_gt (gallery_names fs) /\
  forall name, name ∈ gallery_names fs <-> is_Some (fs !! name) /\ is_png name = true.
Proof.
  unfold gallery_names. split.
  - apply sort_desc_sorted, NoDup_filter_list.
    change (map fst (map_to_list fs)) with ((map_to_list fs).*1).
    apply NoDup_fst_map_to_list.
  - intros name. rewrite sort_desc_perm.
    rewrite list_elem_of_In, List.filter_In, <- list_elem_of_In.
    change (map fst (map_to_list fs)) with ((map_to_list fs).*1).
    rewrite list_elem_of_fmap. split.
    + intros [([k v] & -> & Hkv) Hpng]. split; [|exact Hpng].
      apply elem_of_map_to_list in Hkv. by exists v.
    + intros [[v Hv] Hpng]. split; [|exact Hpng].
      exists (name, v). split; [reflexivity|]. by apply elem_of_map_to_list.
Qed.

Lemma gallery_entries_spec json_sibling mtime fs names :
  match gallery_entries json_sibling mtime fs names with
  | Some images =>
      map gallery_filename images = names /\
      Forall (fun img => gallery_entry json_sibling mtime fs (gallery_filename img)
                         = Some img) images
  | None => exists name, name ∈ names /\
                         unreadable_metadata fs (json_sibling name)
  end.
Proof.
  induction names as [|name names IH]; [by split|]. cbn [gallery_entries].
  destruct (gallery_entry json_sibling mtime fs name) as [img|] eqn:He.
  - destruct (gallery_entries json_sibling mtime fs names) as [images|].
    + destruct IH as [Hn Hall].
      assert (Hname : gallery_filename img = name).
      { unfold gallery_entry in He.
        destruct (fs !! json_sibling name) as [[|[b|v]]|]; try discriminate;
          by injection He as <-. }
      split; [simpl; by rewrite Hname, Hn|].
      constructor; [by rewrite Hname|exact Hall].
    + destruct IH as (n & Hn & Hu). exists n. split; [by right|exact Hu].
  - exists name. split; [by left|].
    unfold gallery_entry in He. unfold unreadable_metadata.
    destruct (fs !! json_sibling name) as [[|[b|v]]|]; try discriminate;
      [by left|right; by exists b].
Qed.

Lemma StronglySorted_map {A B : Type} (R : B -> B -> Prop) (f : A -> B) (l : list A) :
  StronglySorted R (map f l) -> StronglySorted (fun a b => R (f a) (f b)) l.
Proof.
  induction l as [|x l IH]; intros Hs; [constructor|]. simpl in Hs.
  apply StronglySorted_inv in Hs as [Hs Hall]. constructor; [by apply IH|].
  rewrite Forall_forall in Hall. rewrite Forall_forall. intros y Hy. apply Hall.
  apply list_elem_of_In, in_map, list_elem_of_In, Hy.
Qed.

(** X16: when [/gallery] answers, it lists at most 50 images, each the
    name of a [*.png] entry of the output directory with the URL
    [/outputs/] followed by that name, and with the JSON of its metadata
    file or the empty dict when there is none; the names are in strictly
    descending order, and an image of the directory that is not listed has
    a name below all 50 that are. *)
Theorem gallery_listing json_sibling mtime fs images :
  get_gallery json_sibling mtime fs = Ok images ->
  (length images <= 50)%nat /\
  StronglySorted (fun a b => name_gt (gallery_filename a) (gallery_filename b)) images /\
  (forall img, img ∈ images ->
     is_Some (fs !! gallery_filename img) /\
     is_png (gallery_filename img) = true /\
     gallery_url img = (py "/outputs/" ++ gallery_filename img)%list /\
     gallery_created img = mtime (gallery_filename img) /\
     gallery_metadata img =
       match fs !! json_sibling (gallery_filename img) with
       | Some (File (Json v)) => v
       | _ => JDict []
       end) /\
  (forall name, is_Some (fs !! name) -> is_png name = true ->
     name ∈ map gallery_filename images \/
     (length images = 50%nat /\
      forall img, img ∈ images -> name_gt (gallery_filename img) name)).
Proof.
  unfold get_gallery. intros Hg.
  pose proof (gallery_entries_spec json_sibling mtime fs (gallery_names fs)) as Hspec.
  destruct (gallery_entries json_sibling mtime fs (gallery_names fs)) as [all|];
    [|discriminate].
  injection Hg as <-. destruct Hspec as [Hnames Hall].
  destruct (gallery_names_spec fs) as [Hsorted Hmem].
  rewrite <- Hnames in Hsorted, Hmem.
  apply StronglySorted_map in Hsorted.
  rewrite <- (take_drop 50 all) in Hsorted.
  split; [rewrite length_take; lia|].
  split; [by apply StronglySorted_app_1_l in Hsorted|].
  split.
  - intros img Himg.
    assert (Hin : img ∈ all).
    { apply elem_of_take in Himg as (i & Hi & _). by eapply list_elem_of_lookup_2. }
    rewrite Forall_forall in Hall. specialize (Hall img Hin).
    assert (Hn : gallery_filename img ∈ map gallery_filename all).
    { by apply list_elem_of_In, in_map, list_elem_of_In. }
    apply Hmem in Hn as [Hsome Hpng].
    split; [exact Hsome|]. split; [exact Hpng|].
    unfold gallery_entry in Hall.
    destruct (fs !! json_sibling (gallery_filename img)) as [[|[b|v]]|];
      try discriminate; injection Hall as Hall; rewrite <- Hall; by repeat split.
  - intros name Hsome Hpng.
    assert (Hn : name ∈ map gallery_filename all) by (by apply Hmem).
    rewrite <- (take_drop 50 all), map_app in Hn.
    apply elem_of_app in Hn as [Hn|Hn]; [by left|]. right.
    apply list_elem_of_In, in_map_iff in Hn as (late & <- & Hlate).
    apply list_elem_of_In in Hlate.
    assert (Hlen : (50 <= length all)%nat).
    { destruct (Nat.le_gt_cases 50 (length all)) as [H|H]; [exact H|].
      rewrite drop_ge in Hlate by lia. by apply elem_of_nil in Hlate. }
    split; [rewrite length_take; lia|].
    intros img Himg.
    by apply (StronglySorted_app_1_elem_of _ _ _ _ _ Hsorted).
Qed.

Lemma gallery_listing_witness :
  map gallery_filename
      (match get_gallery replace_suffix (fun _ => float_1_0) outputs_two with
       | Ok images => images
       | _ => []
       end) =
  [py "flux_20240102_000000.png"; py "flux_20240101_000000.png"].
Proof.
  assert (Hg : exists images,
             get_gallery replace_suffix (fun _ => float_1_0) outputs_two = Ok images /\
             map gallery_filename images =
             [py "flux_20240102_000000.png"; py "flux_20240101_000000.png"]).
  { eexists. split; vm_compute; reflexivity. }
  destruct Hg as (images & Hg & Hn).
  destruct (gallery_listing replace_suffix (fun _ => float_1_0) outputs_two images Hg)
    as (_ & _ & _ & _).
  rewrite Hg. exact Hn.
Defined.



(** X18: [DELETE /gallery/{filename}] touches no entry of the output
    directory but the named one and its metadata file.  It succeeds
    exactly when the name stands for a file and the metadata file, if it is
    another name, is not a folder; both names are then gone and a second
    request for the same name answers 404.  It answers 404 and changes
    nothing when the name is absent.  When the metadata file is a folder
    the request fails with the image already deleted. *)
Theorem delete_image_effect json_sibling filename fs :
  let r := delete_image json_sibling filename fs in
  (forall other, other <> filename -> other <> json_sibling filename ->
                 r.2 !! other = fs !! other) /\
  (r.1 = Ok tt <->
   (exists c, fs !! filename = Some (File c)) /\
   (json_sibling filename = filename \/ fs !! json_sibling filename <> Some Dir)) /\
  (r.1 = Ok tt ->
   r.2 !! filename = None /\ r.2 !! json_sibling filename = None /\
   delete_image json_sibling filename r.2 = (HttpError 404 (py "Image not found"), r.2)) /\
  (fs !! filename = None -> r = (HttpError 404 (py "Image not found"), fs)) /\
  (forall c, fs !! filename = Some (File c) ->
             json_sibling filename <> filename ->
             fs !! json_sibling filename = Some Dir ->
             r = (Unhandled, delete filename fs)).
Proof.
  cbv zeta. unfold delete_image.
  destruct (fs !! filename) as [[|c]|] eqn:Hf; cbn [fst snd].
  - split; [done|]. split; [|by repeat split].
    split; [discriminate|]. intros [(c & [=]) _].
  - destruct (decide (json_sibling filename = filename)) as [Heq|Hne].
    + rewrite Heq, lookup_delete_eq. cbn [fst snd].
      split; [intros other Ho _; by rewrite lookup_delete_ne|].
      split; [split; [intros _; split; [by exists c|by left]|done]|].
      split.
      { intros _. rewrite lookup_delete_eq. by repeat split. }
      split; [discriminate|]. intros c' _ Hc. by destruct Hc.
    + rewrite lookup_delete_ne by done.
      destruct (fs !! json_sibling filename) as [[|c']|] eqn:Hs; cbn [fst snd].
      * split; [intros other Ho _; by rewrite lookup_delete_ne|].
        split; [split; [discriminate|by intros [_ [?|?]]]|].
        split; [discriminate|]. split; [discriminate|]. done.
      * split; [intros other Ho Ho'; by rewrite !lookup_delete_ne|].
        split; [split; [intros _; split; [by exists c|by right]|done]|].
        split.
        { intros _. rewrite lookup_delete_ne, lookup_delete_eq by done.
          rewrite lookup_delete_eq. by repeat split. }
        split; [discriminate|]. discriminate.
      * split; [intros other Ho Ho'; by rewrite !lookup_delete_ne|].
        split; [split; [intros _; split; [by exists c|by right]|done]|].
        split.
        { intros _. rewrite lookup_delete_eq, lookup_delete_ne, Hs by done.
          by repeat split. }
        split; [discriminate|]. discriminate.
  - split; [done|]. split; [|by repeat split].
    split; [discriminate|]. intros [(c & [=]) _].
Qed.

Lemma dict_get_set_eq k v d : dict_get k (dict_set k v d) = Some v.
Proof.
  induction d as [|[k' v'] d IH]; simpl.
  - by rewrite bool_decide_eq_true_2.
  - destruct (bool_decide (k' = k)) eqn:Hk; simpl.
    + by rewrite bool_decide_eq_true_2.
    + by rewrite Hk.
Qed.

Lemma dict_get_set_ne k k' v d : k <> k' -> dict_get k' (dict_set k v d) = dict_get k' d.
Proof.
  intros Hne. induction d as [|[k0 v0] d IH]; simpl.
  - by rewrite bool_decide_eq_false_2.
  - destruct (bool_decide (k0 = k)) eqn:Hk; simpl.
    + apply bool_decide_eq_true in Hk. subst k0.
      by rewrite !bool_decide_eq_false_2.
    + destruct (bool_decide (k0 = k')); [reflexivity|exact IH].
Qed.

Lemma image_name_ne_metadata timestamp : image_name timestamp <> metadata_name timestamp.
Proof.
  intros Heq. apply (f_equal length) in Heq.
  unfold image_name, metadata_name in Heq. rewrite !length_app in Heq.
  simpl in Heq. lia.
Qed.

Lemma is_png_image_name timestamp : is_png (image_name timestamp) = true.
Proof.
  unfold is_png, image_name. rewrite !rev_app_distr, <- app_assoc.
  apply starts_with_spec. by eexists.
Qed.

Lemma write_file_stored w folder_error name content fs fs' :
  write_file w folder_error name content fs = (None, fs') ->
  w = Stored /\ fs !! name <> Some Dir /\ fs' = <[name := File content]> fs.
Proof.
  unfold write_file.
  destruct (fs !! name) as [[|c]|]; [discriminate| |];
    destruct w as [|e [c'|]]; try discriminate; by intros [= <-].
Qed.

Lemma write_file_raises w folder_error name content fs e fs' :
  write_file w folder_error name content fs = (Some e, fs') ->
  fs' = fs \/ exists c, fs' = <[name := File c]> fs.
Proof.
  unfold write_file.
  destruct (fs !! name) as [[|c]|]; [intros [= _ <-]; by left| |];
    destruct w as [|e' [c'|]]; try discriminate; intros [= _ <-]; eauto.
Qed.

Lemma write_file_other w folder_error name content fs other :
  other <> name ->
  (write_file w folder_error name content fs).2 !! other = fs !! other.
Proof.
  intros Hne. unfold write_file.
  destruct (fs !! name) as [[|c]|]; [reflexivity| |];
    destruct w as [|e [c'|]]; cbn [snd]; by rewrite ?lookup_insert_ne.
Qed.

(** X19: after a request to [/generate] that reports success, the URL of
    the response names a [*.png] file of the output directory that holds
    the bytes of the image, whatever file stood under that name before,
    and the metadata file beside it holds the metadata of the response.
    When [with_suffix] maps the image name to that metadata name, the
    gallery entry of the image carries the URL and the metadata of the
    response, and a request to delete the image removes both files, after
    which the image is no longer served. *)
Theorem generate_then_serve json_sibling mtime c key request fs :
  let r := generate_endpoint c key request fs in
  let filename := image_name (clock_timestamp c) in
  let metadata_file := metadata_name (clock_timestamp c) in
  resp_success r.1 = true ->
  exists image_bytes,
    resp_image_url r.1 = Some (py "/outputs/" ++ filename)%list /\
    resp_image_base64 r.1 = Some (b64encode c image_bytes) /\
    is_png filename = true /\
    get_output filename r.2 = Ok (Binary image_bytes) /\
    get_output metadata_file r.2 = Ok (Json (JDict (resp_metadata r.1))) /\
    (json_sibling filename = metadata_file ->
     gallery_entry json_sibling mtime r.2 filename =
       Some {| gallery_filename := filename;
               gallery_url := (py "/outputs/" ++ filename)%list;
               gallery_created := mtime filename;
               gallery_metadata := JDict (resp_metadata r.1) |} /\
     let d := delete_image json_sibling filename r.2 in
     d.1 = Ok tt /\
     get_output filename d.2 = HttpError 404 (py "Image not found") /\
     get_output metadata_file d.2 = HttpError 404 (py "Image not found")).
Proof.
  cbv zeta. unfold generate_endpoint.
  destruct (call_generate c _ _ _ _ _ _) as [e|[image_bytes metadata]];
    cbn [fst snd resp_success failure_response]; [discriminate|].
  fold (image_name (clock_timestamp c)). fold (metadata_name (clock_timestamp c)).
  set (filename := image_name (clock_timestamp c)).
  set (metadata_file := metadata_name (clock_timestamp c)).
  assert (Hne : filename <> metadata_file) by apply image_name_ne_metadata.
  destruct (write_file (write_image c) _ filename _ fs) as [[e|] fs1] eqn:Hw1;
    cbn [fst snd resp_success failure_response]; [discriminate|].
  apply write_file_stored in Hw1 as (_ & _ & ->).
  set (full := dict_set _ _ _).
  destruct (write_file (write_metadata c) _ metadata_file _ _) as [[e|] fs2] eqn:Hw2;
    cbn [fst snd resp_success failure_response]; [discriminate|].
  apply write_file_stored in Hw2 as (_ & _ & ->).
  intros _. exists image_bytes.
  cbn [resp_image_url resp_image_base64 resp_metadata].
  split; [reflexivity|]. split; [reflexivity|].
  split; [apply is_png_image_name|].
  unfold get_output.
  split; [by rewrite lookup_insert_ne, lookup_insert_eq|].
  split; [by rewrite lookup_insert_eq|].
  intros Hsib. unfold gallery_entry, delete_image. rewrite Hsib.
  rewrite lookup_insert_eq. split; [reflexivity|].
  rewrite (lookup_insert_ne _ metadata_file filename) by done.
  rewrite lookup_insert_eq.
  rewrite lookup_delete_ne, lookup_insert_eq by done. cbn [fst snd].
  split; [reflexivity|].
  split.
  - by rewrite lookup_delete_ne, lookup_delete_eq.
  - by rewrite lookup_delete_eq.
Qed.

Lemma generate_then_serve_witness :
  exists image_bytes,
    get_output (image_name (clock_timestamp collaborators_plain))
               (generate_endpoint collaborators_plain (py "key") request_cat
                                  outputs_two).2
    = Ok (Binary image_bytes) /\
    is_png (image_name (clock_timestamp collaborators_plain)) = true.
Proof.
  destruct (generate_then_serve replace_suffix (fun _ => float_1_0) collaborators_plain
              (py "key") request_cat outputs_two eq_refl)
    as (image_bytes & _ & _ & Hpng & Hget & _).
  exists image_bytes. split; [exact Hget|exact Hpng].
Defined.

(** X20: a request to [/generate] whose enhancement cannot be had,
    because no key is configured or because the enhancer raises, is served
    as the same request with the enhancement switched off: the same
    response, without an enhanced prompt, and the same output directory.
    The failure of the enhancer is never the failure of the request. *)
Theorem enhancement_failure_is_silent c key request fs :
  key = [] \/
  call_enhance c (req_prompt request) key (req_enhancement_model request) = None ->
  let r := generate_endpoint c key request fs in
  r = generate_endpoint c key (without_enhancement request) fs /\
  resp_enhanced_prompt r.1 = None /\
  resp_original_prompt r.1 = req_prompt request.
Proof.
  intros Hno. cbv zeta.
  assert (He : enhance_for c key request = None).
  { unfold enhance_for. destruct Hno as [->|Hn].
    - rewrite bool_decide_eq_true_2 by done. by rewrite andb_false_r.
    - rewrite Hn. by destruct (_ && _)%bool. }
  assert (He' : enhance_for c key (without_enhancement request) = None) by reflexivity.
  unfold generate_endpoint. rewrite He, He'.
  change (resolve_steps (without_enhancement request)) with (resolve_steps request).
  change (resolve_guidance (without_enhancement request))
    with (resolve_guidance request).
  cbn [without_enhancement req_prompt req_width req_height req_seed
       req_quality_preset default].
  destruct (call_generate c _ _ _ _ _ _) as [e|[image_bytes metadata]];
    [by repeat split|].
  destruct (write_file (write_image c) _ _ _ fs) as [[e|] fs1]; [by repeat split|].
  destruct (write_file (write_metadata c) _ _ _ fs1) as [[e|] fs2]; by repeat split.
Qed.

Lemma enhancement_failure_is_silent_witness :
  resp_success (generate_endpoint collaborators_plain (py "key") request_cat
                                  outputs_two).1 = true /\
  resp_enhanced_prompt (generate_endpoint collaborators_plain (py "key") request_cat
                                          outputs_two).1 = None.
Proof.
  destruct (enhancement_failure_is_silent collaborators_plain (py "key") request_cat
              outputs_two) as (Heq & Hnone & _).
  - right. reflexivity.
  - split; [|exact Hnone]. rewrite Heq. reflexivity.
Defined.

(** X21: the response and the files of [/generate] depend on the image
    client through one call only: with the enhanced prompt when there is
    one and the prompt of the request otherwise, the width, height and
    seed of the request, and its steps and guidance, where a value that the
    request leaves out is the one of the named preset, and of the preset
    [mid] when the name is no preset.  Two clients that answer this one
    call alike give the same response and the same directory, whatever
    they answer to other calls.  Steps and guidance given in the request
    are passed as they are. *)
Theorem generation_call c c' key request fs :
  call_enhance c' = call_enhance c ->
  clock_timestamp c' = clock_timestamp c ->
  clock_generation_time c' = clock_generation_time c ->
  b64encode c' = b64encode c ->
  write_image c' = write_image c ->
  write_metadata c' = write_metadata c ->
  is_a_directory c' = is_a_directory c ->
  let final_prompt := default (req_prompt request) (enhance_for c key request) in
  call_generate c' final_prompt (req_width request) (req_height request)
                (resolve_steps request) (resolve_guidance request) (req_seed request) =
  call_generate c final_prompt (req_width request) (req_height request)
                (resolve_steps request) (resolve_guidance request) (req_seed request) ->
  generate_endpoint c' key request fs = generate_endpoint c key request fs /\
  (forall s, req_steps request = Some s -> resolve_steps request = s) /\
  (forall g, req_guidance request = Some g -> resolve_guidance request = g) /\
  (req_steps request = None ->
   resolve_steps request =
     if bool_decide (req_quality_preset request = py "basic") then 2
     else if bool_decide (req_quality_preset request = py "high") then 8
     else 4).
Proof.
  intros Henh Hts Hgt Hb64 Hwi Hwm Hdir. cbv zeta. intros Hgen.
  split.
  - unfold generate_endpoint.
    assert (He : enhance_for c' key request = enhance_for c key request)
      by (unfold enhance_for; by rewrite Henh).
    rewrite He, Hgen, Hts, Hgt, Hb64, Hwi, Hwm, Hdir. reflexivity.
  - unfold resolve_steps, resolve_guidance.
    split; [by intros s ->|]. split; [by intros g ->|].
    intros ->. unfold QUALITY_PRESETS.
    destruct (bool_decide (req_quality_preset request = py "basic")) eqn:Hb;
      [reflexivity|].
    destruct (bool_decide (req_quality_preset request = py "mid")) eqn:Hm.
    { apply bool_decide_eq_true in Hm. rewrite Hm. reflexivity. }
    by destruct (bool_decide (req_quality_preset request = py "high")).
Qed.

(** The request names no known preset and gives no steps: the client is
    asked for the four steps of [mid], and a client that is busy on every
    other number of steps serves the request as the plain one does. *)
Lemma generation_call_witness :
  call_generate collaborators_busy (py "a cat") 1024 1024 8 float_4_0 (Some 7) <>
  call_generate collaborators_plain (py "a cat") 1024 1024 8 float_4_0 (Some 7) /\
  resolve_steps request_cat = 4 /\
  generate_endpoint collaborators_busy (py "key") request_cat outputs_two =
  generate_endpoint collaborators_plain (py "key") request_cat outputs_two /\
  resp_success (generate_endpoint collaborators_busy (py "key") request_cat
                                  outputs_two).1 = true.
Proof.
  destruct (generation_call collaborators_plain collaborators_busy (py "key")
              request_cat outputs_two eq_refl eq_refl eq_refl eq_refl eq_refl eq_refl
              eq_refl eq_refl)
    as (Heq & _ & _ & Hsteps).
  split; [discriminate|].
  split; [rewrite (Hsteps eq_refl); reflexivity|].
  split; [exact Heq|]. rewrite Heq. reflexivity.
Defined.

(** X22: [/generate] always answers with the prompt of the request as
    original prompt and leaves every entry of the output directory as it
    was, but the image and the metadata file named after the timestamp.
    It reports success exactly when the client returned and both files
    were written, neither name standing for a folder; the response then
    has no error, and its metadata hold the five entries that the endpoint
    adds, whatever the client gave under these keys, and under every other
    key what the client gave.  A response that reports failure comes with
    an error text and without image, URL and metadata.  When the client
    raised, the text is the client's and the directory is unchanged; when
    the image could not be written, the metadata file is untouched and
    the image name stands for what it stood for or for a file; when the
    metadata could not be written, the image is in the directory all the
    same. *)
Theorem generate_endpoint_effect c key request fs :
  let r := generate_endpoint c key request fs in
  let md := resp_metadata r.1 in
  let client := call_generate c (default (req_prompt request) (enhance_for c key request))
                              (req_width request) (req_height request)
                              (resolve_steps request) (resolve_guidance request)
                              (req_seed request) in
  let filename := image_name (clock_timestamp c) in
  let metadata_file := metadata_name (clock_timestamp c) in
  resp_original_prompt r.1 = req_prompt request /\
  resp_enhanced_prompt r.1 = enhance_for c key request /\
  (forall other, other <> filename -> other <> metadata_file ->
                 r.2 !! other = fs !! other) /\
  (resp_success r.1 = true <->
   (exists result, client = inr result) /\
   write_image c = Stored /\ fs !! filename <> Some Dir /\
   write_metadata c = Stored /\ fs !! metadata_file <> Some Dir) /\
  (resp_success r.1 = false ->
   md = [] /\ resp_image_url r.1 = None /\ resp_image_base64 r.1 = None /\
   exists e,
     resp_error r.1 = Some e /\
     match client with
     | inl e' => e = e' /\ r.2 = fs
     | inr (image_bytes, _) =>
         (r.2 !! metadata_file = fs !! metadata_file /\
          (r.2 !! filename = fs !! filename \/
           exists content, r.2 !! filename = Some (File content))) \/
         (r.2 !! filename = Some (File (Binary image_bytes)) /\
          (r.2 !! metadata_file = fs !! metadata_file \/
           exists content, r.2 !! metadata_file = Some (File content)))
     end) /\
  (resp_success r.1 = true ->
   resp_error r.1 = None /\
   dict_get (py "original_prompt") md = Some (JStr (req_prompt request)) /\
   dict_get (py "enhanced_prompt") md =
     Some (json_of_option (enhance_for c key request)) /\
   dict_get (py "timestamp") md = Some (JStr (clock_timestamp c)) /\
   dict_get (py "generation_time") md = Some (JFloat (clock_generation_time c)) /\
   dict_get (py "quality_preset") md = Some (JStr (req_quality_preset request)) /\
   exists image_bytes client_md,
     client = inr (image_bytes, client_md) /\
     forall k, k ∉ added_keys -> dict_get k md = dict_get k client_md).
Proof.
  cbv zeta. unfold generate_endpoint.
  fold (image_name (clock_timestamp c)). fold (metadata_name (clock_timestamp c)).
  set (filename := image_name (clock_timestamp c)).
  set (metadata_file := metadata_name (clock_timestamp c)).
  assert (Hne : filename <> metadata_file) by apply image_name_ne_metadata.
  destruct (call_generate c _ _ _ _ _ _) as [e|[image_bytes metadata]].
  { cbn [fst snd failure_response resp_original_prompt resp_enhanced_prompt
         resp_success resp_metadata resp_image_url resp_image_base64 resp_error].
    split; [reflexivity|]. split; [reflexivity|]. split; [done|].
    split; [split; [discriminate|by intros [[? ?] _]]|].
    split; [|discriminate]. intros _. repeat split. by exists e. }
  pose proof (write_file_other (write_image c) (is_a_directory c filename) filename
                (Binary image_bytes) fs) as Hother1.
  destruct (write_file (write_image c) _ filename _ fs) as [[e|] fs1] eqn:Hw1.
  { cbn [fst snd failure_response resp_original_prompt resp_enhanced_prompt
         resp_success resp_metadata resp_image_url resp_image_base64 resp_error]
      in *.
    split; [reflexivity|]. split; [reflexivity|].
    split; [intros other H1 _; by apply Hother1|].
    split.
    { split; [discriminate|]. intros (_ & Hst & Hdir & _). exfalso.
      unfold write_file in Hw1. rewrite Hst in Hw1.
      by destruct (fs !! filename) as [[|?]|]. }
    split; [|discriminate]. intros _. repeat split. exists e.
    split; [reflexivity|]. left.
    split; [apply Hother1; by apply not_eq_sym|].
    destruct (write_file_raises _ _ _ _ _ _ _ Hw1) as [->|[content ->]];
      [by left|right]. exists content. by rewrite lookup_insert_eq. }
  apply write_file_stored in Hw1 as (Hst1 & Hdir1 & ->).
  set (full := dict_set _ _ _).
  pose proof (write_file_other (write_metadata c) (is_a_directory c metadata_file)
                metadata_file (Json (JDict full))
                (<[filename := File (Binary image_bytes)]> fs)) as Hother2.
  destruct (write_file (write_metadata c) _ metadata_file _ _) as [[e|] fs2] eqn:Hw2.
  { cbn [fst snd failure_response resp_original_prompt resp_enhanced_prompt
         resp_success resp_metadata resp_image_url resp_image_base64 resp_error]
      in *.
    split; [reflexivity|]. split; [reflexivity|].
    split; [intros other H1 H2; by rewrite Hother2, lookup_insert_ne|].
    split.
    { split; [discriminate|]. intros (_ & _ & _ & Hst & Hdir). exfalso.
      unfold write_file in Hw2. rewrite Hst, lookup_insert_ne in Hw2 by done.
      by destruct (fs !! metadata_file) as [[|?]|]. }
    split; [|discriminate]. intros _. repeat split. exists e.
    split; [reflexivity|]. right.
    split; [by rewrite Hother2, lookup_insert_eq|].
    destruct (write_file_raises _ _ _ _ _ _ _ Hw2) as [->|[content ->]].
    - left. by rewrite lookup_insert_ne.
    - right. exists content. by rewrite lookup_insert_eq. }
  apply write_file_stored in Hw2 as (Hst2 & Hdir2 & ->).
  rewrite lookup_insert_ne in Hdir2 by done.
  cbn [fst snd resp_original_prompt resp_enhanced_prompt resp_success
       resp_metadata resp_image_url resp_image_base64 resp_error].
  split; [reflexivity|]. split; [reflexivity|].
  split; [intros other H1 H2; by rewrite !lookup_insert_ne|].
  split; [split; [intros _; by eauto 10|done]|].
  split; [discriminate|]. intros _.
  split; [reflexivity|]. unfold full.
  split.
  { rewrite !dict_get_set_ne by (by vm_compute). apply dict_get_set_eq. }
  split.
  { rewrite !dict_get_set_ne by (by vm_compute). apply dict_get_set_eq. }
  split.
  { rewrite !dict_get_set_ne by (by vm_compute). apply dict_get_set_eq. }
  split.
  { rewrite !dict_get_set_ne by (by vm_compute). apply dict_get_set_eq. }
  split; [apply dict_get_set_eq|].
  exists image_bytes, metadata. split; [reflexivity|].
  intros k Hk. unfold added_keys in Hk.
  rewrite !not_elem_of_cons in Hk. destruct Hk as (H1 & H2 & H3 & H4 & H5 & _).
  by rewrite !dict_get_set_ne.
Qed.

(** A disk that is full after the image: the request fails, with the text
    of the exception, and the image stays in the directory, beside a
    metadata file that cannot be read. *)
Example image_kept_when_metadata_fails :
  let r := generate_endpoint collaborators_disk_full (py "key") request_cat outputs_two in
  resp_success r.1 = false /\
  resp_error r.1 = Some (py "No space left on device") /\
  r.2 !! py "flux_20240102_000000.png" = Some (File (Binary [Byte.x89; Byte.x50])) /\
  r.2 !! py "flux_20240102_000000.json" = Some (File (Binary [Byte.x7b])) /\
  get_gallery replace_suffix (fun _ => float_1_0) r.2 = Unhandled.
Proof. cbv zeta. repeat split; vm_compute; reflexivity. Qed.

(** * Properties of the mflux client *)

Lemma flux_metadata_settings {Model : Type} (cl cl' : @MFluxClient Model)
    prompt width height steps guidance seed :
  mf_model_name cl' = mf_model_name cl -> mf_quantize cl' = mf_quantize cl ->
  flux_metadata cl' prompt width height steps guidance seed =
  flux_metadata cl prompt width height steps guidance seed.
Proof. unfold flux_metadata. by intros -> ->. Qed.

Lemma mflux_step {Model Image : Type} (lib : @FluxLibrary Model Image) cl call :
  let r := mflux_generate_image lib cl call in
  mf_model_name r.2 = mf_model_name cl /\
  mf_quantize r.2 = mf_quantize cl /\
  (forall m, mf_model cl = Some m ->
             mf_model r.2 = Some m /\ mf_loads r.2 = mf_loads cl) /\
  (mf_model cl = None ->
   mf_loads r.2 = S (mf_loads cl) /\
   match flux_construct lib (mf_model_name cl) (mf_quantize cl) (mf_loads cl) with
   | inr m => mf_model r.2 = Some m
   | inl e => mf_model r.2 = None /\ r.1 = inl e
   end) /\
  (forall m, mf_model r.2 = Some m ->
             generated_by lib (mf_model_name cl) (mf_quantize cl) m call r.1) /\
  (mf_model r.2 = None -> exists e, r.1 = inl e).
Proof.
  assert (Hrange : forall k, 0 <= flux_random lib k mod 2 ^ 31 < 2 ^ 31)
    by (intros k; apply Z.mod_pos_bound; lia).
  cbv zeta. unfold mflux_generate_image, generate_sync, load_model, generated_by.
  destruct (fc_seed call) as [x|] eqn:Hseed;
    cbn [mf_model mf_model_name mf_quantize mf_loads mf_draws];
    (destruct (mf_model cl) as [m|] eqn:Hm;
     [|destruct (flux_construct lib _ _ _) as [e|m] eqn:Hc]);
    try (destruct (flux_generate lib m _ _ _ _ _ _) as [e'|image] eqn:Hg);
    cbn [fst snd mf_model mf_model_name mf_quantize mf_loads mf_draws];
    rewrite ?Hm;
    (split; [done|]); (split; [done|]);
    (split; [by intros m' [= <-]|]);
    (split; [try done|]);
    (split; [|try done; eauto]);
    try (intros m' Hm'; simplify_eq; intros b md Hres; simplify_eq;
         eexists _, image; split; [exact Hg|]; split; [done|]; split; [done|];
         first [done | apply Hrange]).
  all: try by intros ?; eauto.
  all: try by intros ? ? ? ? ?.
Qed.

Lemma mflux_calls_cons {Model Image : Type} (lib : @FluxLibrary Model Image)
    cl call rest :
  mflux_calls lib cl (call :: rest) =
  ((mflux_generate_image lib cl call).1 ::
   (mflux_calls lib (mflux_generate_image lib cl call).2 rest).1,
   (mflux_calls lib (mflux_generate_image lib cl call).2 rest).2).
Proof.
  cbn [mflux_calls]. destruct (mflux_generate_image lib cl call) as [res cl1].
  cbn [fst snd]. by destruct (mflux_calls lib cl1 rest).
Qed.

Lemma generated_by_settings {Model Image : Type} (lib : @FluxLibrary Model Image)
    name name' q q' m call res :
  name' = name -> q' = q ->
  generated_by lib name q m call res -> generated_by lib name' q' m call res.
Proof. by intros -> ->. Qed.

Lemma mflux_calls_loaded {Model Image : Type} (lib : @FluxLibrary Model Image)
    calls cl m :
  mf_model cl = Some m ->
  let r := mflux_calls lib cl calls in
  mf_model r.2 = Some m /\ mf_loads r.2 = mf_loads cl /\
  Forall2 (generated_by lib (mf_model_name cl) (mf_quantize cl) m) calls r.1.
Proof.
  cbv zeta. revert cl. induction calls as [|call rest IH]; intros cl Hm.
  - cbn. by repeat split.
  - rewrite mflux_calls_cons. cbn [fst snd].
    destruct (mflux_step lib cl call) as (Hname & Hq & Hkeep & _ & Hgen & _).
    cbv zeta in *. destruct (Hkeep m Hm) as [Hm1 Hl1].
    destruct (IH _ Hm1) as (Hm2 & Hl2 & Hall).
    split; [done|]. split; [congruence|].
    constructor; [by apply Hgen|].
    by rewrite <- Hname, <- Hq.
Qed.

Lemma mflux_calls_unloaded {Model Image : Type} (lib : @FluxLibrary Model Image)
    calls cl :
  mf_model cl = None ->
  let r := mflux_calls lib cl calls in
  let construct := flux_construct lib (mf_model_name cl) (mf_quantize cl) in
  let n0 := mf_loads cl in
  length r.1 = length calls /\
  match mf_model r.2 with
  | None =>
      mf_loads r.2 = (n0 + length calls)%nat /\
      forall i, (i < length calls)%nat ->
        exists e, construct (n0 + i)%nat = inl e /\ r.1 !! i = Some (inl e)
  | Some m =>
      exists j, mf_loads r.2 = (n0 + S j)%nat /\ (j < length calls)%nat /\
        construct (n0 + j)%nat = inr m /\
        (forall i, (i < j)%nat ->
           exists e, construct (n0 + i)%nat = inl e /\ r.1 !! i = Some (inl e)) /\
        Forall2 (generated_by lib (mf_model_name cl) (mf_quantize cl) m) calls r.1
  end.
Proof.
  cbv zeta. revert cl. induction calls as [|call rest IH]; intros cl Hm.
  - cbn. rewrite Hm. split; [done|]. split; [lia|]. intros i Hi. lia.
  - rewrite mflux_calls_cons. cbn [fst snd length].
    destruct (mflux_step lib cl call) as (Hname & Hq & _ & Hload & Hgen & _).
    cbv zeta in *. destruct (Hload Hm) as [Hl1 Hc]. clear Hload.
    destruct (flux_construct lib (mf_model_name cl) (mf_quantize cl) (mf_loads cl))
      as [e|m] eqn:Hcon.
    + destruct Hc as [Hm1 Hres].
      destruct (IH _ Hm1) as [Hlen Hrest]. rewrite Hname, Hq, Hl1 in Hrest.
      split; [by rewrite Hlen|].
      destruct (mf_model (mflux_calls lib (mflux_generate_image lib cl call).2 rest).2)
        as [m|] eqn:Hfinal.
      * destruct Hrest as (j & Hl & Hj & Hcj & Hbefore & Hall).
        exists (S j). split; [lia|]. split; [lia|].
        split; [by replace (mf_loads cl + S j)%nat with (S (mf_loads cl) + j)%nat by lia|].
        split.
        -- intros [|i] Hi.
           ++ exists e. rewrite Nat.add_0_r. by rewrite Hres.
           ++ destruct (Hbefore i ltac:(lia)) as (e' & He' & Hlook).
              exists e'. split; [|done].
              by replace (mf_loads cl + S i)%nat with (S (mf_loads cl) + i)%nat by lia.
        -- constructor; [|done]. rewrite Hres. by intros b md.
      * destruct Hrest as [Hl Hbefore]. split; [lia|].
        intros [|i] Hi.
        -- exists e. rewrite Nat.add_0_r. by rewrite Hres.
        -- destruct (Hbefore i ltac:(lia)) as (e' & He' & Hlook).
           exists e'. split; [|done].
           by replace (mf_loads cl + S i)%nat with (S (mf_loads cl) + i)%nat by lia.
    + destruct (mflux_calls_loaded lib rest _ m Hc) as (Hm2 & Hl2 & Hall).
      rewrite Hname, Hq in Hall.
      split; [by rewrite (Forall2_length _ _ _ Hall)|].
      rewrite Hm2. exists O. split; [lia|]. split; [lia|].
      split; [by rewrite Nat.add_0_r|]. split; [intros i Hi; lia|].
      constructor; [|done]. by apply Hgen, (proj1 (mflux_calls_loaded lib [] _ m Hc)).
Qed.

Lemma constructed_none {Model Image : Type} (lib : @FluxLibrary Model Image)
    model quantize n :
  (forall i, (i < n)%nat -> exists e, flux_construct lib model quantize i = inl e) ->
  constructed lib model quantize n = O.
Proof.
  induction n as [|n IH]; intros Hfail; [done|].
  cbn [constructed]. rewrite IH by (intros i Hi; apply Hfail; lia).
  by destruct (Hfail n ltac:(lia)) as [e ->].
Qed.

(** X23: of the mflux client ([_load_model], [_generate_sync], [generate_image]).
    Over any calls of [generate_image] on a new client, every call comes
    back; the model is constructed again at each call as long as the
    construction raises, such a call raising that very exception, and never
    again once a construction has returned a model: at most one construction
    succeeds.  Every result returned after that is the PNG of an image that
    this one model generated for the call's prompt and settings, with the
    call's metadata, and with the call's seed or, when the call gives none,
    a seed in [0, 2^31). *)
Theorem mflux_model_loaded_once {Model Image : Type} (lib : @FluxLibrary Model Image)
    (model : pystr) (quantize : option Z) (calls : list flux_call) :
  let r := mflux_calls lib (new_mflux_client model quantize) calls in
  let loads := mf_loads r.2 in
  length r.1 = length calls /\
  (loads <= length calls)%nat /\
  (constructed lib model quantize loads <= 1)%nat /\
  match mf_model r.2 with
  | None =>
      loads = length calls /\
      forall i, (i < length calls)%nat ->
        exists e, flux_construct lib model quantize i = inl e /\
                  r.1 !! i = Some (inl e)
  | Some m =>
      constructed lib model quantize loads = 1%nat /\
      flux_construct lib model quantize (pred loads) = inr m /\
      (forall i, (i < pred loads)%nat ->
         exists e, flux_construct lib model quantize i = inl e /\
                   r.1 !! i = Some (inl e)) /\
      Forall2 (generated_by lib model quantize m) calls r.1
  end.
Proof.
  cbv zeta.
  destruct (mflux_calls_unloaded lib calls (new_mflux_client model quantize) eq_refl)
    as [Hlen Hcase].
  cbv zeta in Hcase. cbn [new_mflux_client mf_model_name mf_quantize mf_loads] in Hcase.
  split; [done|].
  destruct (mf_model (mflux_calls lib (new_mflux_client model quantize) calls).2)
    as [m|].
  - destruct Hcase as (j & Hl & Hj & Hcj & Hbefore & Hall).
    cbn [Nat.add] in Hl, Hcj, Hbefore.
    rewrite Hl. cbn [Nat.pred constructed]. rewrite Hcj.
    rewrite (constructed_none lib model quantize j)
      by (intros i Hi; destruct (Hbefore i Hi) as (e & He & _); eauto).
    split; [lia|]. split; [lia|]. split; [done|]. split; [done|]. split; [|done].
    intros i Hi. apply (Hbefore i Hi).
  - destruct Hcase as [Hl Hbefore]. cbn [Nat.add] in Hl, Hbefore. rewrite Hl.
    rewrite (constructed_none lib model quantize (length calls))
      by (intros i Hi; destruct (Hbefore i Hi) as (e & He & _); eauto).
    split; [lia|]. split; [lia|]. split; [done|]. exact Hbefore.
Qed.

(** Three calls against a library whose first construction raises: the
    first call raises, the second loads the model, and two images come
    back from two constructions. *)
Example mflux_retry_after_failure :
  let r := mflux_calls flux_library_late (new_mflux_client (py "schnell") (Some 4))
             [call_cat; call_cat; call_cat] in
  mf_loads r.2 = 2%nat /\ mf_model r.2 = Some 7 /\
  r.1 !! 0%nat = Some (inl (py "out of memory")) /\
  exists md, r.1 !! 2%nat = Some (inr ([Byte.x89], md)) /\
             dict_get (py "seed") md = Some (JInt 11).
Proof. cbv zeta. repeat split. eexists. split; reflexivity. Qed.
